(** * Screen recorder plugin: the recording session lifecycle of [main.js]

    A shallow embedding of the recording logic of
    [src/ScreenRecorder/main.js], of its device enumeration, renderer log
    and recordings list, of the page script
    [src/ScreenRecorder/renderer.js], and of the [Validator] class of
    [src/ScreenRecorder/utils/validation.js].

    Module-level variables of [main.js] become fields of [State].  The
    callbacks the code registers on timers, promises and child processes
    are defunctionalised into the inductive types [Timer], [Kont],
    [CloseListener], [ErrorListener] and [StderrListener]; [step] runs
    them when the environment delivers the corresponding event, and [run]
    folds [step] over a trace of events.

    Conventions of the model:
    - a JavaScript string is a [string] whose characters stand for code
      units below 256; numbers that are pixel counts, exit codes and
      milliseconds are in [Z];
    - a child process is known by its index in [procs]; what the runtime
      reports about it ([pid], [spawnfile], [spawnargs], the state of
      [stdin]) comes with the event that spawns it, and the file sizes a
      handler sees come with the event that runs it;
    - [spawn] reports failures through the ['error'] event, and the
      awaited calls inside [startRecording] resolve without another
      handler running in between; the [then] callback of the audio lookup
      of a regular camera is a separate event;
    - timers fire only at or after their deadline, in any order the
      environment chooses. *)

From Stdlib Require Import ZArith String Ascii List Lia Bool Sorted Permutation.
From stdpp Require Import base list strings pretty.
Import ListNotations.
Open Scope string_scope.
Open Scope list_scope.
Open Scope Z_scope.

(** ** JavaScript string primitives *)

Definition dquote : string := String (ascii_of_nat 34) EmptyString.
Definition backslash : string := String (ascii_of_nat 92) EmptyString.

(** [s.includes(pat)] *)
Fixpoint includes (s pat : string) : bool :=
  String.prefix pat s ||
  match s with
  | EmptyString => false
  | String _ r => includes r pat
  end.

Fixpoint drop_chars (n : nat) (s : string) : string :=
  match n, s with
  | O, _ => s
  | S _, EmptyString => EmptyString
  | S k, String _ r => drop_chars k r
  end.

(** [s.replace(pat, rep)] with a string pattern: the first occurrence only
    (the replacement is taken literally). *)
Fixpoint replace (s pat rep : string) : string :=
  if String.prefix pat s then rep +:+ drop_chars (String.length pat) s
  else match s with
       | EmptyString => EmptyString
       | String c r => String c (replace r pat rep)
       end.

Definition is_space (c : ascii) : bool :=
  let n := nat_of_ascii c in
  ((9 <=? n) && (n <=? 13) || (n =? 32) || (n =? 160))%nat.

Fixpoint trimStart (s : string) : string :=
  match s with
  | EmptyString => EmptyString
  | String c r => if is_space c then trimStart r else s
  end.

Fixpoint trimEnd (s : string) : string :=
  match s with
  | EmptyString => EmptyString
  | String c r =>
      let r' := trimEnd r in
      if is_space c && String.eqb r' EmptyString then EmptyString
      else String c r'
  end.

(** [s.trim()] *)
Definition trim (s : string) : string := trimEnd (trimStart s).

Definition lower_char (c : ascii) : ascii :=
  let n := nat_of_ascii c in
  if ((65 <=? n) && (n <=? 90) ||
      (192 <=? n) && (n <=? 222) && negb (n =? 215))%nat
  then ascii_of_nat (n + 32) else c.

(** [s.toLowerCase()] *)
Fixpoint toLowerCase (s : string) : string :=
  match s with
  | EmptyString => EmptyString
  | String c r => String (lower_char c) (toLowerCase r)
  end.

Definition is_bracket (c : ascii) : bool :=
  let n := nat_of_ascii c in ((n =? 91) || (n =? 93))%nat.

(** [s.replace(/[\[\]]/g, '')] *)
Fixpoint stripBrackets (s : string) : string :=
  match s with
  | EmptyString => EmptyString
  | String c r => if is_bracket c then stripBrackets r
                  else String c (stripBrackets r)
  end.

(** [s.replace(/\\/g, '\\\\')]: every backslash is doubled. *)
Fixpoint escapeBackslashes (s : string) : string :=
  match s with
  | EmptyString => EmptyString
  | String c r =>
      if (nat_of_ascii c =? 92)%nat
      then String c (String c (escapeBackslashes r))
      else String c (escapeBackslashes r)
  end.

(** [' '.join]: [args.join(' ')] *)
Fixpoint join (l : list string) : string :=
  match l with
  | [] => EmptyString
  | [a] => a
  | a :: r => a +:+ " " +:+ join r
  end.

(** Truthiness of an optional string: [undefined], [null] and [''] are
    falsy. *)
Definition truthy (o : option string) : bool :=
  match o with
  | Some s => negb (String.eqb s EmptyString)
  | None => false
  end.

(** [a || b] on optional strings. *)
Definition js_or (a b : option string) : option string :=
  if truthy a then a else b.

(** [o || d] with a string default. *)
Definition orDefault (o : option string) (d : string) : string :=
  match o with
  | Some s => if String.eqb s EmptyString then d else s
  | None => d
  end.

(** Template interpolation of a possibly-null exit code or signal. *)
Definition showCode (code : option Z) : string :=
  match code with Some n => pretty n | None => "null" end.

Definition showSignal (signal : option string) : string :=
  match signal with Some g => g | None => "null" end.

(** ** Paths ([path.join], [path.dirname], [path.basename], [path.extname])

    Output paths are built from the absolute, normalised recordings
    directory and a file name without separators, so [path.join] is
    concatenation with the platform separator. *)

Definition is_sep (c : ascii) : bool :=
  let n := nat_of_ascii c in ((n =? 92) || (n =? 47))%nat.

Definition path_join (dir name : string) : string := dir +:+ backslash +:+ name.

(** Split at the last separator: [(Some dir, base)], or [(None, s)] when
    [s] has no separator. *)
Fixpoint splitDir (s : string) : option string * string :=
  match s with
  | EmptyString => (None, EmptyString)
  | String c r =>
      match splitDir r with
      | (Some d, b) => (Some (String c d), b)
      | (None, b) => if is_sep c then (Some EmptyString, b)
                     else (None, String c b)
      end
  end.

Definition is_dot (c : ascii) : bool := (nat_of_ascii c =? 46)%nat.

(** Split a file name at its last dot: [(stem, Some ext)] with [ext]
    starting at the dot. *)
Fixpoint splitExt (s : string) : string * option string :=
  match s with
  | EmptyString => (EmptyString, None)
  | String c r =>
      match splitExt r with
      | (st, Some e) => (String c st, Some e)
      | (st, None) => if is_dot c then (EmptyString, Some (String c st))
                      else (String c st, None)
      end
  end.

Definition path_dirname (p : string) : string :=
  match splitDir p with
  | (Some d, _) => d
  | (None, _) => "."
  end.

(** [path.extname(p)]: empty when the last dot is the first character of
    the base name. *)
Definition path_extname (p : string) : string :=
  match splitExt (snd (splitDir p)) with
  | (EmptyString, _) => EmptyString
  | (_, Some e) => e
  | (_, None) => EmptyString
  end.

(** [path.basename(p, path.extname(p))] *)
Definition path_basename_noext (p : string) : string :=
  let b := snd (splitDir p) in
  match splitExt b with
  | (EmptyString, _) => b
  | (st, Some _) => st
  | (_, None) => b
  end.

(** ** Region validation *)

Record Rect := { x : Z; y : Z; width : Z; height : Z }.

(** [Math.floor(n / 2) * 2] *)
Definition floorEven (n : Z) : Z := n / 2 * 2.

Record Validation := { valid : bool; errors : list string }.

(** [Validator.validateRegion(region, minSize = 16)] of
    [utils/validation.js]; the [typeof]/[isNaN] checks hold by typing. *)
Definition validateRegion (region : option Rect) (minSize : Z) : Validation :=
  match region with
  | None => {| valid := true; errors := [] |}
  | Some r =>
      let errs :=
        (if width r <? minSize
         then ["Region width must be at least " +:+ pretty minSize +:+ " pixels"]
         else []) ++
        (if height r <? minSize
         then ["Region height must be at least " +:+ pretty minSize +:+ " pixels"]
         else []) ++
        (if x r <? 0 then ["Region X coordinate cannot be negative"] else []) ++
        (if y r <? 0 then ["Region Y coordinate cannot be negative"] else []) ++
        (if 7680 <? width r
         then ["Region width cannot exceed 7680 pixels"] else []) ++
        (if 4320 <? height r
         then ["Region height cannot exceed 4320 pixels"] else [])
      in
      {| valid := match errs with [] => true | _ => false end; errors := errs |}
  end.


(** ** Device catalog *)

Record Device := { name : string; altName : option string; isDefault : bool }.

Definition reseau : string := "r" +:+ String (ascii_of_nat 233) "seau".

Definition isMicLike (device : Device) : bool :=
  includes (toLowerCase (name device)) "microphone" ||
  includes (toLowerCase (name device)) reseau.

(** The device list both lookups work on: the cache when it is not empty,
    otherwise the result [scan] of a fresh enumeration. *)
Definition audioDevices (cache scan : list Device) : list Device :=
  match cache with [] => scan | _ => cache end.

(** [getBestAudioDevice()]: the display name of the preferred device. *)
Definition getBestAudioDevice (cache scan : list Device) : option string :=
  let devices := audioDevices cache scan in
  match devices with
  | [] => None
  | first :: _ =>
      match find isMicLike devices with
      | Some preferredDevice => Some (name preferredDevice)
      | None => Some (name first)
      end
  end.

(** [getCorrectAudioDeviceName(displayName)] *)
Definition getCorrectAudioDeviceName (cache scan : list Device)
    (displayName : string) : string :=
  match find (fun device => String.eqb (name device) displayName)
             (audioDevices cache scan) with
  | Some deviceInfo =>
      orDefault (altName deviceInfo) displayName
  | None => displayName
  end.

(** ** Command builder *)

Inductive SourceType := SrcDesktop | SrcWindow | SrcCamera.

Record Options := {
  region : option string;
  sourceType : SourceType;
  cameraName : option string;
  windowTitle : option string;
  framerate : option string;
  audioDevice : option string;
  resolution : option string
}.

Definition getFFmpegPath : string := "ffmpeg".

Definition isCamera (t : SourceType) : bool :=
  match t with SrcCamera => true | _ => false end.

Definition isWindow (t : SourceType) : bool :=
  match t with SrcWindow => true | _ => false end.

(** [options.cameraName.replace(/[\[\]]/g, '').trim()] *)
Definition cleanName (cameraName : string) : string :=
  trim (stripBrackets cameraName).

(** [cleanCameraName.toLowerCase().includes('obs virtual')] *)
Definition isOBS (cleanCameraName : string) : bool :=
  includes (toLowerCase cleanCameraName) "obs virtual".

Definition quoted (s : string) : string := dquote +:+ s +:+ dquote.

Definition videoInput (cleanCameraName : string) : string :=
  "video=" +:+ quoted cleanCameraName.

Inductive InputArgs :=
| ArgsThrew (msg : string)
| ArgsTooSmall (error : string)
| ArgsOk (args : list string) (cleanCameraName : string).

(** The region branch of [startRecording] (main.js 589-617). *)
Definition regionArgs (options : Options) (r : Rect) : string + list string :=
  if (width r <? 16) || (height r <? 16) then
    inl ("Selected region is too small (" +:+ pretty (width r) +:+ "x" +:+
         pretty (height r) +:+ "). Minimum size is 16x16 pixels.")
  else
    let evenWidth := floorEven (width r) in
    let evenHeight := floorEven (height r) in
    inr ["-f"; "gdigrab";
         "-video_size"; pretty evenWidth +:+ "x" +:+ pretty evenHeight;
         "-framerate"; orDefault (framerate options) "30";
         "-offset_x"; pretty (x r);
         "-offset_y"; pretty (y r);
         "-i"; "desktop";
         "-draw_mouse"; "1";
         "-probesize"; "10M";
         "-analyzeduration"; "0"].

(** Input-source configuration of [startRecording] (main.js 545-629). *)
Definition inputArgs (options : Options) (region : option Rect) : InputArgs :=
  match sourceType options with
  | SrcCamera =>
      match cameraName options with
      | None => ArgsThrew "TypeError: Cannot read properties of undefined"
      | Some cn =>
          let cleanCameraName := cleanName cn in
          if isOBS cleanCameraName then
            ArgsOk ["-f"; "dshow"; "-framerate"; "60";
                    "-i"; videoInput cleanCameraName] cleanCameraName
          else
            ArgsOk ["-f"; "dshow";
                    "-framerate"; orDefault (framerate options) "30";
                    "-video_size"; "1920x1080";
                    "-i"; videoInput cleanCameraName] cleanCameraName
      end
  | t =>
      if isWindow t && truthy (windowTitle options) then
        ArgsOk ["-f"; "gdigrab";
                "-framerate"; orDefault (framerate options) "30";
                "-i"; "title=" +:+ quoted (orDefault (windowTitle options) "")]
               ""
      else
        match region with
        | Some r =>
            match regionArgs options r with
            | inl e => ArgsTooSmall e
            | inr args => ArgsOk args ""
            end
        | None =>
            ArgsOk ["-f"; "gdigrab";
                    "-framerate"; orDefault (framerate options) "30";
                    "-i"; "desktop"] ""
        end
  end.

(** Encoding options pushed after the input (main.js 687-711); this part
    is reached with [audioInputAdded = false] only. *)
Definition outputArgs (options : Options) (region : option Rect)
    (outputPath : string) : list string :=
  ["-c:v"; "libx264"; "-preset"; "ultrafast"; "-crf"; "22";
   "-pix_fmt"; "yuv420p"] ++
  (if isCamera (sourceType options) then ["-flush_packets"; "1"] else []) ++
  (if truthy (resolution options) &&
      negb (String.eqb (orDefault (resolution options) "") "desktop") &&
      match region with None => true | Some _ => false end
   then ["-vf"; "scale=" +:+ orDefault (resolution options) ""] else []) ++
  [outputPath].

(** The shell command of a screen/window recording with an audio device
    (main.js 640). *)
Definition audioShellCommand (audioDeviceName : string) (args : list string)
    (outputPath : string) : string :=
  getFFmpegPath +:+ " -f dshow -i audio=" +:+ quoted audioDeviceName +:+ " " +:+
  join args +:+
  " -c:v libx264 -preset ultrafast -crf 22 -pix_fmt yuv420p -c:a aac -b:a 128k " +:+
  quoted outputPath.

Definition audioInput (audioDevice : string) : string :=
  "-f dshow -i audio=" +:+ quoted (escapeBackslashes audioDevice).

(** The single command of an OBS Virtual Camera recording (main.js 737,
    741); [audioDevice] is the name after [getCorrectAudioDeviceName]. *)
Definition obsCameraCommand (cleanCameraName : string)
    (audioDevice : option string) (options : Options) (outputPath : string)
    : string :=
  match audioDevice with
  | Some dev =>
      getFFmpegPath +:+ " -f dshow -framerate 60 -i " +:+
      videoInput cleanCameraName +:+ " " +:+ audioInput dev +:+
      " -c:v libx264 -preset ultrafast -crf 22 -pix_fmt yuv420p -c:a aac -b:a 128k -flush_packets 1 -vf scale=" +:+
      orDefault (resolution options) "1920x1080" +:+ " " +:+ quoted outputPath
  | None =>
      getFFmpegPath +:+ " -f dshow -framerate 60 -i " +:+
      videoInput cleanCameraName +:+
      " -c:v libx264 -preset ultrafast -crf 22 -pix_fmt yuv420p -flush_packets 1 -vf scale=" +:+
      orDefault (resolution options) "1920x1080" +:+ " " +:+ quoted outputPath
  end.

(** [targetResolution !== '1920x1080' ? `-vf scale=...` : ''] *)
Definition scaleUnlessHD (targetResolution : string) : string :=
  if String.eqb targetResolution "1920x1080" then ""
  else "-vf scale=" +:+ targetResolution.

(** One candidate of the regular-camera ladder (main.js 757-775):
    [videoSize] is the [-video_size ...] fragment (empty for the second
    candidate), [scale] the trailing scale filter. *)
Definition ladderCommand (framerate videoSize cleanCameraName : string)
    (audioDevice : option string) (scale outputPath : string) : string :=
  getFFmpegPath +:+ " -f dshow -framerate " +:+ framerate +:+ " " +:+
  videoSize +:+ "-i " +:+ videoInput cleanCameraName +:+
  match audioDevice with
  | Some dev =>
      " " +:+ audioInput dev +:+
      " -c:v libx264 -preset ultrafast -crf 22 -pix_fmt yuv420p -c:a aac -b:a 128k -flush_packets 1 "
  | None =>
      " -c:v libx264 -preset ultrafast -crf 22 -pix_fmt yuv420p -flush_packets 1 "
  end +:+ scale +:+ " " +:+ quoted outputPath.

(** [fallbackCommands] of the regular-camera ladder. *)
Definition fallbackCommandsFor (options : Options) (cleanCameraName : string)
    (audioDevice : option string) (outputPath : string) : list string :=
  let targetResolution := orDefault (resolution options) "1920x1080" in
  let fr := orDefault (framerate options) "30" in
  [ ladderCommand fr "-video_size 1920x1080 " cleanCameraName audioDevice
      (scaleUnlessHD targetResolution) outputPath;
    ladderCommand fr "" cleanCameraName audioDevice
      (scaleUnlessHD targetResolution) outputPath;
    ladderCommand fr "-video_size 1280x720 " cleanCameraName audioDevice
      ("-vf scale=" +:+ targetResolution) outputPath ].

(** The output path of attempt [currentAttempt] (main.js 803-809). *)
Definition attemptOutputPath (outputPath : string) (currentAttempt : nat)
    : string :=
  match currentAttempt with
  | O => outputPath
  | _ =>
      let ext := path_extname outputPath in
      let base := path_basename_noext outputPath in
      let dir := path_dirname outputPath in
      path_join dir (base +:+ "_attempt" +:+ pretty currentAttempt +:+ ext)
  end.

(** [cameraCommand.replace(outputPath, currentOutputPath)
                  .replace('ffmpeg', 'ffmpeg -y')] *)
Definition modifiedCommand (cameraCommand outputPath currentOutputPath : string)
    : string :=
  replace (replace cameraCommand outputPath currentOutputPath)
          "ffmpeg" "ffmpeg -y".


(** ** Session state *)

(** Result of [addRecordingToTimeline]. *)
Record TimelineResult := {
  tl_success : bool;
  tl_timelineName : option string;
  tl_createdNewTimeline : option bool;
  tl_message : option string;
  tl_error : option string
}.

(** What the DaVinci Resolve scripting API answers during one call of
    [addRecordingToTimeline]: which objects it hands out, how many clips
    the import yields, the name of the current timeline if there is one,
    and which of the four ways of placing the clip work ([false] also
    when the call throws, each being wrapped in its own [try]).  [thrown]
    is an exception raised by any other API call, [timecodeThrows] one
    raised by [GetCurrentTimecode]. *)
Record ResolveApi := {
  thrown : option string;
  hasResolve : bool;
  hasMediaStorage : bool;
  hasMediaPool : bool;
  clips : nat;
  hasProject : bool;
  currentTimeline : option string;
  dateString : string;
  createdTimeline : bool;
  setCurrentTimeline : bool;
  timecodeThrows : option string;
  insertClips : bool;
  dropClips : bool;
  appendToTimeline : bool;
  dropClipsAtEnd : bool
}.

Definition timelineFailed (msg : string) : TimelineResult :=
  {| tl_success := false; tl_timelineName := None;
     tl_createdNewTimeline := None; tl_message := None;
     tl_error := Some msg |}.

Definition timelineDone (timelineName : string) (createdNewTimeline : bool)
    : TimelineResult :=
  {| tl_success := true; tl_timelineName := Some timelineName;
     tl_createdNewTimeline := Some createdNewTimeline;
     tl_message :=
       Some (if createdNewTimeline
             then "Recording added to new timeline " +:+ quoted timelineName
             else "Recording added to existing timeline " +:+
                  quoted timelineName);
     tl_error := None |}.

(** [addRecordingToTimeline(event, filePath)] (main.js 1506-1649). *)
Definition addRecordingToTimeline (api : ResolveApi) (filePath : string)
    : TimelineResult :=
  match thrown api with
  | Some msg => timelineFailed msg
  | None =>
  if negb (hasResolve api) then
    timelineFailed "Failed to connect to DaVinci Resolve"
  else if negb (hasMediaStorage api) then
    timelineFailed "Failed to get media storage"
  else if negb (hasMediaPool api) then
    timelineFailed "Failed to get media pool"
  else if (clips api =? 0)%nat then
    timelineFailed "Failed to import media file"
  else if negb (hasProject api) then
    timelineFailed "Failed to get current project"
  else
    match currentTimeline api with
    | None =>
        let timelineName := "Screen Recording - " +:+ dateString api in
        if negb (createdTimeline api) then
          timelineFailed "Failed to create timeline"
        else if negb (setCurrentTimeline api) then
          timelineFailed "Failed to set current timeline"
        else timelineDone timelineName true
    | Some timelineName =>
        match timecodeThrows api with
        | Some msg => timelineFailed ("Timeline error: " +:+ msg)
        | None =>
            if insertClips api || dropClips api || appendToTimeline api ||
               dropClipsAtEnd api
            then timelineDone timelineName false
            else
              timelineFailed
                "Failed to add clip to timeline using any available method"
        end
    end
  end.

(** How the promise chained on [addRecordingToTimeline] settles. *)
Inductive TimelineOutcome :=
| Resolved (result : TimelineResult)
| Rejected (message : string).

(** The payload of a ['recording:completed'] message. *)
Record Completion := {
  success : bool;
  filePath : option string;
  timelineResult : option TimelineResult;
  error : option string;
  warning : option string
}.

Definition failure (path : option string) (msg : string) : Completion :=
  {| success := false; filePath := path; timelineResult := None;
     error := Some msg; warning := None |}.

(** State of a child process's [stdin]: writable, destroyed, absent, or
    present but throwing on [write]. *)
Inductive Stdin := StdinOpen | StdinDestroyed | StdinNull | StdinBroken.

(** Listeners registered with [recordingProcess.on('close', ...)]. *)
Inductive CloseListener :=
| OnCloseAudio (outputPath : string)
| OnCloseAttempt (ladder : nat) (currentOutputPath : string)
| OnCloseScreen (outputPath : string)
| OnCloseObs.

(** Listeners registered with [recordingProcess.on('error', ...)]. *)
Inductive ErrorListener :=
| OnErrorAttempt (ladder : nat)
| OnErrorScreen.

(** Listeners registered with [recordingProcess.stderr.on('data', ...)]. *)
Inductive StderrListener :=
| OnStderrAttempt (ladder : nat)
| OnStderrLog.

(** A child-process handle.  [pid], [spawnfile], [spawnargs] and the state
    of [stdin] are what the runtime reports; [command]/[argv]/[shell] record
    what [spawn] was called with; [signals] and [written] record what was
    delivered to the process. *)
Record Proc := {
  pid : option nat;
  spawnfile : string;
  spawnargs : list string;
  command : string;
  argv : list string;
  shell : bool;
  killed : bool;
  stdin : Stdin;
  exited : bool;
  signals : list string;
  written : list string;
  onClose : list CloseListener;
  onError : list ErrorListener;
  onStderr : list StderrListener
}.

(** The variables closed over by [attemptRecording]. *)
Record Ladder := {
  fallbackCommands : list string;
  ladderOutputPath : string;
  currentAttempt : nat;
  ioErrorDetected : bool
}.

(** Callbacks passed to [setTimeout]. *)
Inductive Timer :=
| TAttempt (ladder : nat)
| TStdinGrace
| TProcessOBS (completedFilePath : option string)
| TForceKill.

(** Continuations chained on [addRecordingToTimeline(...)]. *)
Inductive Kont :=
| KPlain (path : string)
| KWarn (path : string) (warn : string)
| KObs (path : string).

(** Pending asynchronous work. *)
Inductive Job :=
| JTimer (deadline : Z) (t : Timer)
| JTimeline (k : Kont)
| JTaskkill (cmd : string)
| JAudioLookup (options : Options) (cleanCameraName outputPath : string).

(** The main process.  First the module-level variables of [main.js]
    (with the property [stopRecording.forceKillTimeout]); then the
    runtime's side: the child processes created so far (a process handle
    is an index into [procs]), the variables of the camera ladders, the
    pending timers, promises and [exec] callbacks, the
    ['recording:completed'] messages delivered to the renderer, the clock
    in milliseconds, and the exceptions no handler caught.  [mainWindow]
    tells whether the window has been created; the window is not destroyed
    while handlers run, so [mainWindow.isDestroyed()] is [false]. *)
Record State := {
  mainWindow : bool;
  recordingProcess : option nat;
  isRecording : bool;
  currentRecordingPath : option string;
  originalRecordingPath : option string;
  timelineAdded : bool;
  availableAudioDevices : list Device;
  RECORDINGS_DIR : string;
  forceKillTimeout : option nat;
  procs : list Proc;
  ladders : list Ladder;
  jobs : list (nat * Job);
  nextJob : nat;
  sent : list Completion;
  now : Z;
  uncaught : list string
}.

Definition set_recordingProcess (v : option nat) (s : State) : State :=
  Build_State (mainWindow s) v (isRecording s) (currentRecordingPath s)
    (originalRecordingPath s) (timelineAdded s) (availableAudioDevices s)
    (RECORDINGS_DIR s) (forceKillTimeout s) (procs s) (ladders s) (jobs s)
    (nextJob s) (sent s) (now s) (uncaught s).
Definition set_isRecording (v : bool) (s : State) : State :=
  Build_State (mainWindow s) (recordingProcess s) v (currentRecordingPath s)
    (originalRecordingPath s) (timelineAdded s) (availableAudioDevices s)
    (RECORDINGS_DIR s) (forceKillTimeout s) (procs s) (ladders s) (jobs s)
    (nextJob s) (sent s) (now s) (uncaught s).
Definition set_currentRecordingPath (v : option string) (s : State) : State :=
  Build_State (mainWindow s) (recordingProcess s) (isRecording s) v
    (originalRecordingPath s) (timelineAdded s) (availableAudioDevices s)
    (RECORDINGS_DIR s) (forceKillTimeout s) (procs s) (ladders s) (jobs s)
    (nextJob s) (sent s) (now s) (uncaught s).
Definition set_originalRecordingPath (v : option string) (s : State) : State
    :=
  Build_State (mainWindow s) (recordingProcess s) (isRecording s)
    (currentRecordingPath s) v (timelineAdded s) (availableAudioDevices s)
    (RECORDINGS_DIR s) (forceKillTimeout s) (procs s) (ladders s) (jobs s)
    (nextJob s) (sent s) (now s) (uncaught s).
Definition set_timelineAdded (v : bool) (s : State) : State :=
  Build_State (mainWindow s) (recordingProcess s) (isRecording s)
    (currentRecordingPath s) (originalRecordingPath s) v
    (availableAudioDevices s) (RECORDINGS_DIR s) (forceKillTimeout s) (procs
    s) (ladders s) (jobs s) (nextJob s) (sent s) (now s) (uncaught s).
Definition set_forceKillTimeout (v : option nat) (s : State) : State :=
  Build_State (mainWindow s) (recordingProcess s) (isRecording s)
    (currentRecordingPath s) (originalRecordingPath s) (timelineAdded s)
    (availableAudioDevices s) (RECORDINGS_DIR s) v (procs s) (ladders s)
    (jobs s) (nextJob s) (sent s) (now s) (uncaught s).
Definition set_procs (v : list Proc) (s : State) : State :=
  Build_State (mainWindow s) (recordingProcess s) (isRecording s)
    (currentRecordingPath s) (originalRecordingPath s) (timelineAdded s)
    (availableAudioDevices s) (RECORDINGS_DIR s) (forceKillTimeout s) v
    (ladders s) (jobs s) (nextJob s) (sent s) (now s) (uncaught s).
Definition set_ladders (v : list Ladder) (s : State) : State :=
  Build_State (mainWindow s) (recordingProcess s) (isRecording s)
    (currentRecordingPath s) (originalRecordingPath s) (timelineAdded s)
    (availableAudioDevices s) (RECORDINGS_DIR s) (forceKillTimeout s) (procs
    s) v (jobs s) (nextJob s) (sent s) (now s) (uncaught s).
Definition set_jobs (v : list (nat * Job)) (s : State) : State :=
  Build_State (mainWindow s) (recordingProcess s) (isRecording s)
    (currentRecordingPath s) (originalRecordingPath s) (timelineAdded s)
    (availableAudioDevices s) (RECORDINGS_DIR s) (forceKillTimeout s) (procs
    s) (ladders s) v (nextJob s) (sent s) (now s) (uncaught s).
Definition set_nextJob (v : nat) (s : State) : State :=
  Build_State (mainWindow s) (recordingProcess s) (isRecording s)
    (currentRecordingPath s) (originalRecordingPath s) (timelineAdded s)
    (availableAudioDevices s) (RECORDINGS_DIR s) (forceKillTimeout s) (procs
    s) (ladders s) (jobs s) v (sent s) (now s) (uncaught s).
Definition set_sent (v : list Completion) (s : State) : State :=
  Build_State (mainWindow s) (recordingProcess s) (isRecording s)
    (currentRecordingPath s) (originalRecordingPath s) (timelineAdded s)
    (availableAudioDevices s) (RECORDINGS_DIR s) (forceKillTimeout s) (procs
    s) (ladders s) (jobs s) (nextJob s) v (now s) (uncaught s).
Definition set_now (v : Z) (s : State) : State :=
  Build_State (mainWindow s) (recordingProcess s) (isRecording s)
    (currentRecordingPath s) (originalRecordingPath s) (timelineAdded s)
    (availableAudioDevices s) (RECORDINGS_DIR s) (forceKillTimeout s) (procs
    s) (ladders s) (jobs s) (nextJob s) (sent s) v (uncaught s).
Definition set_uncaught (v : list string) (s : State) : State :=
  Build_State (mainWindow s) (recordingProcess s) (isRecording s)
    (currentRecordingPath s) (originalRecordingPath s) (timelineAdded s)
    (availableAudioDevices s) (RECORDINGS_DIR s) (forceKillTimeout s) (procs
    s) (ladders s) (jobs s) (nextJob s) (sent s) (now s) v.

(** ** Runtime primitives *)

(** The file system as the handlers see it when they run: sizes of the
    files that exist. *)
Definition Fs := list (string * Z).

(** [fs.existsSync(p)] holds iff this is [Some]; then [fs.statSync(p).size]
    is the value.  [fs.statSync] throws on a missing file. *)
Fixpoint fileSize (fs : Fs) (p : string) : option Z :=
  match fs with
  | [] => None
  | (q, n) :: r => if String.eqb q p then Some n else fileSize r p
  end.

(** What the runtime reports on a freshly spawned child process. *)
Record SpawnEnv := {
  e_pid : option nat;
  e_spawnfile : string;
  e_spawnargs : list string;
  e_stdin : Stdin
}.

(** [mainWindow.webContents.send('recording:completed', c)] *)
Definition sendCompleted (c : Completion) (s : State) : State :=
  set_sent (sent s ++ [c]) s.

Definition addJob (j : Job) (s : State) : State * nat :=
  (set_nextJob (S (nextJob s)) (set_jobs (jobs s ++ [(nextJob s, j)]) s),
   nextJob s).

(** [setTimeout(t, delay)], returning the timer handle. *)
Definition setTimeout (t : Timer) (delay : Z) (s : State) : State * nat :=
  addJob (JTimer (now s + delay) t) s.

Definition isTimer (j : Job) : bool :=
  match j with JTimer _ _ => true | _ => false end.

(** [clearTimeout(id)] *)
Definition clearTimeout (id : nat) (s : State) : State :=
  set_jobs (List.filter (fun ij => negb ((fst ij =? id)%nat && isTimer (snd ij)))
                   (jobs s)) s.

Fixpoint lookupJob (id : nat) (js : list (nat * Job)) : option Job :=
  match js with
  | [] => None
  | (i, j) :: r => if (i =? id)%nat then Some j else lookupJob id r
  end.

Definition removeJob (id : nat) (s : State) : State :=
  set_jobs (List.filter (fun ij => negb (fst ij =? id)%nat) (jobs s)) s.

(** [addRecordingToTimeline(null, path).then(k)]: the call is pending until
    the collaborator answers. *)
Definition awaitTimeline (k : Kont) (s : State) : State :=
  fst (addJob (JTimeline k) s).

(** [spawn(command, args, { shell })] *)
Definition spawn (cmd : string) (args : list string) (sh : bool)
    (sp : SpawnEnv) (s : State) : State * nat :=
  (set_procs (procs s ++
     [{| pid := e_pid sp; spawnfile := e_spawnfile sp;
         spawnargs := e_spawnargs sp; command := cmd; argv := args;
         shell := sh; killed := false; stdin := e_stdin sp; exited := false;
         signals := []; written := []; onClose := []; onError := [];
         onStderr := [] |}]) s,
   length (procs s)).

Definition updProc (p : nat) (f : Proc -> Proc) (s : State) : State :=
  set_procs (alter f p (procs s)) s.

Definition proc_kill (sig : string) (pr : Proc) : Proc :=
  if exited pr then pr else
  {| pid := pid pr; spawnfile := spawnfile pr; spawnargs := spawnargs pr;
     command := command pr; argv := argv pr; shell := shell pr;
     killed := true; stdin := stdin pr; exited := exited pr;
     signals := signals pr ++ [sig]; written := written pr;
     onClose := onClose pr; onError := onError pr; onStderr := onStderr pr |}.

Definition proc_write (token : string) (pr : Proc) : Proc :=
  {| pid := pid pr; spawnfile := spawnfile pr; spawnargs := spawnargs pr;
     command := command pr; argv := argv pr; shell := shell pr;
     killed := killed pr; stdin := stdin pr; exited := exited pr;
     signals := signals pr; written := written pr ++ [token];
     onClose := onClose pr; onError := onError pr; onStderr := onStderr pr |}.

Definition proc_listen (c : list CloseListener) (e : list ErrorListener)
    (d : list StderrListener) (pr : Proc) : Proc :=
  {| pid := pid pr; spawnfile := spawnfile pr; spawnargs := spawnargs pr;
     command := command pr; argv := argv pr; shell := shell pr;
     killed := killed pr; stdin := stdin pr; exited := exited pr;
     signals := signals pr; written := written pr;
     onClose := onClose pr ++ c; onError := onError pr ++ e;
     onStderr := onStderr pr ++ d |}.

(** The process has ended and its streams are closed. *)
Definition proc_exit (pr : Proc) : Proc :=
  {| pid := pid pr; spawnfile := spawnfile pr; spawnargs := spawnargs pr;
     command := command pr; argv := argv pr; shell := shell pr;
     killed := killed pr;
     stdin := match stdin pr with StdinNull => StdinNull
                                | _ => StdinDestroyed end;
     exited := true; signals := signals pr; written := written pr;
     onClose := onClose pr; onError := onError pr; onStderr := onStderr pr |}.

(** [process.kill(sig)] on handle [p]: the signal is delivered, and
    [killed] set, unless the process has already ended. *)
Definition killProcess (p : nat) (sig : string) (s : State) : State :=
  updProc p (proc_kill sig) s.

(** [recordingProcess.kill(sig)] read through the module variable; a
    [null] handle makes the callback throw. *)
Definition killCurrent (sig : string) (s : State) : State :=
  match recordingProcess s with
  | Some p => killProcess p sig s
  | None =>
      set_uncaught (uncaught s ++ ["TypeError: Cannot read properties of null"]) s
  end.

(** [recordingProcess.stdin && !recordingProcess.stdin.destroyed] *)
Definition stdinAvailable (pr : Proc) : bool :=
  match stdin pr with
  | StdinOpen | StdinBroken => true
  | StdinDestroyed | StdinNull => false
  end.

Definition stdinWriteThrows (pr : Proc) : bool :=
  match stdin pr with StdinBroken => true | _ => false end.

(** The shell test of [stopRecording] (main.js 1115-1118). *)
Definition isShellProcess (pr : Proc) : bool :=
  existsb (String.eqb "shell") (spawnargs pr) ||
  includes (spawnfile pr) "cmd.exe" ||
  includes (spawnfile pr) "powershell.exe".

Definition pidTruthy (o : option nat) : bool :=
  match o with Some n => negb (n =? 0)%nat | None => false end.

Definition taskkillCommand (o : option nat) : string :=
  "taskkill /F /T /PID " +:+
  match o with Some n => pretty n | None => "undefined" end.

(** [isRecording = false; recordingProcess = null;] *)
Definition resetRecording (s : State) : State :=
  set_recordingProcess None (set_isRecording false s).

(** [recordingProcess = null; isRecording = false;
     currentRecordingPath = null; originalRecordingPath = null;] *)
Definition resetAll (s : State) : State :=
  set_originalRecordingPath None
    (set_currentRecordingPath None
       (set_isRecording false (set_recordingProcess None s))).

(** ** Completion paths *)

Definition codeIs (code : option Z) (n : Z) : bool :=
  match code with Some m => m =? n | None => false end.

Definition signalIs (signal : option string) (g : string) : bool :=
  match signal with Some h => String.eqb h g | None => false end.

Definition isNull {A} (o : option A) : bool :=
  match o with None => true | Some _ => false end.

(** Classification of an exit by the camera close handler (main.js
    825-827). *)
Definition wasManuallyStopped (code : option Z) (signal : option string)
    : bool :=
  signalIs signal "SIGTERM" || signalIs signal "SIGKILL" ||
  (isNull signal && negb (codeIs code 0) && negb (isNull code)) ||
  (isNull signal && codeIs code 1).

(** main.js 838 *)
Definition wasStopped (code : option Z) (signal : option string) : bool :=
  signalIs signal "SIGTERM" || (isNull signal && codeIs code 1).

(** [fs.existsSync(p) && fs.statSync(p).size > limit] *)
Definition largerThan (fs : Fs) (p : string) (limit : Z) : bool :=
  match fileSize fs p with
  | Some size => limit <? size
  | None => false
  end.

(** The [.then]/[.catch] callbacks chained on [addRecordingToTimeline]. *)
Definition settle (k : Kont) (r : TimelineOutcome) (s : State) : State :=
  match k, r with
  | KPlain path, Resolved result =>
      sendCompleted {| success := true; filePath := Some path;
                       timelineResult := Some result; error := None;
                       warning := None |} s
  | KWarn path warn, Resolved result =>
      sendCompleted {| success := true; filePath := Some path;
                       timelineResult := Some result; error := None;
                       warning := Some warn |} s
  | KObs path, Resolved result =>
      if mainWindow s then
        sendCompleted {| success := true; filePath := Some path;
                         timelineResult := Some result; error := None;
                         warning :=
                           Some "OBS Virtual Camera recording stopped by user" |} s
      else s
  | KObs path, Rejected _ =>
      if mainWindow s then
        sendCompleted {| success := true; filePath := Some path;
                         timelineResult := None;
                         error :=
                           Some "Recording completed but timeline integration failed";
                         warning := None |} s
      else s
  | _, Rejected msg => set_uncaught (uncaught s ++ [msg]) s
  end.

(** The guarded timeline call: [timelineAdded = true;
    addRecordingToTimeline(null, path).then(...)]. *)
Definition fireTimeline (k : Kont) (s : State) : State :=
  awaitTimeline k (set_timelineAdded true s).

(** [processOBSRecording] (main.js 1192-1291), up to its [setTimeout]. *)
Definition processOBSRecording (s : State) : State :=
  let completedFilePath :=
    js_or (currentRecordingPath s) (originalRecordingPath s) in
  fst (setTimeout (TProcessOBS completedFilePath) 500 (resetAll s)).

(** The 500 ms callback of [processOBSRecording]. *)
Definition onProcessOBSTimeout (completedFilePath : option string) (fs : Fs)
    (s : State) : State :=
  if truthy completedFilePath && mainWindow s then
    let path := orDefault completedFilePath "" in
    match fileSize fs path with
    | Some size =>
        if 1024 <? size then
          if negb (timelineAdded s) then fireTimeline (KObs path) s else s
        else if mainWindow s then
          sendCompleted
            (failure None
               "OBS Virtual Camera recording stopped but file is invalid or empty") s
        else s
    | None =>
        if mainWindow s then
          sendCompleted
            (failure None
               "OBS Virtual Camera recording stopped but no file was created") s
        else s
    end
  else s.

(** [handleSuccessfulOBSKill] (main.js 1180-1189) *)
Definition handleSuccessfulOBSKill (s : State) : State :=
  processOBSRecording
    match forceKillTimeout s with
    | Some id => set_forceKillTimeout None (clearTimeout id s)
    | None => s
    end.

(** The callback of [exec('taskkill ...')]. *)
Definition onTaskkillDone (err : option string) (s : State) : State :=
  match err with
  | Some _ => killCurrent "SIGTERM" s
  | None => handleSuccessfulOBSKill s
  end.

(** The 2 s callback armed after writing [q] to a shell process. *)
Definition onStdinGraceTimeout (s : State) : State :=
  match recordingProcess s with
  | Some p =>
      match procs s !! p with
      | Some pr =>
          if negb (killed pr)
          then fst (addJob (JTaskkill (taskkillCommand (pid pr))) s)
          else s
      | None => s
      end
  | None => s
  end.

(** The force-kill callback (main.js 1324-1338). *)
Definition onForceKillTimeout (s : State) : State :=
  match recordingProcess s with
  | Some p =>
      match procs s !! p with
      | Some pr =>
          if negb (killed pr) then resetAll (killProcess p "SIGKILL" s)
          else s
      | None => s
      end
  | None => s
  end.

(** The close listener of the audio shell recording (main.js 654-673). *)
Definition onCloseAudio (outputPath : string) (s : State) : State :=
  let s1 := set_currentRecordingPath None (resetRecording s) in
  if mainWindow s1 && negb (timelineAdded s1)
  then fireTimeline (KPlain outputPath) s1
  else s1.

(** The close listener of a screen/window recording (main.js 1015-1069). *)
Definition onCloseScreen (outputPath : string) (code : option Z)
    (signal : option string) (fs : Fs) (s : State) : State :=
  let s1 := resetRecording s in
  if codeIs code 0 && mainWindow s1 && negb (timelineAdded s1) then
    fireTimeline (KPlain outputPath) s1
  else if negb (isNull code) && negb (codeIs code 0) then
    if largerThan fs outputPath 1024 then
      if mainWindow s1 && negb (timelineAdded s1) then
        fireTimeline
          (KWarn outputPath
             ("Recording completed with exit code " +:+ showCode code +:+
              " (normal for cameras)")) s1
      else s1
    else if mainWindow s1 then
      sendCompleted
        {| success := false; filePath := None; timelineResult := None;
           error := Some ("FFmpeg recording failed with exit code " +:+
                          showCode code);
           warning := None |} s1
    else s1
  else s1.

(** The close listener added by [stopRecording] on a shell process
    (main.js 1295-1301). *)
Definition onCloseObs (code : option Z) (signal : option string) (s : State)
    : State :=
  if signalIs signal "SIGTERM" ||
     (isNull signal && (codeIs code 0 || codeIs code 1))
  then processOBSRecording s
  else s.

Definition bumpAttempt (ld : Ladder) : Ladder :=
  {| fallbackCommands := fallbackCommands ld;
     ladderOutputPath := ladderOutputPath ld;
     currentAttempt := S (currentAttempt ld);
     ioErrorDetected := ioErrorDetected ld |}.

Definition setIoError (b : bool) (ld : Ladder) : Ladder :=
  {| fallbackCommands := fallbackCommands ld;
     ladderOutputPath := ladderOutputPath ld;
     currentAttempt := currentAttempt ld;
     ioErrorDetected := b |}.

Definition updLadder (l : nat) (f : Ladder -> Ladder) (s : State) : State :=
  set_ladders (alter f l (ladders s)) s.

(** The success test of a camera attempt (main.js 895-899). *)
Definition attemptSucceeded (ld : Ladder) (currentOutputPath : string)
    (code : option Z) (fs : Fs) : bool :=
  codeIs code 0 && negb (ioErrorDetected ld) &&
  largerThan fs currentOutputPath 0.

(** The close listener of a camera attempt (main.js 821-925). *)
Definition onCloseAttempt (l : nat) (currentOutputPath : string)
    (code : option Z) (signal : option string) (fs : Fs) (s : State)
    : State :=
  match ladders s !! l with
  | None => s
  | Some ld =>
      if wasManuallyStopped code signal then
        let s1 := resetRecording s in
        let completedFilePath :=
          js_or (currentRecordingPath s1) (originalRecordingPath s1) in
        let s2 := set_currentRecordingPath None s1 in
        if mainWindow s2 then
          let isValidRecording :=
            wasStopped code signal && truthy completedFilePath &&
            largerThan fs (orDefault completedFilePath "") 1024 in
          if isValidRecording && negb (timelineAdded s2) then
            fireTimeline
              (KWarn (orDefault completedFilePath "")
                     "Camera recording stopped by user") s2
          else
            sendCompleted
              (failure None
                 (if wasStopped code signal
                  then "Camera recording stopped but no valid file created"
                  else "Camera recording failed with exit code " +:+
                       showCode code +:+ ", signal: " +:+ showSignal signal))
              s2
        else s2
      else if attemptSucceeded ld currentOutputPath code fs then
        let s1 := set_currentRecordingPath None (resetRecording s) in
        if mainWindow s1 && negb (timelineAdded s1)
        then fireTimeline (KPlain currentOutputPath) s1
        else s1
      else
        fst (setTimeout (TAttempt l) 1000 (updLadder l bumpAttempt s))
  end.

Definition allAttemptsFailed : string :=
  "Camera recording failed: All attempts failed. The camera may be in use by another application. Try closing apps like Discord, Zoom, or OBS that might be using the camera, or use OBS Virtual Camera instead.".

(** [attemptRecording] (main.js 782-819 and the listener registration). *)
Definition attemptRecording (l : nat) (sp : SpawnEnv) (s : State) : State :=
  match ladders s !! l with
  | None => s
  | Some ld =>
      if (length (fallbackCommands ld) <=? currentAttempt ld)%nat then
        let s1 := resetRecording s in
        let failedFilePath := currentRecordingPath s1 in
        let s2 := set_currentRecordingPath None s1 in
        if mainWindow s2
        then sendCompleted (failure failedFilePath allAttemptsFailed) s2
        else s2
      else
        let cameraCommand :=
          nth (currentAttempt ld) (fallbackCommands ld) "" in
        let outputPath := ladderOutputPath ld in
        let currentOutputPath :=
          attemptOutputPath outputPath (currentAttempt ld) in
        let '(s1, p) :=
          spawn (modifiedCommand cameraCommand outputPath currentOutputPath)
                [] true sp s in
        let s2 := set_recordingProcess (Some p) s1 in
        let s3 := updLadder l (setIoError false) s2 in
        updProc p (proc_listen [OnCloseAttempt l currentOutputPath]
                               [OnErrorAttempt l] [OnStderrAttempt l]) s3
  end.

(** The stderr listener of a camera attempt (main.js 927-939). *)
Definition onStderrAttempt (l : nat) (data : string) (s : State) : State :=
  let stderrOutput := trim data in
  if negb (String.eqb stderrOutput "") &&
     (includes stderrOutput "Error during demuxing: I/O error" ||
      includes stderrOutput "No filtered frames for output stream")
  then updLadder l (setIoError true) s
  else s.

(** The error listener of a camera attempt (main.js 942-965). *)
Definition onErrorAttempt (l : nat) (msg : string) (s : State) : State :=
  match ladders s !! l with
  | None => s
  | Some ld =>
      let s0 := updLadder l bumpAttempt s in
      if (length (fallbackCommands ld) <=? S (currentAttempt ld))%nat then
        let s1 := resetRecording s0 in
        let errorFilePath := currentRecordingPath s1 in
        let s2 := set_currentRecordingPath None s1 in
        if mainWindow s2 then
          sendCompleted
            (failure errorFilePath
               ("Camera recording failed: All attempts failed with errors. "
                +:+ msg)) s2
        else s2
      else fst (setTimeout (TAttempt l) 1000 s0)
  end.

(** The error listener of a screen/window recording (main.js 1002-1013). *)
Definition onErrorScreen (msg : string) (s : State) : State :=
  let s1 := resetRecording s in
  if mainWindow s1 then
    sendCompleted
      {| success := false; filePath := None; timelineResult := None;
         error := Some ("Recording process error: " +:+ msg);
         warning := None |} s1
  else s1.

(** ** [startRecording] and [stopRecording] *)

(** Outcome of the interactive region selection ([getScreenRegion]). *)
Inductive Selection :=
| SelRect (r : Rect)
| SelNull
| SelRejected (msg : string).

(** What the environment supplies to one [startRecording] call: the
    timestamp of the file name, the outcome of the region selection, the
    result of enumerating audio devices, and the process handle [spawn]
    returns.  The awaited calls inside [startRecording] are taken to
    resolve without another handler running in between; [spawn] reports
    failures through the ['error'] event. *)
Record StartEnv := {
  timestamp : string;
  selection : Selection;
  scan : list Device;
  spawnEnv : SpawnEnv
}.

Inductive StartResult :=
| StartOk (filePath : string)
| StartOkShell (outputPath : string)
| StartFail (error : string)
| StartThrew (msg : string).

Inductive StopResult :=
| StopOk
| StopFail (error : string).

Definition optIs (o : option string) (v : string) : bool :=
  match o with Some s => String.eqb s v | None => false end.

(** [startRecording(event, options)] (main.js 513-1102). *)
Definition startRecording (options : Options) (env : StartEnv) (s : State)
    : State * StartResult :=
  if isRecording s then (s, StartFail "Recording already in progress") else
  let s := set_timelineAdded false s in
  let filename := "screen-recording-" +:+ timestamp env +:+ ".mp4" in
  let outputPath := path_join (RECORDINGS_DIR s) filename in
  let selected : string + option Rect :=
    if optIs (region options) "selection" then
      match selection env with
      | SelRect r => inr (Some r)
      | SelNull => inl "Region selection cancelled"
      | SelRejected msg => inl ("Region selection failed: " +:+ msg)
      end
    else inr None in
  match selected with
  | inl e => (s, StartFail e)
  | inr region =>
      match inputArgs options region with
      | ArgsThrew msg => (s, StartThrew msg)
      | ArgsTooSmall e => (s, StartFail e)
      | ArgsOk args cleanCameraName =>
          if truthy (audioDevice options) &&
             negb (isCamera (sourceType options)) then
            let shellCommand :=
              audioShellCommand (orDefault (audioDevice options) "") args
                                outputPath in
            let '(s1, p) := spawn shellCommand [] true (spawnEnv env) s in
            let s2 :=
              set_originalRecordingPath (Some outputPath)
                (set_currentRecordingPath (Some outputPath)
                   (set_isRecording true (set_recordingProcess (Some p) s1))) in
            (updProc p (proc_listen [OnCloseAudio outputPath] [] [OnStderrLog])
                     s2,
             StartOkShell outputPath)
          else
            let args := args ++ outputArgs options region outputPath in
            let started (s1 : State) : State :=
              set_originalRecordingPath (Some outputPath)
                (set_currentRecordingPath (Some outputPath)
                   (set_isRecording true s1)) in
            if isCamera (sourceType options) then
              if isOBS cleanCameraName then
                let found :=
                  js_or (audioDevice options)
                        (getBestAudioDevice (availableAudioDevices s)
                                            (scan env)) in
                let device :=
                  match found with
                  | Some d =>
                      if truthy found
                      then Some (getCorrectAudioDeviceName
                                   (availableAudioDevices s) (scan env) d)
                      else None
                  | None => None
                  end in
                let cameraCommand :=
                  obsCameraCommand cleanCameraName device options outputPath in
                let '(s1, p) := spawn cameraCommand [] true (spawnEnv env) s in
                (started (set_recordingProcess (Some p) s1), StartOk outputPath)
              else
                let s1 :=
                  fst (addJob (JAudioLookup options cleanCameraName outputPath)
                              s) in
                (started s1, StartOk outputPath)
            else
              let '(s1, p) := spawn getFFmpegPath args false (spawnEnv env) s in
              let s2 := started (set_recordingProcess (Some p) s1) in
              (updProc p (proc_listen [OnCloseScreen outputPath]
                                      [OnErrorScreen] [OnStderrLog]) s2,
               StartOk outputPath)
      end
  end.

(** The [.then] callback of [getBestAudioDevice()] for a regular camera
    (main.js 751-969): build the ladder and make the first attempt. *)
Definition onAudioLookupDone (options : Options)
    (cleanCameraName outputPath : string) (scanned : list Device)
    (sp : SpawnEnv) (s : State) : State :=
  let device := getBestAudioDevice (availableAudioDevices s) scanned in
  let l := length (ladders s) in
  let s1 :=
    set_ladders
      (ladders s ++
       [{| fallbackCommands :=
             fallbackCommandsFor options cleanCameraName device outputPath;
           ladderOutputPath := outputPath;
           currentAttempt := 0;
           ioErrorDetected := false |}]) s in
  attemptRecording l sp s1.

(** The stop actions of [stopRecording] on the live handle [p], before the
    force-kill timer is armed (main.js 1122-1321). *)
Definition sendStop (p : nat) (pr : Proc) (s : State) : State :=
  if isShellProcess pr && pidTruthy (pid pr) then
    let s1 :=
      if stdinAvailable pr then
        if stdinWriteThrows pr
        then fst (addJob (JTaskkill (taskkillCommand (pid pr))) s)
        else fst (setTimeout TStdinGrace 2000 (updProc p (proc_write "q") s))
      else fst (addJob (JTaskkill (taskkillCommand (pid pr))) s) in
    updProc p (proc_listen [OnCloseObs] [] []) s1
  else if stdinAvailable pr then
    if stdinWriteThrows pr then killProcess p "SIGTERM" s
    else updProc p (proc_write "q") s
  else killProcess p "SIGTERM" s.

(** [stopRecording(event)] (main.js 1105-1355).  A handle that names no
    process is treated like [null]. *)
Definition stopRecording (s : State) : State * StopResult :=
  match recordingProcess s with
  | Some p =>
      match procs s !! p with
      | Some pr =>
          if negb (isRecording s)
          then (s, StopFail "No recording in progress")
          else
            let '(s1, forceKill) := setTimeout TForceKill 3000 (sendStop p pr s) in
            (set_forceKillTimeout (Some forceKill) s1, StopOk)
      | None => (s, StopFail "No recording in progress")
      end
  | None => (s, StopFail "No recording in progress")
  end.

(** ** The event loop *)

Inductive Event :=
| EvSleep (dt : Z)
| EvStart (options : Options) (env : StartEnv)
| EvStop
| EvTimer (id : nat) (fs : Fs) (sp : SpawnEnv)
| EvTimelineSettled (id : nat) (r : TimelineOutcome)
| EvTaskkillDone (id : nat) (err : option string)
| EvAudioLookupDone (id : nat) (scanned : list Device) (sp : SpawnEnv)
| EvClose (p : nat) (code : option Z) (signal : option string) (fs : Fs)
| EvError (p : nat) (msg : string)
| EvStderr (p : nat) (data : string).

Definition runTimer (t : Timer) (fs : Fs) (sp : SpawnEnv) (s : State)
    : State :=
  match t with
  | TAttempt l => attemptRecording l sp s
  | TStdinGrace => onStdinGraceTimeout s
  | TProcessOBS completedFilePath => onProcessOBSTimeout completedFilePath fs s
  | TForceKill => onForceKillTimeout s
  end.

Definition runClose (code : option Z) (signal : option string) (fs : Fs)
    (s : State) (h : CloseListener) : State :=
  match h with
  | OnCloseAudio outputPath => onCloseAudio outputPath s
  | OnCloseAttempt l currentOutputPath =>
      onCloseAttempt l currentOutputPath code signal fs s
  | OnCloseScreen outputPath => onCloseScreen outputPath code signal fs s
  | OnCloseObs => onCloseObs code signal s
  end.

Definition runError (msg : string) (s : State) (h : ErrorListener) : State :=
  match h with
  | OnErrorAttempt l => onErrorAttempt l msg s
  | OnErrorScreen => onErrorScreen msg s
  end.

Definition runStderr (data : string) (s : State) (h : StderrListener)
    : State :=
  match h with
  | OnStderrAttempt l => onStderrAttempt l data s
  | OnStderrLog => s
  end.

(** One turn of the event loop.  A timer runs only once its deadline has
    passed; a job runs at most once; ['close'] is delivered once per
    process, to the listeners registered at that moment, in order. *)
Definition step (s : State) (e : Event) : State :=
  match e with
  | EvSleep dt => if 0 <=? dt then set_now (now s + dt) s else s
  | EvStart options env => fst (startRecording options env s)
  | EvStop => fst (stopRecording s)
  | EvTimer id fs sp =>
      match lookupJob id (jobs s) with
      | Some (JTimer deadline t) =>
          if deadline <=? now s then runTimer t fs sp (removeJob id s) else s
      | _ => s
      end
  | EvTimelineSettled id r =>
      match lookupJob id (jobs s) with
      | Some (JTimeline k) => settle k r (removeJob id s)
      | _ => s
      end
  | EvTaskkillDone id err =>
      match lookupJob id (jobs s) with
      | Some (JTaskkill _) => onTaskkillDone err (removeJob id s)
      | _ => s
      end
  | EvAudioLookupDone id scanned sp =>
      match lookupJob id (jobs s) with
      | Some (JAudioLookup options cleanCameraName outputPath) =>
          onAudioLookupDone options cleanCameraName outputPath scanned sp
                            (removeJob id s)
      | _ => s
      end
  | EvClose p code signal fs =>
      match procs s !! p with
      | Some pr =>
          if exited pr then s
          else fold_left (runClose code signal fs) (onClose pr)
                         (updProc p proc_exit s)
      | None => s
      end
  | EvError p msg =>
      match procs s !! p with
      | Some pr => fold_left (runError msg) (onError pr) s
      | None => s
      end
  | EvStderr p data =>
      match procs s !! p with
      | Some pr => fold_left (runStderr data) (onStderr pr) s
      | None => s
      end
  end.

Definition run (evs : list Event) (s : State) : State := fold_left step evs s.

(** The state of the main process once the window exists and nothing has
    been recorded yet. *)
Definition initial (recordingsDir : string) (devices : list Device) : State :=
  {| mainWindow := true; recordingProcess := None; isRecording := false;
     currentRecordingPath := None; originalRecordingPath := None;
     timelineAdded := false; availableAudioDevices := devices;
     RECORDINGS_DIR := recordingsDir; forceKillTimeout := None;
     procs := []; ladders := []; jobs := []; nextJob := 0%nat; sent := [];
     now := 0; uncaught := [] |}.

(** ** Observations used by the specifications *)

Definition isTimeline (j : Job) : bool :=
  match j with JTimeline _ => true | _ => false end.

Definition isForceKill (j : Job) : bool :=
  match j with JTimer _ TForceKill => true | _ => false end.

Definition isStart (e : Event) : bool :=
  match e with EvStart _ _ => true | _ => false end.

(** Number of success completions delivered to the renderer. *)
Fixpoint countSuccess (l : list Completion) : nat :=
  match l with
  | [] => 0
  | c :: r => ((if success c then 1 else 0) + countSuccess r)%nat
  end.

(** Number of timeline calls still awaiting the collaborator. *)
Fixpoint countTimeline (js : list (nat * Job)) : nat :=
  match js with
  | [] => 0
  | ij :: r => ((if isTimeline (snd ij) then 1 else 0) + countTimeline r)%nat
  end.

(** Number of pending force-kill timers. *)
Fixpoint countForceKill (js : list (nat * Job)) : nat :=
  match js with
  | [] => 0
  | ij :: r => ((if isForceKill (snd ij) then 1 else 0) + countForceKill r)%nat
  end.

(** Success completions delivered or still in flight, plus one while the
    guard [timelineAdded] is still unset. *)
Definition potential (s : State) : nat :=
  (countSuccess (sent s) + countTimeline (jobs s) +
   (if timelineAdded s then 0 else 1))%nat.



Fixpoint noBrackets (s : string) : bool :=
  match s with
  | EmptyString => true
  | String c r => negb (is_bracket c) && noBrackets r
  end.

Definition startsWithSpace (s : string) : bool :=
  match s with
  | EmptyString => false
  | String c _ => is_space c
  end.

Fixpoint endsWithSpace (s : string) : bool :=
  match s with
  | EmptyString => false
  | String c EmptyString => is_space c
  | String _ r => endsWithSpace r
  end.



(** The file a timeline continuation reports. *)
Definition kontPath (k : Kont) : string :=
  match k with KPlain p | KWarn p _ | KObs p => p end.

(** The output path [startRecording] derives from its timestamp. *)
Definition outputPathOf (s : State) (env : StartEnv) : string :=
  path_join (RECORDINGS_DIR s)
            ("screen-recording-" +:+ timestamp env +:+ ".mp4").

(** ** Sample inputs *)

(** A directly spawned [ffmpeg] and a [cmd.exe] shell, as the runtime
    reports them on Windows. *)
Definition directProcess : SpawnEnv :=
  {| e_pid := Some 42%nat; e_spawnfile := "ffmpeg";
     e_spawnargs := ["ffmpeg"; "-f"; "gdigrab"]; e_stdin := StdinOpen |}.

Definition shellProcess : SpawnEnv :=
  {| e_pid := Some 51%nat; e_spawnfile := "C:\Windows\system32\cmd.exe";
     e_spawnargs := ["C:\Windows\system32\cmd.exe"; "/d"; "/s"; "/c"];
     e_stdin := StdinOpen |}.

Definition desktopOptions : Options :=
  {| region := None; sourceType := SrcDesktop; cameraName := None;
     windowTitle := None; framerate := Some "30"; audioDevice := None;
     resolution := None |}.

Definition regionOptions : Options :=
  {| region := Some "selection"; sourceType := SrcDesktop; cameraName := None;
     windowTitle := None; framerate := Some "30"; audioDevice := None;
     resolution := None |}.

Definition cameraOptions (cam : string) : Options :=
  {| region := None; sourceType := SrcCamera; cameraName := Some cam;
     windowTitle := None; framerate := Some "30"; audioDevice := None;
     resolution := None |}.

Definition sampleEnv (ts : string) (sp : SpawnEnv) : StartEnv :=
  {| timestamp := ts; selection := SelNull; scan := []; spawnEnv := sp |}.

Definition regionEnv (r : Rect) : StartEnv :=
  {| timestamp := "2024-05-01T10-00-00"; selection := SelRect r; scan := [];
     spawnEnv := directProcess |}.

Definition sampleInitial : State := initial "C:\Videos\ResolveRecordings" [].

Definition samplePath : string :=
  "C:\Videos\ResolveRecordings\screen-recording-2024-05-01T10-00-00.mp4".

(** DaVinci Resolve cannot be reached. *)
Definition resolveDown : ResolveApi :=
  {| thrown := None; hasResolve := false; hasMediaStorage := false;
     hasMediaPool := false; clips := 0; hasProject := false;
     currentTimeline := None; dateString := "5/1/2024, 10:00:07 AM";
     createdTimeline := false; setCurrentTimeline := false;
     timecodeThrows := None; insertClips := false; dropClips := false;
     appendToTimeline := false; dropClipsAtEnd := false |}.

Definition failedTimeline : TimelineResult :=
  addRecordingToTimeline resolveDown samplePath.

(** A screen recording in progress. *)
Definition recordingDesktop : State :=
  fst (startRecording desktopOptions
         (sampleEnv "2024-05-01T10-00-00" directProcess) sampleInitial).


(** A regular camera recording whose first attempt has just been
    spawned. *)
Definition ladderStarted : State :=
  run [EvStart (cameraOptions "USB Camera")
               (sampleEnv "2024-05-01T10-00-00" shellProcess);
       EvAudioLookupDone 0 [] shellProcess] sampleInitial.



Definition sampleMicrophone : Device :=
  {| name := "Microphone (Realtek Audio)";
     altName := Some "@device_cm_{33D9A762}\wave_{A1B2}";
     isDefault := true |}.

(** A regular camera whose enumerated display name has brackets. *)
Definition bracketCameraStarted : State :=
  run [EvStart (cameraOptions "HD Webcam [USB]")
               (sampleEnv "2024-05-01T10-00-00" shellProcess);
       EvAudioLookupDone 0 [] shellProcess] sampleInitial.

(** A screen recording is stopped and its process exits cleanly after
    100 ms; a new recording is started one second after the stop; two
    seconds later the force-kill timer of the first stop fires. *)
Definition staleForceKill : list Event :=
  [EvStart desktopOptions (sampleEnv "2024-05-01T10-00-00" directProcess);
   EvStop;
   EvSleep 100;
   EvClose 0 (Some 0) None [(samplePath, 500000)];
   EvSleep 900;
   EvStart desktopOptions (sampleEnv "2024-05-01T10-00-01" directProcess);
   EvSleep 2000].

(** A regular camera recording is stopped and its shell exits with code 1
    after 100 ms; [fs] is the file system the close handlers see.  Job 0
    is the audio lookup, jobs 1 and 2 the timers of the stop. *)
Definition stopAndClose (fs : Fs) : list Event :=
  [EvAudioLookupDone 0 [] shellProcess;
   EvStop;
   EvSleep 100;
   EvClose 0 (Some 1) None fs;
   EvSleep 500].

(** A 2 MB file was written: the camera close handler issues the timeline
    call (job 3), the 500 ms timer of [processOBSRecording] (job 4) fires,
    and the collaborator answers with a failure. *)
Definition stoppedCameraWithFile : list Event :=
  stopAndClose [(samplePath, 2000000)] ++
  [EvTimer 4 [(samplePath, 2000000)] shellProcess;
   EvTimelineSettled 3 (Resolved failedTimeline)].

(** No file was written: the 500 ms timer of [processOBSRecording] is
    job 3. *)
Definition stoppedCameraNoFile : list Event :=
  stopAndClose [] ++ [EvTimer 3 [] shellProcess].

(** The stopped camera exits with code 0 after writing 500 bytes: the
    camera close handler accepts the file (job 3 is its timeline call),
    the 500 ms check of [processOBSRecording] (job 4) does not. *)
Definition stoppedCameraSmallFile : list Event :=
  [EvAudioLookupDone 0 [] shellProcess;
   EvStop;
   EvSleep 100;
   EvClose 0 (Some 0) None [(samplePath, 500)];
   EvTimelineSettled 3 (Resolved failedTimeline);
   EvSleep 500;
   EvTimer 4 [(samplePath, 500)] shellProcess].

(** ** More string primitives *)

(** [s.split(sep)] for a separator that is one character. *)
Fixpoint splitOn (sep : ascii) (s : string) : list string :=
  match s with
  | EmptyString => [EmptyString]
  | String c r =>
      if Ascii.eqb c sep then EmptyString :: splitOn sep r
      else match splitOn sep r with
           | p :: ps => String c p :: ps
           | [] => [String c EmptyString]
           end
  end.

(** [s.endsWith(suffix)] *)
Definition endsWith (s suffix : string) : bool :=
  (String.length suffix <=? String.length s)%nat &&
  String.eqb (drop_chars (String.length s - String.length suffix) s) suffix.

(** [s.replace(/c/g, rep)] for a pattern that is one character. *)
Fixpoint replaceAll (c : ascii) (rep : string) (s : string) : string :=
  match s with
  | EmptyString => EmptyString
  | String d r =>
      if Ascii.eqb d c then rep +:+ replaceAll c rep r
      else String d (replaceAll c rep r)
  end.

Definition squote : ascii := ascii_of_nat 39.
Definition newline : ascii := ascii_of_nat 10.
Definition creturn : ascii := ascii_of_nat 13.
Definition is_dquote (c : ascii) : bool := (nat_of_ascii c =? 34)%nat.

(** ** The renderer log ([debugLog]) *)

(** [escapedMessage] of [debugLog] (main.js 357). *)
Definition escapedMessage (message : string) : string :=
  replaceAll creturn (backslash +:+ "r")
    (replaceAll newline (backslash +:+ "n")
       (replaceAll (ascii_of_nat 34) (backslash +:+ dquote)
          (replaceAll squote (backslash +:+ String squote "")
             (escapeBackslashes message)))).

(** The script [debugLog] hands to [executeJavaScript]. *)
Definition debugLogScript (message : string) : string :=
  "console.log('%cMAIN:', 'color: #800', '" +:+ escapedMessage message +:+
  "');".

(** Value of one escape sequence of a JavaScript string literal, for the
    single-character escapes. *)
Definition unescape (e : ascii) : option ascii :=
  let n := nat_of_ascii e in
  if ((n =? 39) || (n =? 34) || (n =? 92))%nat then Some e
  else if (n =? 110)%nat then Some newline
  else if (n =? 114)%nat then Some creturn
  else if (n =? 116)%nat then Some (ascii_of_nat 9)
  else if (n =? 98)%nat then Some (ascii_of_nat 8)
  else if (n =? 118)%nat then Some (ascii_of_nat 11)
  else if (n =? 102)%nat then Some (ascii_of_nat 12)
  else None.

(** How the JavaScript parser reads a single-quoted string literal whose
    opening quote has been consumed: the string value and the source text
    after the closing quote.  A raw line break inside the literal is a
    syntax error. *)
Fixpoint readLiteral (src : string) : option (string * string) :=
  match src with
  | EmptyString => None
  | String c r =>
      if Ascii.eqb c squote then Some (EmptyString, r)
      else if Ascii.eqb c newline || Ascii.eqb c creturn then None
      else if (nat_of_ascii c =? 92)%nat then
        match r with
        | EmptyString => None
        | String e r' =>
            match unescape e, readLiteral r' with
            | Some d, Some (v, rest) => Some (String d v, rest)
            | _, _ => None
            end
        end
      else
        match readLiteral r with
        | Some (v, rest) => Some (String c v, rest)
        | None => None
        end
  end.

(** ** Input validation ([utils/validation.js])

    The static methods of the class [Validator].  The fields of the
    objects they check are typed as the renderer sends them: a string, or
    [None] for a field that is absent. *)

Module Validator.

Definition is_digit (c : ascii) : bool :=
  let n := nat_of_ascii c in ((48 <=? n) && (n <=? 57))%nat.

(** Value of [c] as a digit of the given radix (10 or 16). *)
Definition digitIn (radix : Z) (c : ascii) : option Z :=
  let n := Z.of_nat (nat_of_ascii c) in
  if (48 <=? n) && (n <=? 57) then Some (n - 48)
  else if (radix =? 16) && (97 <=? n) && (n <=? 102) then Some (n - 87)
  else if (radix =? 16) && (65 <=? n) && (n <=? 70) then Some (n - 55)
  else None.

(** Value of the longest prefix of [s] made of digits, continuing from
    [acc]. *)
Fixpoint digits (radix acc : Z) (s : string) : Z :=
  match s with
  | EmptyString => acc
  | String c r =>
      match digitIn radix c with
      | Some d => digits radix (acc * radix + d) r
      | None => acc
      end
  end.

Definition startsWithDigit (radix : Z) (s : string) : bool :=
  match s with
  | EmptyString => false
  | String c _ => match digitIn radix c with Some _ => true | None => false end
  end.

(** [parseInt(s)] without a radix: leading white space is skipped, then an
    optional sign, an optional [0x]/[0X] prefix, and the longest run of
    digits; [None] is [NaN]. *)
Definition parseInt (s : string) : option Z :=
  let s := trimStart s in
  let '(sign, s) :=
    match s with
    | String c r =>
        if (nat_of_ascii c =? 45)%nat then (-1, r)
        else if (nat_of_ascii c =? 43)%nat then (1, r)
        else (1, s)
    | EmptyString => (1, s)
    end in
  let '(radix, s) :=
    match s with
    | String c (String d r) =>
        if (nat_of_ascii c =? 48)%nat &&
           ((nat_of_ascii d =? 120) || (nat_of_ascii d =? 88))%nat
        then (16, r) else (10, s)
    | _ => (10, s)
    end in
  if startsWithDigit radix s then Some (sign * digits radix 0 s) else None.

Fixpoint allDigits (s : string) : bool :=
  match s with
  | EmptyString => true
  | String c r => is_digit c && allDigits r
  end.

Fixpoint dropDigits (s : string) : string :=
  match s with
  | EmptyString => EmptyString
  | String c r => if is_digit c then dropDigits r else s
  end.

(** [/^\d+x\d+$/.test(s)] *)
Definition resolutionPattern (s : string) : bool :=
  match s with
  | EmptyString => false
  | String c _ =>
      is_digit c &&
      match dropDigits s with
      | String e r =>
          Ascii.eqb e "x" &&
          match r with
          | EmptyString => false
          | String _ _ => allDigits r
          end
      | EmptyString => false
      end
  end.

(** [Number(s)] on the strings it is applied to, runs of decimal digits. *)
Definition Number (s : string) : Z := digits 10 0 s.

Record RecordingOptions := {
  framerate : option string;
  resolution : option string;
  sourceType : option string;
  region : option string;
  windowTitle : option string;
  cameraName : option string;
  audioDevice : option string
}.

Definition validSourceTypes : list string := ["desktop"; "window"; "camera"].
Definition validRegions : list string :=
  ["desktop"; "window"; "camera"; "selection"].

Fixpoint joinComma (l : list string) : string :=
  match l with
  | [] => EmptyString
  | [a] => a
  | a :: r => a +:+ ", " +:+ joinComma r
  end.

Definition oneOf (l : list string) (v : string) : bool :=
  existsb (String.eqb v) l.

Definition check (failed : bool) (msg : string) : list string :=
  if failed then [msg] else [].

Definition result (errs : list string) : Validation :=
  {| valid := match errs with [] => true | _ => false end; errors := errs |}.

(** [Validator.validateRecordingOptions(options)] *)
Definition validateRecordingOptions (options : option RecordingOptions)
    : Validation :=
  match options with
  | None => {| valid := false; errors := ["Recording options are required"] |}
  | Some options =>
      result
        ((if truthy (framerate options) then
            check
              match parseInt (orDefault (framerate options) "") with
              | None => true
              | Some framerate => (framerate <? 1) || (120 <? framerate)
              end
              "Framerate must be between 1 and 120"
          else []) ++
         (if truthy (resolution options) &&
             negb (optIs (resolution options) "desktop") then
            let res := orDefault (resolution options) "" in
            if negb (resolutionPattern res) then
              ["Resolution must be in format WIDTHxHEIGHT (e.g., 1920x1080)"]
            else
              match map Number (splitOn "x" res) with
              | width :: height :: _ =>
                  check ((width <? 320) || (height <? 240) ||
                         (7680 <? width) || (4320 <? height))
                        "Resolution must be between 320x240 and 7680x4320"
              | _ => []
              end
          else []) ++
         check (truthy (sourceType options) &&
                negb (oneOf validSourceTypes
                            (orDefault (sourceType options) "")))
               ("Source type must be one of: " +:+ joinComma validSourceTypes) ++
         check (truthy (region options) &&
                negb (oneOf validRegions (orDefault (region options) "")))
               ("Region must be one of: " +:+ joinComma validRegions) ++
         check (optIs (sourceType options) "window" &&
                negb (truthy (windowTitle options)))
               "Window title is required for window recording" ++
         check (optIs (sourceType options) "camera" &&
                negb (truthy (cameraName options)))
               "Camera name is required for camera recording")
  end.

(** The characters of the class that [validateFilePath] and
    [sanitizeString] reject: [<], [>], [:], the double quote, [|], [?] and
    the asterisk. *)
Definition is_invalid (c : ascii) : bool :=
  let n := nat_of_ascii c in
  ((n =? 60) || (n =? 62) || (n =? 58) || (n =? 34) || (n =? 124) ||
   (n =? 63) || (n =? 42))%nat.

Fixpoint hasInvalid (s : string) : bool :=
  match s with
  | EmptyString => false
  | String c r => is_invalid c || hasInvalid r
  end.

(** [Validator.validateFilePath(filePath)] *)
Definition validateFilePath (filePath : option string) : Validation :=
  if negb (truthy filePath) then
    {| valid := false; errors := ["File path must be a non-empty string"] |}
  else
    let filePath := orDefault filePath "" in
    result
      (check (hasInvalid filePath) "File path contains invalid characters" ++
       check (260 <? String.length filePath)%nat
             "File path is too long (max 260 characters)" ++
       check (negb (endsWith (toLowerCase filePath) ".mp4"))
             "File must have .mp4 extension" ++
       check (includes filePath ".." || includes filePath "~")
             "File path contains invalid directory references").

(** What a validator call does: it returns a result, or an exception
    escapes from it. *)
Inductive Outcome :=
| Returned (v : Validation)
| Threw (msg : string).

Record WindowInfo := { title : option string; name : option string }.

(** [Validator.validateWindowInfo(window)]; [window.title.length] is read
    also when the title is missing, and the check of [window.name] cannot
    fail for a name that is a string. *)
Definition validateWindowInfo (window : option WindowInfo) : Outcome :=
  match window with
  | None =>
      Returned {| valid := false;
                  errors := ["Window information must be an object"] |}
  | Some window =>
      match title window with
      | None =>
          Threw "TypeError: Cannot read properties of undefined (reading 'length')"
      | Some t =>
          Returned
            (result
               (check (negb (truthy (title window)))
                      "Window title is required and must be a string" ++
                check (255 <? String.length t)%nat
                      "Window title is too long (max 255 characters)"))
      end
  end.

Record CameraInfo := { camera_name : option string }.

(** [Validator.validateCameraInfo(camera)] *)
Definition validateCameraInfo (camera : option CameraInfo) : Outcome :=
  match camera with
  | None =>
      Returned {| valid := false;
                  errors := ["Camera information must be an object"] |}
  | Some camera =>
      match camera_name camera with
      | None =>
          Threw "TypeError: Cannot read properties of undefined (reading 'length')"
      | Some n =>
          Returned
            (result
               (check (negb (truthy (camera_name camera)))
                      "Camera name is required and must be a string" ++
                check (255 <? String.length n)%nat
                      "Camera name is too long (max 255 characters)"))
      end
  end.

Fixpoint removeInvalid (s : string) : string :=
  match s with
  | EmptyString => EmptyString
  | String c r => if is_invalid c then removeInvalid r
                  else String c (removeInvalid r)
  end.

Fixpoint take_chars (n : nat) (s : string) : string :=
  match n, s with
  | O, _ => EmptyString
  | S _, EmptyString => EmptyString
  | S k, String c r => String c (take_chars k r)
  end.

(** [s.substring(0, maxLength)]; a negative [maxLength] counts as 0. *)
Definition substring0 (maxLength : Z) (s : string) : string :=
  take_chars (Z.to_nat maxLength) s.

(** [s.replace(/\s+/g, ' ')]: every maximal run of white space becomes one
    space. *)
Fixpoint normalizeWhitespace (s : string) : string :=
  match s with
  | EmptyString => EmptyString
  | String c r =>
      if is_space c then
        if startsWithSpace r then normalizeWhitespace r
        else String " " (normalizeWhitespace r)
      else String c (normalizeWhitespace r)
  end.

(** [Validator.sanitizeString(input, maxLength = 255)] *)
Definition sanitizeString (input : option string) (maxLength : Z) : string :=
  if negb (truthy input) then EmptyString
  else
    normalizeWhitespace
      (substring0 maxLength (removeInvalid (trim (orDefault input "")))).

Record Settings := {
  s_framerate : option string;
  s_resolution : option string;
  s_region : option string
}.

Record SettingsResult := {
  validation : Validation;
  sanitized : Settings
}.

(** [Validator.validateAndSanitizeSettings(settings)]; a field that is
    [undefined] is [None]. *)
Definition validateAndSanitizeSettings (settings : option Settings)
    : SettingsResult :=
  match settings with
  | None =>
      {| validation := {| valid := false;
                          errors := ["Settings must be an object"] |};
         sanitized := {| s_framerate := None; s_resolution := None;
                         s_region := None |} |}
  | Some settings =>
      let framerate :=
        match s_framerate settings with
        | None => inr None
        | Some f =>
            match parseInt f with
            | None => inl "Invalid framerate"
            | Some framerate =>
                if (framerate <? 1) || (120 <? framerate)
                then inl "Invalid framerate"
                else inr (Some (pretty framerate))
            end
        end in
      let resolution :=
        match s_resolution settings with
        | None => inr None
        | Some r =>
            if String.eqb r "desktop" then inr (Some "desktop")
            else if resolutionPattern r then inr (Some r)
            else inl "Invalid resolution format"
        end in
      let region :=
        match s_region settings with
        | None => inr None
        | Some r =>
            if oneOf validRegions r then inr (Some r)
            else inl "Invalid region"
        end in
      let err (v : string + option string) : list string :=
        match v with inl e => [e] | inr _ => [] end in
      let value (v : string + option string) : option string :=
        match v with inl _ => None | inr o => o end in
      {| validation := result (err framerate ++ err resolution ++ err region);
         sanitized := {| s_framerate := value framerate;
                         s_resolution := value resolution;
                         s_region := value region |} |}
  end.

End Validator.

(** The options [startRecording] reads from the object the validator has
    checked: a source type other than ['camera'] and ['window'] takes the
    desktop branch. *)
Definition toOptions (options : Validator.RecordingOptions) : Options :=
  {| region := Validator.region options;
     sourceType :=
       if optIs (Validator.sourceType options) "camera" then SrcCamera
       else if optIs (Validator.sourceType options) "window" then SrcWindow
       else SrcDesktop;
     cameraName := Validator.cameraName options;
     windowTitle := Validator.windowTitle options;
     framerate := Validator.framerate options;
     audioDevice := Validator.audioDevice options;
     resolution := Validator.resolution options |}.

(** The text after a number does not start with a digit or with [x] or
    [X]. *)
Definition startsWith_x_or_digit (s : string) : bool :=
  match s with
  | EmptyString => false
  | String c _ =>
      Validator.is_digit c ||
      ((nat_of_ascii c =? 120) || (nat_of_ascii c =? 88))%nat
  end.

(** Every white-space character of [s] is a space that is not followed by
    white space. *)
Fixpoint singleSpaced (s : string) : bool :=
  match s with
  | EmptyString => true
  | String c r =>
      (if is_space c then Ascii.eqb c " " && negb (startsWithSpace r)
       else true) && singleSpaced r
  end.

(** Options whose framerate is a number followed by a unit. *)
Definition lenientOptions : Validator.RecordingOptions :=
  {| Validator.framerate := Some "30fps";
     Validator.resolution := Some "1920x1080";
     Validator.sourceType := Some "desktop";
     Validator.region := Some "desktop";
     Validator.windowTitle := None; Validator.cameraName := None;
     Validator.audioDevice := None |}.

(** ** Device enumeration ([getAvailableCameras],
       [getAvailableAudioDevices])

    Both functions parse the text [ffmpeg -list_devices true -f dshow -i
    dummy] prints; the text is what the environment supplies. *)

(** [stderr || stdout || ''] *)
Definition listingOutput (stderr stdout : string) : string :=
  if String.eqb stderr "" then stdout else stderr.

(** The characters up to the next double quote, and the text after it. *)
Fixpoint untilQuote (s : string) : option (string * string) :=
  match s with
  | EmptyString => None
  | String c r =>
      if is_dquote c then Some (EmptyString, r)
      else match untilQuote r with
           | Some (g, rest) => Some (String c g, rest)
           | None => None
           end
  end.

(** The quoted-name pattern of the parsers, a double quote, one or more
    characters other than a double quote (the group), and a double quote,
    anchored at the start of [s]: the group and the text after the closing
    quote. *)
Definition quotedAt (s : string) : option (string * string) :=
  match s with
  | EmptyString => None
  | String c r =>
      if is_dquote c then
        match untilQuote r with
        | Some (String d g, rest) => Some (String d g, rest)
        | _ => None
        end
      else None
  end.

(** [s.match] with the quoted-name pattern: group 1 of the leftmost
    match. *)
Fixpoint matchQuoted (s : string) : option string :=
  match quotedAt s with
  | Some (g, _) => Some g
  | None =>
      match s with
      | EmptyString => None
      | String _ r => matchQuoted r
      end
  end.

(** The quoted-name pattern followed by [\s*\(audio\)], anchored at the
    start of [s]. *)
Definition quotedAudioAt (s : string) : option string :=
  match quotedAt s with
  | Some (g, rest) =>
      if String.prefix "(audio)" (trimStart rest) then Some g else None
  | None => None
  end.

(** [s.match] with the audio-device pattern: group 1 of the leftmost
    match. *)
Fixpoint matchQuotedAudio (s : string) : option string :=
  match quotedAudioAt s with
  | Some g => Some g
  | None =>
      match s with
      | EmptyString => None
      | String _ r => matchQuotedAudio r
      end
  end.

(** The text [Alternative name ] followed by the quoted-name pattern,
    anchored at the start of [s]. *)
Definition altNameAt (s : string) : option string :=
  if String.prefix "Alternative name " s then
    match quotedAt (drop_chars 17 s) with
    | Some (g, _) => Some g
    | None => None
    end
  else None.

(** [s.match] with the alternative-name pattern: group 1 of the leftmost
    match. *)
Fixpoint matchAltName (s : string) : option string :=
  match altNameAt s with
  | Some g => Some g
  | None =>
      match s with
      | EmptyString => None
      | String _ r => matchAltName r
      end
  end.

Module Camera.
Record t := { name : string; isOBS : bool }.
End Camera.

Definition cameraOf (n : string) : Camera.t :=
  {| Camera.name := n;
     Camera.isOBS := includes (toLowerCase n) "obs virtual camera" |}.

(** One turn of the loop of [getAvailableCameras] (main.js 107-134) on
    [inVideoDevices] and [videoDevices]. *)
Definition cameraLine (st : bool * list Camera.t) (line : string)
    : bool * list Camera.t :=
  let '(inVideoDevices, videoDevices) := st in
  if includes line "[dshow @" then
    if includes line "DirectShow video devices" then (true, videoDevices)
    else if includes line "DirectShow audio devices" then (false, videoDevices)
    else if includes line "(video)" then
      match matchQuoted line with
      | Some n => (inVideoDevices, videoDevices ++ [cameraOf n])
      | None => st
      end
    else st
  else if inVideoDevices && includes line dquote then
    match matchQuoted line with
    | Some n => (inVideoDevices, videoDevices ++ [cameraOf n])
    | None => st
    end
  else st.

(** [getAvailableCameras()] on the text ffmpeg printed. *)
Definition getAvailableCameras (stderr stdout : string) : list Camera.t :=
  snd (fold_left cameraLine (splitOn newline (listingOutput stderr stdout))
                 (false, [])).

(** The alternative name on the line after a device line (main.js
    177-183, 202-208). *)
Definition altNameOf (next : option string) : option string :=
  match next with
  | Some l => if includes l "Alternative name" then matchAltName l else None
  | None => None
  end.

Definition deviceOf (n : string) (alt : option string) : Device :=
  {| name := n; altName := alt;
     isDefault := includes (toLowerCase n) "microphone" ||
                  includes (toLowerCase n) reseau |}.

(** The loop of [getAvailableAudioDevices] (main.js 164-219) from line
    [i] on, [lines] being the lines from [i]; the devices are listed in
    the order they are pushed. *)
Fixpoint audioLines (inAudioDevices : bool) (lines : list string)
    : list Device :=
  match lines with
  | [] => []
  | line :: rest =>
      if includes line "[dshow @" then
        if includes line "DirectShow audio devices" then audioLines true rest
        else if includes line "DirectShow video devices"
        then audioLines false rest
        else if includes line "(audio)" then
          match matchQuotedAudio line with
          | Some n =>
              deviceOf n (altNameOf (head rest)) ::
              audioLines inAudioDevices rest
          | None => audioLines inAudioDevices rest
          end
        else audioLines inAudioDevices rest
      else if inAudioDevices && includes line dquote then
        match matchQuoted line with
        | Some n =>
            deviceOf n (altNameOf (head rest)) ::
            audioLines inAudioDevices rest
        | None => audioLines inAudioDevices rest
        end
      else audioLines inAudioDevices rest
  end.

(** [getAvailableAudioDevices()] on the text ffmpeg printed. *)
Definition getAvailableAudioDevices (stderr stdout : string) : list Device :=
  audioLines false (splitOn newline (listingOutput stderr stdout)).

(** What holds of every name the parsers take from a listing: it is not
    empty, has no double quote and no line break, and stands between
    double quotes in the listing. *)
Definition listedName (output n : string) : Prop :=
  n <> "" /\ includes n dquote = false /\
  includes n (String newline "") = false /\
  includes output (quoted n) = true.

(** A listing in the format of current ffmpeg builds. *)
Definition sampleListing : string :=
  "[dshow @ 000001] " +:+ quoted "Integrated Camera" +:+ " (video)" +:+
  String newline "" +:+
  "[dshow @ 000001]   Alternative name " +:+ quoted "@device_pnp_cam" +:+
  String newline "" +:+
  "[dshow @ 000001] " +:+ quoted "OBS Virtual Camera" +:+ " (video)" +:+
  String newline "" +:+
  "[dshow @ 000001] " +:+ quoted "Headset (USB Audio)" +:+ " (audio)" +:+
  String newline "" +:+
  "[dshow @ 000001]   Alternative name " +:+ quoted "@device_cm_usb" +:+
  String newline "" +:+
  "[dshow @ 000001] " +:+ quoted "Microphone (Realtek Audio)" +:+ " (audio)" +:+
  String newline "" +:+
  "[dshow @ 000001]   Alternative name " +:+ quoted "@device_cm_mic" +:+
  String newline "" +:+
  "dummy: Immediate exit requested".

(** ** The recordings list ([listRecordings]) *)

(** What [fs.readdirSync] and [fs.statSync] report on one file of the
    recordings directory; [mtime] in milliseconds. *)
Record DirEntry := { entryName : string; entrySize : Z; mtime : Z }.

Module Recording.
Record t := { name : string; path : string; size : Z; modified : Z }.
End Recording.

Section Sort.

Context {A : Type} (compare : A -> A -> Z).

(** [a] goes behind every element it compares greater than. *)
Fixpoint insertSorted (a : A) (l : list A) : list A :=
  match l with
  | [] => [a]
  | b :: r => if 0 <? compare a b then b :: insertSorted a r else a :: l
  end.

(** [l.sort(compare)]: the sort is stable, so elements that compare equal
    keep their order, which is what inserting each element before the
    first one it does not compare greater than gives. *)
Definition sortBy (l : list A) : list A := fold_right insertSorted [] l.

End Sort.

Definition recordingOf (recordingsDir : string) (file : DirEntry)
    : Recording.t :=
  {| Recording.name := entryName file;
     Recording.path := path_join recordingsDir (entryName file);
     Recording.size := entrySize file;
     Recording.modified := mtime file |}.

(** [listRecordings()] (main.js 1379-1407); [dir] is [None] when the
    directory is missing or reading it or one of its files throws. *)
Definition listRecordings (recordingsDir : string)
    (dir : option (list DirEntry)) : list Recording.t :=
  match dir with
  | None => []
  | Some files =>
      sortBy (fun a b => Recording.modified b - Recording.modified a)
        (map (recordingOf recordingsDir)
             (List.filter (fun file => endsWith (entryName file) ".mp4")
                          files))
  end.

(** The order of the list: no recording is older than the ones before
    it. *)
Definition newestFirst (a b : Recording.t) : Prop :=
  Recording.modified b <= Recording.modified a.

(** ** More observations *)


Definition isRetryOf (l : nat) (j : Job) : bool :=
  match j with
  | JTimer _ (TAttempt l') => (l' =? l)%nat
  | _ => false
  end.

(** Number of pending retry timers of ladder [l]. *)
Fixpoint countRetries (l : nat) (js : list (nat * Job)) : nat :=
  match js with
  | [] => 0
  | ij :: r => ((if isRetryOf l (snd ij) then 1 else 0) + countRetries l r)%nat
  end.

Definition isAttemptOf (l : nat) (h : CloseListener) : bool :=
  match h with
  | OnCloseAttempt l' _ => (l' =? l)%nat
  | _ => false
  end.

(** The process was spawned by [attemptRecording] for ladder [l]. *)
Definition spawnedBy (l : nat) (pr : Proc) : bool :=
  existsb (isAttemptOf l) (onClose pr).

(** Number of processes spawned for ladder [l]. *)
Fixpoint countAttempts (l : nat) (ps : list Proc) : nat :=
  match ps with
  | [] => 0
  | pr :: r => ((if spawnedBy l pr then 1 else 0) + countAttempts l r)%nat
  end.

(** What the bound on the attempts of ladder [l] rests on: the ladder
    holds three commands, and the processes spawned for it together with
    its pending retries never outnumber the failures counted so far, plus
    one for the first attempt.  A ladder that does not exist yet has
    neither processes nor retries. *)
Definition ladderInv (l : nat) (s : State) : Prop :=
  match ladders s !! l with
  | Some ld =>
      length (fallbackCommands ld) = 3%nat /\
      (countAttempts l (procs s) + countRetries l (jobs s)
       <= S (currentAttempt ld))%nat /\
      (countAttempts l (procs s) <= 3)%nat
  | None =>
      countAttempts l (procs s) = 0%nat /\ countRetries l (jobs s) = 0%nat
  end.

(** A regular camera recording is stopped while its first attempt runs;
    the shell then exits with code 0 without having written a file. *)
Definition stoppedBeforeRetry : State :=
  run [EvStop; EvSleep 100; EvClose 0 (Some 0) None []] ladderStarted.

(** What the bound reads of ladder [l]: the number of its commands and
    its attempt counter. *)
Definition ladderView (l : nat) (s : State) : option (nat * nat) :=
  match ladders s !! l with
  | Some ld => Some (length (fallbackCommands ld), currentAttempt ld)
  | None => None
  end.

(** A handler that leaves ladder [l] alone: same commands and counter,
    same processes spawned for it, no new retry. *)
Definition frame (l : nat) (s s' : State) : Prop :=
  ladderView l s' = ladderView l s /\
  countAttempts l (procs s') = countAttempts l (procs s) /\
  (countRetries l (jobs s') <= countRetries l (jobs s))%nat.

(** What the renderer relies on in a ['recording:completed'] message: a
    success names the file and carries the timeline result or an error
    text; a failure carries an error text and no timeline result. *)
Definition wellFormed (c : Completion) : bool :=
  if success c
  then negb (isNull (filePath c)) &&
       (negb (isNull (timelineResult c)) || negb (isNull (error c)))
  else negb (isNull (error c)) && isNull (timelineResult c).

(** ** The renderer ([renderer.js])

    The renderer's side of a recording: its own [isRecording] flag, the two
    buttons and the status line.  The values of the form controls come
    with the click that reads them.  The two pictographs of the status
    texts stand as their UTF-8 bytes; no function looks inside them. *)

Module Renderer.

Record State := {
  isRecording : bool;
  startDisabled : bool;
  stopDisabled : bool;
  statusText : string;
  statusColor : string;
  alerts : list string
}.

Definition checkMark : string :=
  String (ascii_of_nat 226) (String (ascii_of_nat 156)
    (String (ascii_of_nat 133) "")).

Definition warningSign : string :=
  String (ascii_of_nat 226) (String (ascii_of_nat 154)
    (String (ascii_of_nat 160) (String (ascii_of_nat 239)
       (String (ascii_of_nat 184) (String (ascii_of_nat 143) ""))))).

(** A property interpolated into a template: an absent one prints as
    [undefined]. *)
Definition interpolate (o : option string) : string :=
  match o with Some s => s | None => "undefined" end.

Definition set_status (text color : string) (rs : State) : State :=
  {| isRecording := isRecording rs; startDisabled := startDisabled rs;
     stopDisabled := stopDisabled rs; statusText := text;
     statusColor := color; alerts := alerts rs |}.

Definition set_text (text : string) (rs : State) : State :=
  set_status text (statusColor rs) rs.

Definition set_isRecording (v : bool) (rs : State) : State :=
  {| isRecording := v; startDisabled := startDisabled rs;
     stopDisabled := stopDisabled rs; statusText := statusText rs;
     statusColor := statusColor rs; alerts := alerts rs |}.

Definition alert (text : string) (rs : State) : State :=
  {| isRecording := isRecording rs; startDisabled := startDisabled rs;
     stopDisabled := stopDisabled rs; statusText := statusText rs;
     statusColor := statusColor rs; alerts := alerts rs ++ [text] |}.

(** [updateRecordingUI()] (renderer.js 112-124) *)
Definition updateRecordingUI (rs : State) : State :=
  if isRecording rs then
    {| isRecording := isRecording rs; startDisabled := true;
       stopDisabled := false; statusText := "Recording in progress...";
       statusColor := "red"; alerts := alerts rs |}
  else
    {| isRecording := isRecording rs; startDisabled := false;
       stopDisabled := true; statusText := "Ready to record";
       statusColor := "black"; alerts := alerts rs |}.

Definition lineBreak : string := String (ascii_of_nat 10) "".

(** The text of the alert shown when the clip could not be placed. *)
Definition manualImport (timelineError fileLocation fileName : string)
    : string :=
  warningSign +:+ " Automatic timeline integration failed: " +:+
  timelineError +:+ lineBreak +:+ lineBreak +:+
  "Manual import required:" +:+ lineBreak +:+ lineBreak +:+
  "File location: " +:+ fileLocation +:+ lineBreak +:+ lineBreak +:+
  "In DaVinci Resolve, you can:" +:+ lineBreak +:+
  "1. Go to Media Pool" +:+ lineBreak +:+
  "2. Right-click and import media" +:+ lineBreak +:+
  "3. Navigate to the recordings folder" +:+ lineBreak +:+
  "4. Select " +:+ quoted fileName +:+ lineBreak +:+
  "5. Drag it to your timeline".

(** [handleRecordingCompleted(data)] (renderer.js 79-109) *)
Definition handleRecordingCompleted (data : Completion) (rs : State)
    : State :=
  if success data then
    let rs := updateRecordingUI (set_isRecording false rs) in
    match timelineResult data with
    | Some result =>
        if tl_success result then
          set_status
            (checkMark +:+
             (match tl_createdNewTimeline result with
              | Some true => " Recording added to new timeline: "
              | _ => " Recording added to existing timeline: "
              end) +:+ interpolate (tl_timelineName result))
            "green" rs
        else
          alert
            (manualImport (interpolate (tl_error result))
               (orDefault (filePath data) "Unknown location")
               (if truthy (filePath data)
                then snd (splitDir (orDefault (filePath data) ""))
                else "Unknown file"))
            (set_status
               (warningSign +:+
                " Timeline integration failed - see manual instructions")
               "orange" rs)
    | None =>
        alert
          (manualImport "Unknown error"
             (orDefault (filePath data) "Unknown location")
             (if truthy (filePath data)
              then snd (splitDir (orDefault (filePath data) ""))
              else "Unknown file"))
          (set_status
             (warningSign +:+
              " Timeline integration failed - see manual instructions")
             "orange" rs)
    end
  else
    set_status ("Recording failed: " +:+ interpolate (error data)) "red" rs.

(** The values of the form controls. *)
Record Form := {
  framerateValue : string;
  resolutionValue : string;
  regionValue : string;
  windowValue : string;
  cameraValue : string;
  audioValue : string
}.

Definition optionsOf (form : Form) (sourceType : string)
    (windowTitle cameraName : option string) : Validator.RecordingOptions :=
  {| Validator.framerate := Some (framerateValue form);
     Validator.resolution := Some (resolutionValue form);
     Validator.sourceType := Some sourceType;
     Validator.region := Some (regionValue form);
     Validator.windowTitle := windowTitle;
     Validator.cameraName := cameraName;
     Validator.audioDevice :=
       if String.eqb (audioValue form) "" then None
       else Some (audioValue form) |}.

(** [startRecording()] of the renderer up to its request (renderer.js
    127-166): the new state, and the options sent to the main process if
    a request is made. *)
Definition startRecording (form : Form) (rs : State)
    : State * option Validator.RecordingOptions :=
  if isRecording rs then (rs, None)
  else if String.eqb (regionValue form) "window" then
    if negb (String.eqb (windowValue form) "") then
      (rs, Some (optionsOf form "window" (Some (windowValue form)) None))
    else (set_text "Please select a window to record" rs, None)
  else if String.eqb (regionValue form) "camera" then
    if negb (String.eqb (cameraValue form) "") then
      (rs, Some (optionsOf form "camera" None (Some (cameraValue form))))
    else (set_text "Please select a camera to record" rs, None)
  else (rs, Some (optionsOf form "desktop" None None)).

(** What an [invoke] gives back: the object the main process returned,
    of which the renderer reads [success] and [error], or a rejection
    with its message. *)
Inductive Reply :=
| Result (success : bool) (error : option string)
| Thrown (message : string).

(** The rest of [startRecording()], once the main process has answered
    (renderer.js 167-180). *)
Definition startReplied (reply : Reply) (rs : State) : State :=
  match reply with
  | Result true _ =>
      set_text "Recording started..."
        (updateRecordingUI (set_isRecording true rs))
  | Result false e =>
      set_text ("Failed to start recording: " +:+ interpolate e) rs
  | Thrown message => set_text ("Failed to start recording: " +:+ message) rs
  end.

(** [stopRecording()] of the renderer up to its request (renderer.js
    184-188): whether a request is made. *)
Definition stopRecording (rs : State) : bool := isRecording rs.

(** The rest of [stopRecording()] (renderer.js 188-199). *)
Definition stopReplied (reply : Reply) (rs : State) : State :=
  match reply with
  | Result true _ => set_text "Stopping recording..." rs
  | Result false e =>
      set_text ("Failed to stop recording: " +:+ interpolate e) rs
  | Thrown message => set_text ("Failed to stop recording: " +:+ message) rs
  end.

(** What the renderer asks of the main process. *)
Inductive Request :=
| ReqStart (options : Validator.RecordingOptions)
| ReqStop.

(** What happens in the renderer: a click that reaches one of the two
    buttons, a global shortcut, the answer to a request, a
    ['recording:completed'] message.  A click or shortcut that starts a
    recording reads the form as it is then. *)
Inductive Event :=
| ClickStart (form : Form)
| ClickStop
| ShortcutStart (form : Form)
| ShortcutStop
| ShortcutToggle (form : Form)
| StartReplied (reply : Reply)
| StopReplied (reply : Reply)
| Completed (data : Completion).

Definition requestStart (form : Form) (rs : State) : State * list Request :=
  match startRecording form rs with
  | (rs', Some options) => (rs', [ReqStart options])
  | (rs', None) => (rs', [])
  end.

Definition requestStop (rs : State) : State * list Request :=
  (rs, if stopRecording rs then [ReqStop] else []).

(** One turn of the renderer, with the requests it makes
    (renderer.js 45-65, 288-308, 341-343). *)
Definition step (rs : State) (e : Event) : State * list Request :=
  match e with
  | ClickStart form => requestStart form rs
  | ClickStop => requestStop rs
  | ShortcutStart form =>
      if negb (isRecording rs) then requestStart form rs else (rs, [])
  | ShortcutStop => if isRecording rs then requestStop rs else (rs, [])
  | ShortcutToggle form =>
      if isRecording rs then requestStop rs else requestStart form rs
  | StartReplied reply => (startReplied reply rs, [])
  | StopReplied reply => (stopReplied reply rs, [])
  | Completed data => (handleRecordingCompleted data rs, [])
  end.

Fixpoint run (evs : list Event) (rs : State) : State * list Request :=
  match evs with
  | [] => (rs, [])
  | e :: evs =>
      let '(rs1, out1) := step rs e in
      let '(rs2, out2) := run evs rs1 in
      (rs2, out1 ++ out2)
  end.

(** The page as [updateRecordingUI] leaves it while nothing is recorded,
    before any alert. *)
Definition idlePage : State :=
  {| isRecording := false; startDisabled := false; stopDisabled := true;
     statusText := "Ready to record"; statusColor := "black"; alerts := [] |}.

(** A ['recording:completed'] message that reports a success. *)
Definition reportsSuccess (e : Event) : bool :=
  match e with Completed data => success data | _ => false end.

End Renderer.

(** What the renderer receives for the result of the main process's
    [startRecording]; [rejection] is the message of the rejected promise
    when the handler has thrown. *)
Definition startReply (r : StartResult) (rejection : string)
    : Renderer.Reply :=
  match r with
  | StartOk _ | StartOkShell _ => Renderer.Result true None
  | StartFail e => Renderer.Result false (Some e)
  | StartThrew _ => Renderer.Thrown rejection
  end.

(** What the renderer receives for the result of the main process's
    [stopRecording]. *)
Definition stopReply (r : StopResult) : Renderer.Reply :=
  match r with
  | StopOk => Renderer.Result true None
  | StopFail e => Renderer.Result false (Some e)
  end.

Definition sampleForm : Renderer.Form :=
  {| Renderer.framerateValue := "30"; Renderer.resolutionValue := "desktop";
     Renderer.regionValue := "desktop"; Renderer.windowValue := "";
     Renderer.cameraValue := ""; Renderer.audioValue := "" |}.

Definition cameraForm : Renderer.Form :=
  {| Renderer.framerateValue := "30"; Renderer.resolutionValue := "desktop";
     Renderer.regionValue := "camera"; Renderer.windowValue := "";
     Renderer.cameraValue := "Integrated Camera";
     Renderer.audioValue := "" |}.

(** * Properties *)

(** ** Strings and paths *)

Lemma append_nil_l (s : string) : "" +:+ s = s.
Proof. reflexivity. Qed.

Lemma append_cons (c : ascii) (a s : string) :
  String c a +:+ s = String c (a +:+ s).
Proof. reflexivity. Qed.

Ltac strs := rewrite ?append_nil_l, ?append_cons in *.

Lemma prefix_append (p b : string) : String.prefix p (p +:+ b) = true.
Proof.
  induction p as [|c p IH]; strs; simpl.
  - destruct b; reflexivity.
  - rewrite IH. destruct (Ascii.ascii_dec c c); congruence.
Qed.

Lemma includes_unfold (s p : string) :
  includes s p =
  String.prefix p s ||
  match s with EmptyString => false | String _ r => includes r p end.
Proof. destruct s; reflexivity. Qed.

Lemma includes_here (p b : string) : includes (p +:+ b) p = true.
Proof. rewrite includes_unfold, prefix_append. reflexivity. Qed.

Lemma includes_skip (a s p : string) :
  includes s p = true -> includes (a +:+ s) p = true.
Proof.
  intros H. induction a as [|c a IH]; strs; [assumption|].
  rewrite includes_unfold, IH. apply orb_true_r.
Qed.

Lemma prefix_keep (p a b : string) :
  String.prefix p a = true -> String.prefix p (a +:+ b) = true.
Proof.
  revert a. induction p as [|c p IH]; intros a H.
  - destruct (a +:+ b); reflexivity.
  - destruct a as [|d a]; [discriminate H|]. strs. simpl in *.
    destruct (Ascii.ascii_dec c d); [apply IH, H|discriminate H].
Qed.

Lemma includes_keep (a b p : string) :
  includes a p = true -> includes (a +:+ b) p = true.
Proof.
  induction a as [|c a IH]; rewrite (includes_unfold _ p).
  - rewrite orb_false_r. intros H. rewrite includes_unfold.
    rewrite (prefix_keep p "" b H). reflexivity.
  - intros H. apply orb_true_iff in H as [H|H]; strs;
      rewrite includes_unfold.
    + change (String c (a +:+ b)) with (String c a +:+ b).
      rewrite (prefix_keep p _ b H). reflexivity.
    + rewrite (IH H). apply orb_true_r.
Qed.








Lemma stripBrackets_id (s : string) : noBrackets s = true -> stripBrackets s = s.
Proof.
  induction s as [|c s IH]; simpl; [reflexivity|].
  intros H. apply andb_true_iff in H as [Hc Hs].
  destruct (is_bracket c); [discriminate|]. rewrite (IH Hs). reflexivity.
Qed.

Lemma trimStart_id (s : string) : startsWithSpace s = false -> trimStart s = s.
Proof. destruct s; simpl; [reflexivity|]. intros ->. reflexivity. Qed.

Lemma trimEnd_id (s : string) : endsWithSpace s = false -> trimEnd s = s.
Proof.
  induction s as [|c s IH]; [reflexivity|].
  intros H. cbn [trimEnd]. destruct s as [|d s].
  - simpl in *. rewrite H. reflexivity.
  - rewrite (IH H). simpl. rewrite andb_false_r. reflexivity.
Qed.

(** A name without brackets and without surrounding white space is left
    as it is. *)
Lemma cleanName_id (s : string) :
  noBrackets s = true -> startsWithSpace s = false ->
  endsWithSpace s = false -> cleanName s = s.
Proof.
  intros Hb Hs He. unfold cleanName, trim.
  rewrite (stripBrackets_id s Hb), (trimStart_id s Hs). apply trimEnd_id, He.
Qed.

(** ** Region validation *)

Lemma floorEven_spec (n : Z) :
  Z.even (floorEven n) = true /\ floorEven n <= n /\ n - floorEven n <= 1 /\
  (forall e, Z.even e = true -> e <= n -> e <= floorEven n).
Proof.
  unfold floorEven. repeat split.
  - rewrite Z.even_mul. simpl. apply orb_true_r.
  - pose proof (Z.mul_div_le n 2). lia.
  - pose proof (Z.mod_pos_bound n 2). pose proof (Z.div_mod n 2). lia.
  - intros e He Hle. apply Z.even_spec in He. destruct He as [k ->].
    assert (k <= n / 2) by (apply Z.div_le_lower_bound; lia). lia.
Qed.

(** C7: a selected rectangle that passes the 16-pixel minimum is captured
    with width and height floored to the greatest even number not above
    the original (even, never larger, at most one pixel smaller); a
    rectangle with width or height below 16 makes [startRecording] fail
    with an error before any process is spawned, and
    [Validator.validateRegion] rejects it as well. *)
Theorem region_floored_to_even (options : Options) (env : StartEnv)
    (s : State) (r : Rect) :
  isRecording s = false ->
  isCamera (sourceType options) = false ->
  isWindow (sourceType options) && truthy (windowTitle options) = false ->
  optIs (region options) "selection" = true ->
  selection env = SelRect r ->
  (16 <= width r -> 16 <= height r ->
   let w := floorEven (width r) in
   let h := floorEven (height r) in
   (Z.even w = true /\ w <= width r /\ width r - w <= 1 /\
    forall e, Z.even e = true -> e <= width r -> e <= w) /\
   (Z.even h = true /\ h <= height r /\ height r - h <= 1 /\
    forall e, Z.even e = true -> e <= height r -> e <= h) /\
   inputArgs options (Some r) =
     ArgsOk ["-f"; "gdigrab";
             "-video_size"; pretty w +:+ "x" +:+ pretty h;
             "-framerate"; orDefault (framerate options) "30";
             "-offset_x"; pretty (x r); "-offset_y"; pretty (y r);
             "-i"; "desktop"; "-draw_mouse"; "1"; "-probesize"; "10M";
             "-analyzeduration"; "0"] "") /\
  (width r < 16 \/ height r < 16 ->
   startRecording options env s =
     (set_timelineAdded false s,
      StartFail ("Selected region is too small (" +:+ pretty (width r) +:+
                 "x" +:+ pretty (height r) +:+
                 "). Minimum size is 16x16 pixels.")) /\
   valid (validateRegion (Some r) 16) = false).
Proof.
  intros Hrec Hcam Hwin Hsel Hr.
  assert (Hin : forall res,
             regionArgs options r = res ->
             inputArgs options (Some r) =
             match res with inl e => ArgsTooSmall e | inr a => ArgsOk a "" end).
  { intros res <-. unfold inputArgs.
    destruct (sourceType options); simpl in *; try discriminate;
      rewrite ?Hwin; reflexivity. }
  split.
  - intros Hw Hh w h. split; [apply floorEven_spec|].
    split; [apply floorEven_spec|].
    erewrite Hin; [|reflexivity]. unfold regionArgs.
    destruct (Z.ltb_spec (width r) 16); [lia|].
    destruct (Z.ltb_spec (height r) 16); [lia|]. reflexivity.
  - intros Hsmall.
    assert (Hargs : regionArgs options r =
              inl ("Selected region is too small (" +:+ pretty (width r) +:+
                   "x" +:+ pretty (height r) +:+
                   "). Minimum size is 16x16 pixels.")).
    { unfold regionArgs.
      destruct (Z.ltb_spec (width r) 16); [reflexivity|].
      destruct (Z.ltb_spec (height r) 16); [reflexivity|lia]. }
    split.
    + unfold startRecording. rewrite Hrec, Hsel, Hr.
      rewrite (Hin _ Hargs). reflexivity.
    + unfold validateRegion. simpl.
      destruct (Z.ltb_spec (width r) 16); [reflexivity|].
      destruct (Z.ltb_spec (height r) 16); [reflexivity|lia].
Qed.

Lemma region_floored_to_even_witness :
  inputArgs regionOptions (Some {| x := 10; y := 20; width := 641; height := 481 |}) =
    ArgsOk ["-f"; "gdigrab"; "-video_size"; "640x480"; "-framerate"; "30";
            "-offset_x"; "10"; "-offset_y"; "20"; "-i"; "desktop";
            "-draw_mouse"; "1"; "-probesize"; "10M"; "-analyzeduration"; "0"]
           "".
Proof.
  pose proof (region_floored_to_even regionOptions
                (regionEnv {| x := 10; y := 20; width := 641; height := 481 |})
                sampleInitial
                {| x := 10; y := 20; width := 641; height := 481 |}
                eq_refl eq_refl eq_refl eq_refl eq_refl) as [H _].
  simpl in H. destruct H as (_ & _ & H); [lia | lia |]. exact H.
Defined.

(** ** Start and stop guards *)

(** C6: a start request made while [isRecording] is set returns the
    failure "Recording already in progress" and leaves the whole state
    (live process, recording flag, current recording path, guard, timers)
    exactly as it was. *)
Theorem start_while_recording_rejected (options : Options) (env : StartEnv)
    (s : State) :
  isRecording s = true ->
  startRecording options env s =
    (s, StartFail "Recording already in progress").
Proof. intros H. unfold startRecording. rewrite H. reflexivity. Qed.

Lemma start_while_recording_rejected_witness :
  isRecording recordingDesktop = true /\
  recordingProcess recordingDesktop = Some 0%nat /\
  startRecording (cameraOptions "USB Camera")
                 (sampleEnv "2024-05-01T10-00-07" shellProcess)
                 recordingDesktop =
    (recordingDesktop, StartFail "Recording already in progress").
Proof.
  split; [reflexivity|]. split; [reflexivity|].
  apply (start_while_recording_rejected
           (cameraOptions "USB Camera")
           (sampleEnv "2024-05-01T10-00-07" shellProcess)
           recordingDesktop).
  reflexivity.
Defined.




(** ** Completion relay *)

(** A failed timeline integration always names its cause. *)
Lemma timeline_failure_has_error (api : ResolveApi) (path : string) :
  tl_success (addRecordingToTimeline api path) = false ->
  exists msg, tl_error (addRecordingToTimeline api path) = Some msg.
Proof.
  unfold addRecordingToTimeline.
  repeat match goal with
         | |- context [if ?b then _ else _] => destruct b
         | |- context [match ?b with _ => _ end] => destruct b
         end; simpl; intros H; try discriminate H; eauto.
Qed.

(** C9: whatever the timeline collaborator answers, the completion sent
    for a recording whose file was accepted carries [success = true].  A
    failed [addRecordingToTimeline] result is attached unchanged as
    [timelineResult], and its [error] string describes the integration
    failure; a rejected call on the OBS stop path yields the advisory
    error "Recording completed but timeline integration failed"; the
    relay never produces a completion with [success = false]. *)
Theorem timeline_failure_keeps_success (k : Kont) (s : State) :
  (forall api path,
     mainWindow s = true ->
     tl_success (addRecordingToTimeline api path) = false ->
     exists c msg,
       sent (settle k (Resolved (addRecordingToTimeline api path)) s) =
         sent s ++ [c] /\
       success c = true /\
       filePath c = Some (kontPath k) /\
       timelineResult c = Some (addRecordingToTimeline api path) /\
       tl_error (addRecordingToTimeline api path) = Some msg) /\
  (forall msg c,
     In c (sent (settle k (Rejected msg) s)) ->
     In c (sent s) \/
     (success c = true /\ filePath c = Some (kontPath k) /\
      error c = Some "Recording completed but timeline integration failed")) /\
  (forall r c, In c (sent (settle k r s)) -> In c (sent s) \/ success c = true).
Proof.
  split; [|split].
  - intros api path Hm Hfail.
    destruct (timeline_failure_has_error api path Hfail) as [msg Hmsg].
    destruct k; simpl; rewrite ?Hm; eexists; exists msg; eauto.
  - intros msg c. destruct k; simpl; auto.
    destruct (mainWindow s); simpl; auto.
    rewrite in_app_iff. simpl. intros [H|[<-|[]]]; auto.
  - intros r c. destruct k, r; simpl; auto;
      try (destruct (mainWindow s); simpl; auto);
      rewrite in_app_iff; simpl; intros [H|[<-|[]]]; auto.
Qed.

Lemma timeline_failure_keeps_success_witness :
  exists c,
    sent (settle (KWarn samplePath "Camera recording stopped by user")
                 (Resolved failedTimeline) sampleInitial) = [c] /\
    success c = true /\
    (exists r, timelineResult c = Some r /\
               tl_error r = Some "Failed to connect to DaVinci Resolve").
Proof.
  destruct (timeline_failure_keeps_success
              (KWarn samplePath "Camera recording stopped by user")
              sampleInitial) as [H _].
  destruct (H resolveDown samplePath eq_refl eq_refl)
    as (c & msg & Hs & Hok & _ & Hr & Hmsg).
  exists c. split; [exact Hs|]. split; [exact Hok|].
  exists failedTimeline. split; [exact Hr|reflexivity].
Defined.

(** ** Camera fallback ladder *)



Lemma alter_snoc {A} (f : A -> A) (l : list A) (a : A) :
  alter f (length l) (l ++ [a]) = l ++ [f a].
Proof. induction l; simpl; [reflexivity|]. f_equal. assumption. Qed.

Lemma fallbackCommands_length (options : Options) (clean : string)
    (device : option string) (outputPath : string) :
  length (fallbackCommandsFor options clean device outputPath) = 3%nat.
Proof. reflexivity. Qed.





(** The close handler counts every non-zero exit code as "manually
    stopped or failed": such an attempt is reported at once and the
    ladder does not advance. *)
Example nonzero_exit_is_not_retried :
  let s' := step ladderStarted (EvClose 0 (Some 2) None []) in
  wasManuallyStopped (Some 2) None = true /\
  sent s' =
    [failure None "Camera recording failed with exit code 2, signal: null"] /\
  jobs s' = [] /\ isRecording s' = false /\
  map currentAttempt (ladders s') = [0%nat].
Proof. vm_compute. repeat split; reflexivity. Qed.

(** ** Device names in camera commands *)

Lemma ladderCommand_video (fr vs clean : string) (device : option string)
    (scale outputPath : string) :
  includes (ladderCommand fr vs clean device scale outputPath)
           (videoInput clean) = true.
Proof. unfold ladderCommand. do 6 apply includes_skip. apply includes_here. Qed.

Lemma ladderCommand_audio (fr vs clean d scale outputPath : string) :
  includes (ladderCommand fr vs clean (Some d) scale outputPath)
           (audioInput d) = true.
Proof.
  unfold ladderCommand. do 6 apply includes_skip. apply includes_skip.
  apply includes_keep. apply includes_skip. apply includes_here.
Qed.

Lemma getBestAudioDevice_display (cache scanned : list Device) (d : string) :
  getBestAudioDevice cache scanned = Some d ->
  exists dev, In dev (audioDevices cache scanned) /\ name dev = d.
Proof.
  unfold getBestAudioDevice.
  destruct (audioDevices cache scanned) as [|first rest] eqn:E; [discriminate|].
  destruct (find isMicLike (first :: rest)) as [dev|] eqn:F; intros [= <-].
  - exists dev. split; [|reflexivity]. apply (find_some _ _ F).
  - exists first. split; [left|]; reflexivity.
Qed.

(** C8 (as the code has it): the camera name embedded in every
    camera-capture command is [cleanName] of the enumerated display name,
    that is the display name with square brackets removed and surrounding
    white space trimmed, and hence the verbatim display name when it has
    neither; for a regular camera the audio device embedded is a display
    name of an enumerated device (backslashes doubled), chosen by
    [getBestAudioDevice]. *)
Theorem camera_name_in_command (options : Options) (cam : string)
    (device : option string) (outputPath : string)
    (cache scanned : list Device) :
  let clean := cleanName cam in
  clean = trim (stripBrackets cam) /\
  (forall c, In c (fallbackCommandsFor options clean device outputPath) ->
     includes c (videoInput clean) = true) /\
  includes (obsCameraCommand clean device options outputPath)
           (videoInput clean) = true /\
  (noBrackets cam = true -> startsWithSpace cam = false ->
   endsWithSpace cam = false -> clean = cam) /\
  (forall d, getBestAudioDevice cache scanned = Some d ->
     (exists dev, In dev (audioDevices cache scanned) /\ name dev = d) /\
     forall c, In c (fallbackCommandsFor options clean (Some d) outputPath) ->
       includes c ("-f dshow -i audio=" +:+ quoted (escapeBackslashes d))
       = true).
Proof.
  intros clean. split; [reflexivity|]. split; [|split; [|split]].
  - intros c [<-|[<-|[<-|[]]]]; apply ladderCommand_video.
  - unfold obsCameraCommand. destruct device;
      do 2 apply includes_skip; apply includes_here.
  - apply cleanName_id.
  - intros d Hd. split; [apply (getBestAudioDevice_display _ _ _ Hd)|].
    intros c [<-|[<-|[<-|[]]]]; apply ladderCommand_audio.
Qed.


Lemma camera_name_in_command_witness :
  cleanName "Integrated Webcam" = "Integrated Webcam" /\
  forall c,
    In c (fallbackCommandsFor (cameraOptions "Integrated Webcam")
            (cleanName "Integrated Webcam")
            (Some "Microphone (Realtek Audio)") samplePath) ->
    includes c ("-f dshow -i audio=" +:+ quoted "Microphone (Realtek Audio)")
    = true.
Proof.
  destruct (camera_name_in_command (cameraOptions "Integrated Webcam")
              "Integrated Webcam" None samplePath [sampleMicrophone] [])
    as (_ & _ & _ & Hid & Haudio).
  split; [exact (Hid eq_refl eq_refl eq_refl)|].
  exact (proj2 (Haudio "Microphone (Realtek Audio)" eq_refl)).
Defined.

(** C8 as stated fails: for the enumerated name [HD Webcam [USB]] the
    spawned command does not contain the display name; it names the
    device [HD Webcam USB], with the brackets removed. *)
Lemma camera_name_in_command_counterexample :
  exists cmd,
    map command (procs bracketCameraStarted) = [cmd] /\
    includes cmd (videoInput "HD Webcam [USB]") = false /\
    includes cmd (videoInput "HD Webcam USB") = true.
Proof.
  eexists. split; [vm_compute; reflexivity|].
  split; vm_compute; reflexivity.
Qed.

(** The virtual-camera path passes the chosen audio device through
    [getCorrectAudioDeviceName], so its command names the device by its
    alternative name. *)
Example obs_command_uses_alternative_name :
  let s := initial "C:\Videos\ResolveRecordings" [sampleMicrophone] in
  let s' := fst (startRecording (cameraOptions "OBS Virtual Camera")
                   (sampleEnv "2024-05-01T10-00-00" shellProcess) s) in
  exists cmd,
    map command (procs s') = [cmd] /\
    includes cmd "audio=" = true /\
    includes cmd (quoted "Microphone (Realtek Audio)") = false /\
    includes cmd (quoted (escapeBackslashes
                            "@device_cm_{33D9A762}\wave_{A1B2}")) = true.
Proof.
  eexists. split; [vm_compute; reflexivity|].
  repeat split; vm_compute; reflexivity.
Qed.

(** ** The single-fire guard *)

Lemma countSuccess_app (l : list Completion) (c : Completion) :
  countSuccess (l ++ [c]) =
  (countSuccess l + (if success c then 1 else 0))%nat.
Proof. induction l; simpl; lia. Qed.

Lemma countTimeline_app (js : list (nat * Job)) (i : nat) (j : Job) :
  countTimeline (js ++ [(i, j)]) =
  (countTimeline js + (if isTimeline j then 1 else 0))%nat.
Proof. induction js; simpl; lia. Qed.

Lemma countTimeline_filter (f : nat * Job -> bool) (js : list (nat * Job)) :
  (countTimeline (List.filter f js) <= countTimeline js)%nat.
Proof.
  induction js as [|ij r IH]; simpl; [lia|].
  destruct (f ij); simpl; lia.
Qed.

Lemma countTimeline_remove (id : nat) (js : list (nat * Job)) (k : Kont) :
  lookupJob id js = Some (JTimeline k) ->
  (S (countTimeline (List.filter (fun ij => negb (fst ij =? id)%nat) js))
   <= countTimeline js)%nat.
Proof.
  induction js as [|[i j] r IH]; simpl; [discriminate|].
  destruct (i =? id)%nat eqn:E; simpl.
  - intros [= ->]. simpl.
    pose proof (countTimeline_filter (fun ij => negb (fst ij =? id)%nat) r).
    lia.
  - intros H. specialize (IH H). lia.
Qed.

(** Case analysis on every test of a handler, with the window and guard
    flags fixed, followed by the arithmetic on the two counters. *)
Ltac crush Ht Hm :=
  repeat (simpl; rewrite ?Ht, ?Hm; simpl;
          match goal with
          | |- context [if ?b then _ else _] => destruct b eqn:?
          | |- context [match ?b with _ => _ end] => destruct b eqn:?
          end);
  unfold potential;
  repeat (progress (simpl;
            rewrite ?Ht, ?Hm, ?countSuccess_app, ?countTimeline_app));
  try lia.

Ltac by_cases s :=
  let Ht := fresh "Ht" in
  let Hm := fresh "Hm" in
  destruct (timelineAdded s) eqn:Ht; destruct (mainWindow s) eqn:Hm;
  crush Ht Hm.

Lemma potential_removeJob (id : nat) (s : State) :
  (potential (removeJob id s) <= potential s)%nat.
Proof.
  unfold potential, removeJob. simpl.
  pose proof (countTimeline_filter (fun ij => negb (fst ij =? id)%nat) (jobs s)).
  lia.
Qed.

Lemma potential_clearTimeout (id : nat) (s : State) :
  (potential (clearTimeout id s) <= potential s)%nat.
Proof.
  unfold potential, clearTimeout. simpl.
  pose proof (countTimeline_filter
                (fun ij => negb ((fst ij =? id)%nat && isTimer (snd ij)))
                (jobs s)).
  lia.
Qed.

Lemma potential_onCloseAttempt l path code signal fs s :
  (potential (onCloseAttempt l path code signal fs s) <= potential s)%nat.
Proof.
  unfold onCloseAttempt, fireTimeline, awaitTimeline, setTimeout,
    addJob, sendCompleted, resetRecording, updLadder, failure.
  by_cases s.
Qed.

Lemma potential_onCloseScreen path code signal fs s :
  (potential (onCloseScreen path code signal fs s) <= potential s)%nat.
Proof.
  unfold onCloseScreen, fireTimeline, awaitTimeline, addJob,
    sendCompleted, resetRecording.
  by_cases s.
Qed.

Lemma potential_onCloseAudio path s :
  (potential (onCloseAudio path s) <= potential s)%nat.
Proof.
  unfold onCloseAudio, fireTimeline, awaitTimeline, addJob,
    resetRecording.
  by_cases s.
Qed.

Lemma potential_processOBSRecording s :
  (potential (processOBSRecording s) <= potential s)%nat.
Proof.
  unfold processOBSRecording, setTimeout, addJob, resetAll. by_cases s.
Qed.

Lemma potential_onCloseObs code signal s :
  (potential (onCloseObs code signal s) <= potential s)%nat.
Proof.
  unfold onCloseObs.
  destruct (_ || _); [apply potential_processOBSRecording|lia].
Qed.

Lemma potential_onProcessOBSTimeout path fs s :
  (potential (onProcessOBSTimeout path fs s) <= potential s)%nat.
Proof.
  unfold onProcessOBSTimeout, fireTimeline, awaitTimeline, addJob,
    sendCompleted, failure.
  by_cases s.
Qed.

Lemma potential_attemptRecording l sp s :
  (potential (attemptRecording l sp s) <= potential s)%nat.
Proof.
  unfold attemptRecording, spawn, updProc, updLadder, sendCompleted,
    resetRecording, failure.
  by_cases s.
Qed.

Lemma potential_onErrorAttempt l msg s :
  (potential (onErrorAttempt l msg s) <= potential s)%nat.
Proof.
  unfold onErrorAttempt, setTimeout, addJob, updLadder, sendCompleted,
    resetRecording, failure.
  by_cases s.
Qed.

Lemma potential_onErrorScreen msg s :
  (potential (onErrorScreen msg s) <= potential s)%nat.
Proof.
  unfold onErrorScreen, sendCompleted, resetRecording. by_cases s.
Qed.

Lemma potential_onStderrAttempt l data s :
  (potential (onStderrAttempt l data s) <= potential s)%nat.
Proof. unfold onStderrAttempt, updLadder. by_cases s. Qed.

Lemma potential_onStdinGraceTimeout s :
  (potential (onStdinGraceTimeout s) <= potential s)%nat.
Proof. unfold onStdinGraceTimeout, addJob. by_cases s. Qed.

Lemma potential_onForceKillTimeout s :
  (potential (onForceKillTimeout s) <= potential s)%nat.
Proof.
  unfold onForceKillTimeout, resetAll, killProcess, updProc. by_cases s.
Qed.

Lemma potential_onTaskkillDone err s :
  (potential (onTaskkillDone err s) <= potential s)%nat.
Proof.
  unfold onTaskkillDone, handleSuccessfulOBSKill.
  destruct err.
  - unfold killCurrent, killProcess, updProc. by_cases s.
  - etransitivity; [apply potential_processOBSRecording|].
    destruct (forceKillTimeout s); [|lia].
    etransitivity; [|apply (potential_clearTimeout n s)].
    unfold potential. simpl. lia.
Qed.

Lemma potential_onAudioLookupDone options clean path scanned sp s :
  (potential (onAudioLookupDone options clean path scanned sp s)
   <= potential s)%nat.
Proof.
  unfold onAudioLookupDone.
  etransitivity; [apply potential_attemptRecording|].
  unfold potential. simpl. lia.
Qed.

Lemma potential_settle id k r s :
  lookupJob id (jobs s) = Some (JTimeline k) ->
  (potential (settle k r (removeJob id s)) <= potential s)%nat.
Proof.
  intros H. pose proof (countTimeline_remove id (jobs s) k H) as Hc.
  unfold settle, sendCompleted, removeJob, potential in *.
  destruct k, r; simpl; try destruct (mainWindow s); simpl;
    rewrite ?countSuccess_app; simpl; lia.
Qed.

Lemma potential_stopRecording s :
  (potential (fst (stopRecording s)) <= potential s)%nat.
Proof.
  unfold stopRecording, sendStop, setTimeout, addJob, killProcess, updProc.
  by_cases s.
Qed.

Lemma potential_fold {A} (f : State -> A -> State) (l : list A) :
  (forall s a, (potential (f s a) <= potential s)%nat) ->
  forall s, (potential (fold_left f l s) <= potential s)%nat.
Proof.
  intros Hf. induction l as [|a l IH]; intros s; simpl; [lia|].
  etransitivity; [apply IH|apply Hf].
Qed.

(** No handler other than an accepted [startRecording] raises the
    potential. *)
Lemma potential_step (s : State) (e : Event) :
  isStart e = false -> (potential (step s e) <= potential s)%nat.
Proof.
  destruct e; simpl; try discriminate; intros _.
  - destruct (0 <=? dt); [|lia]. unfold potential. simpl. lia.
  - apply potential_stopRecording.
  - destruct (lookupJob id (jobs s)) as [[deadline t| | |]|]; try lia.
    destruct (deadline <=? now s); [|lia].
    etransitivity; [|apply (potential_removeJob id s)].
    destruct t; simpl.
    + apply potential_attemptRecording.
    + apply potential_onStdinGraceTimeout.
    + apply potential_onProcessOBSTimeout.
    + apply potential_onForceKillTimeout.
  - destruct (lookupJob id (jobs s)) as [[| k | |]|] eqn:E; try lia.
    apply (potential_settle id k r s E).
  - destruct (lookupJob id (jobs s)) as [[| | c |]|]; try lia.
    etransitivity; [apply potential_onTaskkillDone|].
    apply potential_removeJob.
  - destruct (lookupJob id (jobs s)) as [[| | |o c p]|]; try lia.
    etransitivity; [apply potential_onAudioLookupDone|].
    apply potential_removeJob.
  - destruct (procs s !! p) as [pr|]; [|lia].
    destruct (exited pr); [lia|].
    etransitivity.
    + apply potential_fold. intros s0 h. destruct h; simpl.
      * apply potential_onCloseAudio.
      * apply potential_onCloseAttempt.
      * apply potential_onCloseScreen.
      * apply potential_onCloseObs.
    + unfold potential, updProc. simpl. lia.
  - destruct (procs s !! p) as [pr|]; [|lia].
    apply potential_fold. intros s0 h. destruct h; simpl.
    + apply potential_onErrorAttempt.
    + apply potential_onErrorScreen.
  - destruct (procs s !! p) as [pr|]; [|lia].
    apply potential_fold. intros s0 h. destruct h; simpl; [|lia].
    apply potential_onStderrAttempt.
Qed.

Lemma potential_run (evs : list Event) :
  forallb (fun e => negb (isStart e)) evs = true ->
  forall s, (potential (run evs s) <= potential s)%nat.
Proof.
  unfold run. induction evs as [|e evs IH]; simpl; intros H s; [lia|].
  apply andb_true_iff in H as [He Hevs].
  etransitivity; [apply (IH Hevs)|].
  apply potential_step. destruct (isStart e); [discriminate|reflexivity].
Qed.

Lemma potential_startRecording options env s :
  (potential (fst (startRecording options env s))
   <= countSuccess (sent s) + countTimeline (jobs s) + 1)%nat.
Proof.
  unfold startRecording, spawn, updProc, addJob.
  destruct (isRecording s); [unfold potential; simpl|];
    repeat (simpl;
            match goal with
            | |- context [if ?b then _ else _] => destruct b eqn:?
            | |- context [match ?b with _ => _ end] => destruct b eqn:?
            end);
    unfold potential; simpl; rewrite ?countTimeline_app; simpl; lia.
Qed.

(** Preservation of the guard by each handler. *)
Ltac guard_cases Ht :=
  repeat (simpl; rewrite ?Ht; simpl;
          match goal with
          | |- context [if ?b then _ else _] => destruct b eqn:?
          | |- context [match ?b with _ => _ end] => destruct b eqn:?
          end);
  simpl; rewrite ?Ht; try reflexivity.

Lemma guard_fold {A} (f : State -> A -> State) (l : list A) :
  (forall s a, timelineAdded s = true -> timelineAdded (f s a) = true) ->
  forall s, timelineAdded s = true -> timelineAdded (fold_left f l s) = true.
Proof.
  intros Hf. induction l as [|a l IH]; intros s H; simpl; [exact H|].
  apply IH, Hf, H.
Qed.

(** Only [startRecording] resets the guard. *)
Lemma guard_step (s : State) (e : Event) :
  isStart e = false ->
  timelineAdded s = true -> timelineAdded (step s e) = true.
Proof.
  intros He Ht. destruct e; simpl in *; try discriminate.
  - destruct (0 <=? dt); simpl; assumption.
  - unfold stopRecording, sendStop, setTimeout, addJob, killProcess, updProc.
    guard_cases Ht.
  - destruct (lookupJob id (jobs s)) as [[deadline t| | |]|]; try assumption.
    destruct (deadline <=? now s); [|assumption].
    assert (Hr : timelineAdded (removeJob id s) = true) by exact Ht.
    revert Hr. generalize (removeJob id s). intros s0 Hr.
    destruct t; simpl.
    + unfold attemptRecording, spawn, updProc, updLadder, sendCompleted,
        resetRecording. guard_cases Hr.
    + unfold onStdinGraceTimeout, addJob. guard_cases Hr.
    + unfold onProcessOBSTimeout, fireTimeline, awaitTimeline,
        addJob, sendCompleted. guard_cases Hr.
    + unfold onForceKillTimeout, resetAll, killProcess, updProc.
      guard_cases Hr.
  - destruct (lookupJob id (jobs s)) as [[| k | |]|]; try assumption.
    unfold settle, sendCompleted, removeJob. destruct k, r; guard_cases Ht.
  - destruct (lookupJob id (jobs s)) as [[| | c |]|]; try assumption.
    unfold onTaskkillDone, handleSuccessfulOBSKill, processOBSRecording,
      killCurrent, killProcess, updProc, clearTimeout, removeJob, setTimeout,
      addJob, resetAll.
    guard_cases Ht.
  - destruct (lookupJob id (jobs s)) as [[| | |o c p]|]; try assumption.
    unfold onAudioLookupDone, attemptRecording, spawn, updProc, updLadder,
      sendCompleted, resetRecording, removeJob.
    guard_cases Ht.
  - destruct (procs s !! p) as [pr|]; [|assumption].
    destruct (exited pr); [assumption|].
    apply guard_fold; [|exact Ht].
    intros s0 h H0. destruct h; simpl.
    + unfold onCloseAudio, fireTimeline, awaitTimeline, addJob,
        resetRecording. guard_cases H0.
    + unfold onCloseAttempt, fireTimeline, awaitTimeline, setTimeout,
        addJob, sendCompleted, resetRecording, updLadder. guard_cases H0.
    + unfold onCloseScreen, fireTimeline, awaitTimeline, addJob,
        sendCompleted, resetRecording. guard_cases H0.
    + unfold onCloseObs, processOBSRecording, setTimeout, addJob, resetAll.
      guard_cases H0.
  - destruct (procs s !! p) as [pr|]; [|assumption].
    apply guard_fold; [|exact Ht].
    intros s0 h H0. destruct h; simpl.
    + unfold onErrorAttempt, setTimeout, addJob, updLadder, sendCompleted,
        resetRecording. guard_cases H0.
    + unfold onErrorScreen, sendCompleted, resetRecording. guard_cases H0.
  - destruct (procs s !! p) as [pr|]; [|assumption].
    apply guard_fold; [|exact Ht].
    intros s0 h H0. destruct h; simpl; [|assumption].
    unfold onStderrAttempt, updLadder. guard_cases H0.
Qed.

(** C1 (as the code has it): within one recording session -- from a
    [startRecording] call, which resets the guard [timelineAdded], up to
    the next one -- at most one success completion is delivered, whatever
    events (close, error, timers, stops, collaborator answers) follow and
    in whatever order: the first trigger that finds the guard unset sets
    it and issues the single timeline call; no later trigger unsets the
    guard, and while it is set no trigger adds a success completion or a
    timeline call.  Failure completions are outside this guard. *)
Theorem at_most_one_success_completion (options : Options) (env : StartEnv)
    (evs : list Event) (s : State) :
  countTimeline (jobs s) = 0%nat ->
  forallb (fun e => negb (isStart e)) evs = true ->
  let s1 := run evs (fst (startRecording options env s)) in
  (countSuccess (sent s1) <= countSuccess (sent s) + 1)%nat /\
  (forall e, isStart e = false -> timelineAdded s1 = true ->
     timelineAdded (step s1 e) = true /\
     (countSuccess (sent (step s1 e)) + countTimeline (jobs (step s1 e))
      <= countSuccess (sent s1) + countTimeline (jobs s1))%nat).
Proof.
  intros Hjobs Hevs s1. split.
  - pose proof (potential_run evs Hevs (fst (startRecording options env s))).
    pose proof (potential_startRecording options env s).
    fold s1 in H. unfold potential in H at 1. lia.
  - intros e He Ht. split; [exact (guard_step s1 e He Ht)|].
    pose proof (potential_step s1 e He) as H.
    pose proof (guard_step s1 e He Ht) as Ht'.
    unfold potential in H. rewrite Ht, Ht' in H. lia.
Qed.

Lemma at_most_one_success_completion_witness :
  let s1 :=
    run stoppedCameraWithFile
        (fst (startRecording (cameraOptions "USB Camera")
                (sampleEnv "2024-05-01T10-00-00" shellProcess)
                sampleInitial)) in
  (countSuccess (sent s1) <= 1)%nat /\
  sent s1 =
    [{| success := true; filePath := Some samplePath;
        timelineResult := Some failedTimeline; error := None;
        warning := Some "Camera recording stopped by user" |}].
Proof.
  split.
  - exact (proj1 (at_most_one_success_completion
                    (cameraOptions "USB Camera")
                    (sampleEnv "2024-05-01T10-00-00" shellProcess)
                    stoppedCameraWithFile sampleInitial
                    eq_refl eq_refl)).
  - vm_compute. reflexivity.
Defined.

(** C1 as stated fails: in the same session, with no file written, the
    close event makes the camera close handler send a failure completion
    and the close listener added by [stopRecording] send a second one
    500 ms later; and with a 500-byte file the caller receives a success
    completion followed by a failure completion.  The guard suppresses
    none of the failures. *)
Lemma at_most_one_completion_counterexample :
  let started :=
    fst (startRecording (cameraOptions "USB Camera")
           (sampleEnv "2024-05-01T10-00-00" shellProcess) sampleInitial) in
  forallb (fun e => negb (isStart e)) stoppedCameraNoFile = true /\
  sent (run stoppedCameraNoFile started) =
    [failure None "Camera recording stopped but no valid file created";
     failure None "OBS Virtual Camera recording stopped but no file was created"] /\
  forallb (fun e => negb (isStart e)) stoppedCameraSmallFile = true /\
  sent (run stoppedCameraSmallFile started) =
    [{| success := true; filePath := Some samplePath;
        timelineResult := Some failedTimeline; error := None;
        warning := None |};
     failure None
       "OBS Virtual Camera recording stopped but file is invalid or empty"].
Proof. vm_compute. repeat split; reflexivity. Qed.

(** ** Stopping *)

Lemma countForceKill_app (js : list (nat * Job)) (i : nat) (j : Job) :
  countForceKill (js ++ [(i, j)]) =
  (countForceKill js + (if isForceKill j then 1 else 0))%nat.
Proof. induction js; simpl; lia. Qed.

(** The stop actions touch neither the recording flag, the handle, the
    clock nor the messages sent, and arm no force-kill timer. *)
Lemma sendStop_frame (p : nat) (pr : Proc) (s : State) :
  sent (sendStop p pr s) = sent s /\
  isRecording (sendStop p pr s) = isRecording s /\
  recordingProcess (sendStop p pr s) = recordingProcess s /\
  now (sendStop p pr s) = now s /\
  length (procs (sendStop p pr s)) = length (procs s) /\
  countForceKill (jobs (sendStop p pr s)) = countForceKill (jobs s) /\
  (nextJob s <= nextJob (sendStop p pr s))%nat.
Proof.
  unfold sendStop, setTimeout, addJob, killProcess, updProc.
  destruct (isShellProcess pr && pidTruthy (pid pr)),
    (stdinAvailable pr), (stdinWriteThrows pr); simpl;
    rewrite ?length_alter, ?countForceKill_app; simpl;
    repeat split; lia.
Qed.

Lemma stop_accepted (s : State) :
  snd (stopRecording s) = StopOk ->
  exists p pr,
    recordingProcess s = Some p /\ procs s !! p = Some pr /\
    isRecording s = true /\
    fst (stopRecording s) =
      set_forceKillTimeout (Some (nextJob (sendStop p pr s)))
        (fst (setTimeout TForceKill 3000 (sendStop p pr s))).
Proof.
  unfold stopRecording.
  destruct (recordingProcess s) as [p|]; [|discriminate].
  destruct (procs s !! p) as [pr|] eqn:Hpr; [|discriminate].
  destruct (isRecording s); [|discriminate].
  intros _. exists p, pr. split; [reflexivity|]. split; [exact Hpr|].
  split; reflexivity.
Qed.

(** *** A second stop and the close that follows *)












(** An accepted stop arms the force-kill timer three seconds ahead and
    stores its handle in [stopRecording.forceKillTimeout]. *)
Lemma stop_arms_force_kill (s : State) :
  snd (stopRecording s) = StopOk ->
  exists id rest,
    forceKillTimeout (fst (stopRecording s)) = Some id /\
    jobs (fst (stopRecording s)) =
      rest ++ [(id, JTimer (now s + 3000) TForceKill)].
Proof.
  intros Hok. destruct (stop_accepted s Hok) as (p & pr & _ & _ & _ & ->).
  destruct (sendStop_frame p pr s) as (_ & _ & _ & Hnow & _).
  exists (nextJob (sendStop p pr s)), (jobs (sendStop p pr s)).
  simpl. rewrite Hnow. split; reflexivity.
Qed.

(** When the timer fires on a handle that is still set and was not yet
    signalled through [kill], the process gets [SIGKILL] and the recording
    state is reset. *)
Lemma force_kill_fires (s : State) (p : nat) (pr : Proc) :
  recordingProcess s = Some p ->
  procs s !! p = Some pr ->
  killed pr = false ->
  onForceKillTimeout s = resetAll (killProcess p "SIGKILL" s).
Proof.
  intros Hp Hpr Hk. unfold onForceKillTimeout. rewrite Hp, Hpr, Hk.
  reflexivity.
Qed.

Lemma countForceKill_fold {A} (f : State -> A -> State) (l : list A) :
  (forall s a, countForceKill (jobs (f s a)) = countForceKill (jobs s)) ->
  forall s, countForceKill (jobs (fold_left f l s)) = countForceKill (jobs s).
Proof.
  intros Hf. induction l as [|a l IH]; intros s; simpl; [reflexivity|].
  rewrite IH. apply Hf.
Qed.

(** No close handler cancels a force-kill timer: every one that was
    pending when the process closed is still pending afterwards. *)
Lemma close_keeps_force_kill (s : State) (p : nat) (code : option Z)
    (signal : option string) (fs : Fs) :
  countForceKill (jobs (step s (EvClose p code signal fs))) =
  countForceKill (jobs s).
Proof.
  simpl. destruct (procs s !! p) as [pr|]; [|reflexivity].
  destruct (exited pr); [reflexivity|].
  rewrite countForceKill_fold; [reflexivity|].
  intros s0 h. destruct h; simpl;
    unfold onCloseAudio, onCloseAttempt, onCloseScreen, onCloseObs,
      processOBSRecording, fireTimeline, awaitTimeline, setTimeout, addJob,
      sendCompleted, resetRecording, resetAll, updLadder, failure;
    repeat (simpl;
            match goal with
            | |- context [if ?b then _ else _] => destruct b eqn:?
            | |- context [match ?b with _ => _ end] => destruct b eqn:?
            end);
    simpl; rewrite ?countForceKill_app; simpl; lia.
Qed.

(** C5: the timer armed by a stop is not cancelled by the clean exit of
    the process.  In [staleForceKill] the first recording's timer is still
    pending after its process has closed and after the second recording
    has started; when it fires at its deadline it finds the second
    recording's handle in [recordingProcess], sends it [SIGKILL] and
    resets the recording state of the new session. *)
Theorem force_kill_hits_next_recording :
  let before := run staleForceKill sampleInitial in
  let after := step before (EvTimer 0 [] directProcess) in
  lookupJob 0 (jobs before) = Some (JTimer 3000 TForceKill) /\
  now before = 3000 /\
  map exited (procs before) = [true; false] /\
  isRecording before = true /\
  recordingProcess before = Some 1%nat /\
  map signals (procs before) = [[]; []] /\
  map signals (procs after) = [[]; ["SIGKILL"]] /\
  isRecording after = false /\
  recordingProcess after = None /\
  currentRecordingPath after = None.
Proof. vm_compute. repeat split; reflexivity. Qed.

(** ** The renderer log *)

Lemma append_assoc (a b c : string) : (a +:+ b) +:+ c = a +:+ (b +:+ c).
Proof. induction a as [|d a IH]; strs; [reflexivity|]. rewrite IH. reflexivity. Qed.

Lemma replaceAll_app (c : ascii) (rep a b : string) :
  replaceAll c rep (a +:+ b) = replaceAll c rep a +:+ replaceAll c rep b.
Proof.
  induction a as [|d a IH]; strs; simpl; [reflexivity|].
  rewrite IH. destruct (Ascii.eqb d c); strs; [|reflexivity]. symmetry.
  apply append_assoc.
Qed.

Lemma escapeBackslashes_app (a b : string) :
  escapeBackslashes (a +:+ b) = escapeBackslashes a +:+ escapeBackslashes b.
Proof.
  induction a as [|d a IH]; strs; simpl; [reflexivity|].
  rewrite IH. destruct (nat_of_ascii d =? 92)%nat; reflexivity.
Qed.

Lemma escapedMessage_app (a b : string) :
  escapedMessage (a +:+ b) = escapedMessage a +:+ escapedMessage b.
Proof.
  unfold escapedMessage.
  rewrite escapeBackslashes_app, !replaceAll_app. reflexivity.
Qed.

Lemma escapedMessage_round_trip (message rest : string) :
  readLiteral (escapedMessage message +:+ "'" +:+ rest) = Some (message, rest).
Proof.
  induction message as [|c m IH].
  - reflexivity.
  - change (String c m) with (String c "" +:+ m).
    rewrite escapedMessage_app, append_assoc.
    repeat (rewrite append_nil_l in * || rewrite append_cons in * ).
    destruct c as [[] [] [] [] [] [] [] []];
      vm_compute escapedMessage at 1;
      repeat (rewrite append_nil_l || rewrite append_cons);
      simpl; rewrite IH; reflexivity.
Qed.

(** X1: the text [debugLog] puts between single quotes in the script it
    hands to [executeJavaScript] is a well-formed string literal whose
    value is the message itself: no quote, backslash or line break of the
    message ends or breaks the literal, whatever follows it; in the script
    the literal is followed by the closing of the [console.log] call. *)
Theorem debugLog_literal_round_trip (message : string) :
  (forall rest,
     readLiteral (escapedMessage message +:+ "'" +:+ rest)
     = Some (message, rest)) /\
  exists literal,
    debugLogScript message =
      "console.log('%cMAIN:', 'color: #800', '" +:+ literal /\
    readLiteral literal = Some (message, ");").
Proof.
  split; [intros rest; apply escapedMessage_round_trip|].
  exists (escapedMessage message +:+ "');"). split; [reflexivity|].
  apply (escapedMessage_round_trip message ");").
Qed.

(** ** Input validation *)

Lemma result_valid (errs : list string) :
  valid (Validator.result errs) = true <-> errs = [].
Proof. destruct errs; simpl; split; congruence. Qed.

Lemma check_nil (b : bool) (msg : string) :
  Validator.check b msg = [] <-> b = false.
Proof. destruct b; simpl; split; congruence. Qed.

Lemma check_In (b : bool) (msg m : string) :
  In m (Validator.check b msg) -> m = msg /\ b = true.
Proof. destruct b; simpl; [intros [<-|[]]; auto|tauto]. Qed.

Lemma length_append (a b : string) :
  String.length (a +:+ b) = (String.length a + String.length b)%nat.
Proof. induction a; strs; simpl; [reflexivity|]. rewrite IHa. reflexivity. Qed.

Lemma drop_chars_append (a b : string) :
  drop_chars (String.length a) (a +:+ b) = b.
Proof. induction a; strs; simpl; [reflexivity|assumption]. Qed.

Lemma endsWith_append (a suffix : string) :
  endsWith (a +:+ suffix) suffix = true.
Proof.
  unfold endsWith. rewrite length_append.
  replace (String.length a + String.length suffix - String.length suffix)%nat
    with (String.length a) by lia.
  rewrite drop_chars_append, String.eqb_refl, andb_true_r.
  apply Nat.leb_le. lia.
Qed.

Lemma toLowerCase_append (a b : string) :
  toLowerCase (a +:+ b) = toLowerCase a +:+ toLowerCase b.
Proof. induction a; strs; simpl; [reflexivity|]. rewrite IHa. reflexivity. Qed.

Lemma hasInvalid_append (a b : string) :
  Validator.hasInvalid (a +:+ b) =
  Validator.hasInvalid a || Validator.hasInvalid b.
Proof.
  induction a; strs; simpl; [reflexivity|]. rewrite IHa. apply orb_assoc.
Qed.

Lemma includes_colon_invalid (s : string) :
  includes s ":" = true -> Validator.hasInvalid s = true.
Proof.
  induction s as [|c s IH]; [discriminate|].
  rewrite includes_unfold. intros H. simpl.
  apply orb_true_iff in H as [H|H].
  - cbn [String.prefix] in H.
    destruct (Ascii.ascii_dec ":" c) as [<-|]; [reflexivity|discriminate].
  - rewrite (IH H). apply orb_true_r.
Qed.

(** X2: for every output path [startRecording] generates, the extension
    check of [validateFilePath] passes, and the path is rejected for its
    characters whenever the recordings directory contains a colon, as every
    path with a drive letter does. *)
Theorem validateFilePath_on_output_paths (s : State) (env : StartEnv) :
  let v := Validator.validateFilePath (Some (outputPathOf s env)) in
  ~ In "File must have .mp4 extension" (errors v) /\
  (includes (RECORDINGS_DIR s) ":" = true ->
   valid v = false /\ In "File path contains invalid characters" (errors v)).
Proof.
  set (p := outputPathOf s env).
  assert (Hne : truthy (Some p) = true).
  { unfold p, outputPathOf, path_join, backslash. simpl.
    destruct (RECORDINGS_DIR s); reflexivity. }
  assert (Hext : endsWith (toLowerCase p) ".mp4" = true).
  { unfold p, outputPathOf, path_join.
    rewrite !toLowerCase_append, <- !append_assoc.
    apply (endsWith_append _ ".mp4"). }
  cbv zeta. unfold Validator.validateFilePath. rewrite Hne. cbn [negb].
  assert (Hp : orDefault (Some p) "" = p).
  { simpl. simpl in Hne. destruct (String.eqb p ""); [discriminate|reflexivity]. }
  rewrite Hp, Hext. cbn [negb Validator.check].
  split.
  - intros H. simpl in H. rewrite !in_app_iff in H.
    destruct H as [H|[H|H]]; apply check_In in H as [H _]; discriminate H.
  - intros Hc.
    assert (Hinv : Validator.hasInvalid p = true).
    { unfold p, outputPathOf, path_join.
      rewrite hasInvalid_append, (includes_colon_invalid _ Hc). reflexivity. }
    rewrite Hinv. simpl. split; [reflexivity|left; reflexivity].
Qed.

Lemma length_take_chars (n : nat) (s : string) :
  (String.length (Validator.take_chars n s) <= n)%nat.
Proof.
  revert s. induction n as [|n IH]; intros [|c s]; simpl; try lia.
  specialize (IH s). lia.
Qed.

Lemma length_normalizeWhitespace (s : string) :
  (String.length (Validator.normalizeWhitespace s) <= String.length s)%nat.
Proof.
  induction s as [|c s IH]; simpl; [lia|].
  destruct (is_space c); [destruct (startsWithSpace s)|]; simpl; lia.
Qed.

Lemma hasInvalid_removeInvalid (s : string) :
  Validator.hasInvalid (Validator.removeInvalid s) = false.
Proof.
  induction s as [|c s IH]; simpl; [reflexivity|].
  destruct (Validator.is_invalid c) eqn:E; [assumption|].
  simpl. rewrite E, IH. reflexivity.
Qed.

Lemma hasInvalid_take_chars (n : nat) (s : string) :
  Validator.hasInvalid s = false ->
  Validator.hasInvalid (Validator.take_chars n s) = false.
Proof.
  revert s. induction n as [|n IH]; intros [|c s]; simpl; try reflexivity.
  intros H. apply orb_false_iff in H as [-> H]. apply (IH s H).
Qed.

Lemma hasInvalid_normalizeWhitespace (s : string) :
  Validator.hasInvalid s = false ->
  Validator.hasInvalid (Validator.normalizeWhitespace s) = false.
Proof.
  induction s as [|c s IH]; simpl; [reflexivity|].
  intros H. apply orb_false_iff in H as [Hc H].
  destruct (is_space c); [destruct (startsWithSpace s)|]; simpl;
    rewrite ?Hc, (IH H); reflexivity.
Qed.

Lemma startsWithSpace_normalizeWhitespace (s : string) :
  startsWithSpace (Validator.normalizeWhitespace s) = startsWithSpace s.
Proof.
  induction s as [|c s IH]; [reflexivity|].
  cbn [Validator.normalizeWhitespace startsWithSpace].
  destruct (is_space c) eqn:E; [|exact E].
  destruct (startsWithSpace s) eqn:F; [|reflexivity].
  exact IH.
Qed.

Lemma singleSpaced_normalizeWhitespace (s : string) :
  singleSpaced (Validator.normalizeWhitespace s) = true.
Proof.
  induction s as [|c s IH]; [reflexivity|].
  cbn [Validator.normalizeWhitespace].
  destruct (is_space c) eqn:E.
  - destruct (startsWithSpace s) eqn:F; [assumption|].
    cbn [singleSpaced].
    rewrite startsWithSpace_normalizeWhitespace, F, IH. reflexivity.
  - cbn [singleSpaced]. rewrite E, IH. reflexivity.
Qed.

(** X3: whatever the input, [sanitizeString] returns at most [maxLength]
    characters, none of them one of the rejected characters, and with
    every run of white space reduced to a single space. *)
Theorem sanitizeString_clean (input : option string) (maxLength : Z) :
  let out := Validator.sanitizeString input maxLength in
  (Z.of_nat (String.length out) <= Z.max 0 maxLength) /\
  Validator.hasInvalid out = false /\
  singleSpaced out = true.
Proof.
  cbv zeta. unfold Validator.sanitizeString.
  destruct (truthy input); cbn [negb].
  2: { simpl. repeat split; try reflexivity. lia. }
  unfold Validator.substring0. repeat split.
  - pose proof (length_normalizeWhitespace
                  (Validator.take_chars (Z.to_nat maxLength)
                     (Validator.removeInvalid (trim (orDefault input ""))))).
    pose proof (length_take_chars (Z.to_nat maxLength)
                  (Validator.removeInvalid (trim (orDefault input "")))).
    lia.
  - apply hasInvalid_normalizeWhitespace, hasInvalid_take_chars,
      hasInvalid_removeInvalid.
  - apply singleSpaced_normalizeWhitespace.
Qed.

(** *** Numbers and their decimal notation *)

Lemma digitIn_pretty_N_char (d : N) :
  (d < 10)%N ->
  Validator.digitIn 10 (pretty_N_char d) = Some (Z.of_N d) /\
  Validator.is_digit (pretty_N_char d) = true.
Proof.
  intros H.
  assert (d = 0 \/ d = 1 \/ d = 2 \/ d = 3 \/ d = 4 \/ d = 5 \/ d = 6 \/
          d = 7 \/ d = 8 \/ d = 9)%N as Hd by lia.
  repeat destruct Hd as [->|Hd]; try subst d; split; reflexivity.
Qed.

Lemma digits_append (acc : Z) (a b : string) :
  Validator.allDigits a = true ->
  Validator.digits 10 acc (a +:+ b) =
  Validator.digits 10 (Validator.digits 10 acc a) b.
Proof.
  revert acc. induction a as [|c a IH]; intros acc H; strs; [reflexivity|].
  simpl in H. apply andb_true_iff in H as [Hc Ha].
  cbn [Validator.digits].
  destruct (Validator.digitIn 10 c) eqn:E.
  - apply IH, Ha.
  - exfalso. unfold Validator.is_digit in Hc. unfold Validator.digitIn in E.
    apply andb_true_iff in Hc as [H1 H2].
    apply Nat.leb_le in H1. apply Nat.leb_le in H2.
    destruct (Z.leb_spec 48 (Z.of_nat (nat_of_ascii c))); [|lia].
    destruct (Z.leb_spec (Z.of_nat (nat_of_ascii c)) 57); [|lia].
    discriminate E.
Qed.

Lemma allDigits_append (a b : string) :
  Validator.allDigits (a +:+ b) =
  Validator.allDigits a && Validator.allDigits b.
Proof.
  induction a; strs; simpl; [reflexivity|]. rewrite IHa. apply andb_assoc.
Qed.

(** The decimal notation of a positive number: a non-empty run of digits
    that reads back as the number. *)
Lemma pretty_N_go_digits (x : N) :
  (0 < x)%N ->
  exists D,
    D <> "" /\ Validator.allDigits D = true /\
    (forall s, pretty_N_go x s = D +:+ s) /\
    (forall acc, Validator.digits 10 acc D =
                 acc * 10 ^ Z.of_nat (String.length D) + Z.of_N x).
Proof.
  induction (N.lt_wf_0 x) as [x _ IH]. intros Hx.
  assert (Hm : (x `mod` 10 < 10)%N) by (apply N.mod_lt; lia).
  destruct (digitIn_pretty_N_char _ Hm) as [Hv Hd].
  destruct (N.eq_0_gt_0_cases (x `div` 10)%N) as [Hz|Hp].
  - exists (String (pretty_N_char (x `mod` 10)) "").
    split; [discriminate|]. split; [simpl; rewrite Hd; reflexivity|].
    split.
    + intros s. rewrite pretty_N_go_step by assumption.
      rewrite Hz, pretty_N_go_0. reflexivity.
    + intros acc. cbn [Validator.digits String.length]. rewrite Hv.
      pose proof (N.div_mod x 10). change (10 ^ Z.of_nat 1) with 10. lia.
  - destruct (IH (x `div` 10)%N) as (D & Hne & Hall & Hgo & Hval);
      [apply N.div_lt; lia|assumption|].
    exists (D +:+ String (pretty_N_char (x `mod` 10)) "").
    split; [destruct D; [congruence|discriminate]|].
    split; [rewrite allDigits_append, Hall; simpl; rewrite Hd; reflexivity|].
    split.
    + intros s. rewrite pretty_N_go_step by assumption.
      rewrite Hgo, append_assoc. reflexivity.
    + intros acc. rewrite (digits_append _ _ _ Hall), Hval.
      cbn [Validator.digits]. rewrite Hv, length_append.
      cbn [String.length]. rewrite Nat2Z.inj_add, Z.pow_add_r by lia.
      change (10 ^ Z.of_nat 1) with 10.
      pose proof (N.div_mod x 10).
      rewrite N2Z.inj_div. rewrite (Z.div_mod (Z.of_N x) 10) at 2 by lia.
      rewrite N2Z.inj_mod. change (Z.of_N 10) with 10. ring.
Qed.

Lemma pretty_Z_digits (n : Z) :
  0 < n ->
  exists D,
    D <> "" /\ Validator.allDigits D = true /\ pretty n = D /\
    Validator.digits 10 0 D = n.
Proof.
  destruct n as [|p|p]; try lia. intros _.
  destruct (pretty_N_go_digits (Npos p)) as (D & Hne & Hall & Hgo & Hval);
    [lia|].
  exists D. repeat split; try assumption.
  - unfold pretty, pretty_Z, pretty, pretty_positive, pretty, pretty_N.
    destruct (decide (N.pos p = 0%N)); [discriminate|].
    rewrite Hgo. clear. induction D; strs; [reflexivity|]. rewrite IHD at 1.
    reflexivity.
  - rewrite Hval. simpl. reflexivity.
Qed.

Lemma digits_stop (acc : Z) (t : string) :
  Validator.startsWithDigit 10 t = false -> Validator.digits 10 acc t = acc.
Proof.
  destruct t as [|c t]; [reflexivity|]. simpl.
  destruct (Validator.digitIn 10 c); [discriminate|reflexivity].
Qed.

Lemma is_digit_digitIn (c : ascii) :
  Validator.is_digit c = true -> exists d, Validator.digitIn 10 c = Some d.
Proof.
  unfold Validator.is_digit, Validator.digitIn. intros H.
  apply andb_true_iff in H as [H1 H2].
  apply Nat.leb_le in H1. apply Nat.leb_le in H2.
  destruct (Z.leb_spec 48 (Z.of_nat (nat_of_ascii c))); [|lia].
  destruct (Z.leb_spec (Z.of_nat (nat_of_ascii c)) 57); [|lia].
  eexists. reflexivity.
Qed.

Lemma digitIn_is_digit (c : ascii) :
  Validator.digitIn 10 c = None -> Validator.is_digit c = false.
Proof.
  destruct (Validator.is_digit c) eqn:E; [|reflexivity].
  destruct (is_digit_digitIn c E) as [d ->]. discriminate.
Qed.

(** [parseInt] reads a run of digits up to the first character that is
    not a digit. *)
Lemma parseInt_digits (D t : string) :
  D <> "" -> Validator.allDigits D = true ->
  startsWith_x_or_digit t = false ->
  Validator.parseInt (D +:+ t) = Some (Validator.digits 10 0 D).
Proof.
  intros Hne Hall Ht.
  destruct D as [|c D]; [congruence|]. strs.
  simpl in Hall. apply andb_true_iff in Hall as [Hc Hall].
  assert (Hc' := Hc). unfold Validator.is_digit in Hc'.
  apply andb_true_iff in Hc' as [H1 H2].
  apply Nat.leb_le in H1. apply Nat.leb_le in H2.
  assert (Ht' : Validator.startsWithDigit 10 t = false).
  { destruct t as [|e t]; [reflexivity|]. simpl in *.
    apply orb_false_iff in Ht as [Ht _].
    destruct (Validator.digitIn 10 e) eqn:E; [|reflexivity].
    destruct (Validator.is_digit e) eqn:F; [discriminate|].
    unfold Validator.is_digit in F. unfold Validator.digitIn in E.
    simpl in E.
    destruct (Z.leb_spec 48 (Z.of_nat (nat_of_ascii e)));
      destruct (Z.leb_spec (Z.of_nat (nat_of_ascii e)) 57);
      simpl in E; try discriminate E.
    apply andb_false_iff in F as [F|F]; apply Nat.leb_gt in F; lia. }
  unfold Validator.parseInt.
  assert (Hsp : is_space c = false).
  { unfold is_space.
    destruct (Nat.leb_spec 9 (nat_of_ascii c));
      destruct (Nat.leb_spec (nat_of_ascii c) 13);
      destruct (Nat.eqb_spec (nat_of_ascii c) 32);
      destruct (Nat.eqb_spec (nat_of_ascii c) 160); try reflexivity; lia. }
  cbn [trimStart]. rewrite Hsp.
  destruct (Nat.eqb_spec (nat_of_ascii c) 45); [lia|].
  destruct (Nat.eqb_spec (nat_of_ascii c) 43); [lia|].
  assert (Hrad :
    match D +:+ t with
    | String d r =>
        if (nat_of_ascii c =? 48)%nat &&
           ((nat_of_ascii d =? 120) || (nat_of_ascii d =? 88))%nat
        then (16, r) else (10, String c (D +:+ t))
    | EmptyString => (10, String c (D +:+ t))
    end = (10, String c (D +:+ t))).
  { destruct D as [|d D]; strs.
    - destruct t as [|e t]; [reflexivity|]. simpl in Ht.
      apply orb_false_iff in Ht as [_ ->]. rewrite andb_false_r. reflexivity.
    - simpl in Hall. apply andb_true_iff in Hall as [Hd _].
      unfold Validator.is_digit in Hd.
      apply andb_true_iff in Hd as [H3 H4].
      apply Nat.leb_le in H3. apply Nat.leb_le in H4.
      destruct (Nat.eqb_spec (nat_of_ascii d) 120); [lia|].
      destruct (Nat.eqb_spec (nat_of_ascii d) 88); [lia|].
      rewrite andb_false_r. reflexivity. }
  destruct (D +:+ t) as [|d r] eqn:E.
  - destruct (is_digit_digitIn c Hc) as [v Hv]. simpl. rewrite Hv.
    destruct D; strs; [|discriminate E]. simpl. rewrite ?Hv.
    f_equal. lia.
  - rewrite Hrad, <- E. clear Hrad.
    destruct (is_digit_digitIn c Hc) as [v Hv].
    cbn [Validator.startsWithDigit]. rewrite Hv.
    change (String c (D +:+ t)) with (String c D +:+ t).
    rewrite digits_append by (simpl; rewrite Hc, Hall; reflexivity).
    rewrite digits_stop by assumption. f_equal. lia.
Qed.

Lemma parseInt_pretty (n : Z) (t : string) :
  0 < n -> startsWith_x_or_digit t = false ->
  Validator.parseInt (pretty n +:+ t) = Some n.
Proof.
  intros Hn Ht.
  destruct (pretty_Z_digits n Hn) as (D & Hne & Hall & -> & Hval).
  rewrite (parseInt_digits D t Hne Hall Ht), Hval. reflexivity.
Qed.

(** *** Resolutions *)

Ltac norm_str :=
  repeat (rewrite append_nil_l in * || rewrite append_cons in * ).

Lemma is_digit_not_x (c : ascii) :
  Validator.is_digit c = true -> Ascii.eqb c "x" = false.
Proof.
  intros H. destruct (Ascii.eqb_spec c "x") as [->|]; [discriminate|reflexivity].
Qed.

Lemma dropDigits_spec (s : string) :
  exists w, s = w +:+ Validator.dropDigits s /\ Validator.allDigits w = true.
Proof.
  induction s as [|c s (w & Hs & Hw)]; [exists ""; split; reflexivity|].
  simpl. destruct (Validator.is_digit c) eqn:E.
  - exists (String c w). strs. simpl. rewrite E, Hw, <- Hs. split; reflexivity.
  - exists "". split; reflexivity.
Qed.

Lemma split_x_digits (h : string) :
  Validator.allDigits h = true -> splitOn "x" h = [h].
Proof.
  induction h as [|c h IH]; [reflexivity|]. simpl. intros H.
  apply andb_true_iff in H as [Hc Hh].
  rewrite (is_digit_not_x c Hc), (IH Hh). reflexivity.
Qed.

Lemma split_x_append (w h : string) :
  Validator.allDigits w = true -> Validator.allDigits h = true ->
  splitOn "x" (w +:+ "x" +:+ h) = [w; h].
Proof.
  intros Hw Hh. induction w as [|c w IH]; norm_str.
  - simpl. rewrite (split_x_digits h Hh). reflexivity.
  - simpl in Hw. apply andb_true_iff in Hw as [Hc Hw].
    cbn [splitOn]. rewrite (is_digit_not_x c Hc), (IH Hw).
    reflexivity.
Qed.

Lemma dropDigits_append (w r : string) :
  Validator.allDigits w = true ->
  Validator.dropDigits (w +:+ r) = Validator.dropDigits r.
Proof.
  induction w as [|c w IH]; strs; [reflexivity|]. simpl. intros H.
  apply andb_true_iff in H as [-> H]. apply IH, H.
Qed.

(** The strings matched by the resolution pattern are two non-empty runs
    of digits around one [x]. *)
Lemma resolutionPattern_spec (s : string) :
  Validator.resolutionPattern s = true <->
  exists w h, s = w +:+ "x" +:+ h /\ w <> "" /\ h <> "" /\
              Validator.allDigits w = true /\ Validator.allDigits h = true.
Proof.
  split.
  - unfold Validator.resolutionPattern.
    destruct s as [|c s]; [discriminate|]. intros H.
    apply andb_true_iff in H as [Hc H].
    destruct (dropDigits_spec (String c s)) as (w & Hs & Hw).
    destruct (Validator.dropDigits (String c s)) as [|e r]; [discriminate|].
    apply andb_true_iff in H as [He H]. apply Ascii.eqb_eq in He. subst e.
    destruct r as [|d r]; [discriminate|].
    exists w, (String d r). repeat split; try assumption; try discriminate.
    intros ->. strs. injection Hs as -> _.
    discriminate Hc.
  - intros (w & h & -> & Hw & Hh & Haw & Hah).
    unfold Validator.resolutionPattern.
    destruct w as [|c w]; [congruence|]. norm_str.
    change (String c (w +:+ String "x" h)) with (String c w +:+ (String "x" h)).
    rewrite (dropDigits_append _ _ Haw).
    simpl in Haw. apply andb_true_iff in Haw as [-> _]. simpl.
    destruct h; [congruence|]. assumption.
Qed.

(** *** Recording options *)

(** X4: [validateRecordingOptions] accepts an options object exactly
    when each of its six checks passes: a given framerate starts with a
    number from 1 to 120, a given resolution other than [desktop] is two
    runs of digits around one [x] with a width from 320 to 7680 and a
    height from 240 to 4320, a given source type and region are among the
    listed ones, a window source has a title and a camera source has a
    name. *)
Theorem validateRecordingOptions_valid (o : Validator.RecordingOptions) :
  valid (Validator.validateRecordingOptions (Some o)) = true <->
  (truthy (Validator.framerate o) = true ->
   exists n, Validator.parseInt (orDefault (Validator.framerate o) "") = Some n
             /\ 1 <= n <= 120) /\
  (truthy (Validator.resolution o) = true ->
   optIs (Validator.resolution o) "desktop" = false ->
   exists w h,
     orDefault (Validator.resolution o) "" = w +:+ "x" +:+ h /\
     Validator.allDigits w = true /\ Validator.allDigits h = true /\
     320 <= Validator.Number w <= 7680 /\
     240 <= Validator.Number h <= 4320) /\
  (truthy (Validator.sourceType o) = true ->
   Validator.oneOf Validator.validSourceTypes
     (orDefault (Validator.sourceType o) "") = true) /\
  (truthy (Validator.region o) = true ->
   Validator.oneOf Validator.validRegions
     (orDefault (Validator.region o) "") = true) /\
  (optIs (Validator.sourceType o) "window" = true ->
   truthy (Validator.windowTitle o) = true) /\
  (optIs (Validator.sourceType o) "camera" = true ->
   truthy (Validator.cameraName o) = true).
Proof.
  unfold Validator.validateRecordingOptions.
  assert (Hfr :
    (if truthy (Validator.framerate o)
     then Validator.check
            match Validator.parseInt (orDefault (Validator.framerate o) "") with
            | Some framerate => (framerate <? 1) || (120 <? framerate)
            | None => true
            end "Framerate must be between 1 and 120"
     else []) = [] <->
    (truthy (Validator.framerate o) = true ->
     exists n, Validator.parseInt (orDefault (Validator.framerate o) "") = Some n
               /\ 1 <= n <= 120)).
  { destruct (truthy (Validator.framerate o)); [|split; [discriminate|auto]].
    rewrite check_nil.
    destruct (Validator.parseInt (orDefault (Validator.framerate o) ""))
      as [n|].
    - rewrite orb_false_iff, !Z.ltb_ge. split.
      + intros H _. exists n. split; [reflexivity|lia].
      + intros H. destruct (H eq_refl) as (m & [= <-] & Hm). lia.
    - split; [discriminate|]. intros H.
      destruct (H eq_refl) as (m & Hm & _). discriminate. }
  assert (Hres :
    (if truthy (Validator.resolution o) &&
        negb (optIs (Validator.resolution o) "desktop")
     then
       if negb (Validator.resolutionPattern
                  (orDefault (Validator.resolution o) ""))
       then ["Resolution must be in format WIDTHxHEIGHT (e.g., 1920x1080)"]
       else
         match map Validator.Number
                 (splitOn "x" (orDefault (Validator.resolution o) ""))
         with
         | width :: height :: _ =>
             Validator.check
               ((width <? 320) || (height <? 240) || (7680 <? width) ||
                (4320 <? height))
               "Resolution must be between 320x240 and 7680x4320"
         | _ => []
         end
     else []) = [] <->
    (truthy (Validator.resolution o) = true ->
     optIs (Validator.resolution o) "desktop" = false ->
     exists w h,
       orDefault (Validator.resolution o) "" = w +:+ "x" +:+ h /\
       Validator.allDigits w = true /\ Validator.allDigits h = true /\
       320 <= Validator.Number w <= 7680 /\
       240 <= Validator.Number h <= 4320)).
  { destruct (truthy (Validator.resolution o));
      [|split; [discriminate|auto]].
    destruct (optIs (Validator.resolution o) "desktop");
      [split; [discriminate|auto]|].
    cbn [andb negb].
    destruct (Validator.resolutionPattern
                (orDefault (Validator.resolution o) "")) eqn:E; cbn [negb].
    - apply resolutionPattern_spec in E as (w & h & -> & Hw & Hh & Haw & Hah).
      rewrite (split_x_append w h Haw Hah). cbn [map].
      rewrite check_nil, !orb_false_iff, !Z.ltb_ge. split.
      + intros H _ _. exists w, h. repeat split; try assumption; lia.
      + intros H. destruct (H eq_refl eq_refl) as (w' & h' & Heq & Haw' & Hah' & Hb).
        assert (w' = w /\ h' = h) as [-> ->].
        { pose proof (split_x_append w h Haw Hah) as S1.
          pose proof (split_x_append w' h' Haw' Hah') as S2.
          rewrite Heq in S1. rewrite S1 in S2. injection S2. auto. }
        lia.
    - split; [discriminate|]. intros H.
      destruct (H eq_refl eq_refl) as (w & h & Heq & Haw & Hah & Hb1 & Hb2).
      assert (Validator.resolutionPattern
                (orDefault (Validator.resolution o) "") = true);
        [|congruence].
      apply resolutionPattern_spec. exists w, h.
      repeat split; try assumption; intros ->;
        unfold Validator.Number in *; simpl in *; lia. }
  split.
  - intros H. apply result_valid in H.
    apply app_eq_nil in H as [H1 H]. apply app_eq_nil in H as [H2 H].
    apply app_eq_nil in H as [H3 H]. apply app_eq_nil in H as [H4 H].
    apply app_eq_nil in H as [H5 H6].
    apply check_nil in H3, H4, H5, H6.
    split; [apply Hfr, H1|]. split; [apply Hres, H2|].
    repeat split; intros E; rewrite E in *; simpl in *;
      try (apply negb_false_iff; assumption);
      destruct (truthy _); try reflexivity; discriminate.
  - intros (H1 & H2 & H3 & H4 & H5 & H6). apply result_valid.
    apply Hfr in H1. apply Hres in H2. rewrite H1, H2. clear Hfr Hres H1 H2.
    cbn [app].
    repeat (match goal with
            | |- context [Validator.check ?b ?m] =>
                replace (Validator.check b m) with (@nil string);
                [cbn [app]|symmetry; apply check_nil]
            end); [reflexivity|..].
    + destruct (optIs (Validator.sourceType o) "camera"); [|reflexivity].
      rewrite (H6 eq_refl). reflexivity.
    + destruct (optIs (Validator.sourceType o) "window"); [|reflexivity].
      rewrite (H5 eq_refl). reflexivity.
    + destruct (truthy (Validator.region o)); [|reflexivity].
      rewrite (H4 eq_refl). reflexivity.
    + destruct (truthy (Validator.sourceType o)); [|reflexivity].
      rewrite (H3 eq_refl). reflexivity.
Qed.





Lemma truthy_pretty_append (n : Z) (t : string) :
  0 < n -> truthy (Some (pretty n +:+ t)) = true /\
           forall d, orDefault (Some (pretty n +:+ t)) d = pretty n +:+ t.
Proof.
  intros Hn. destruct (pretty_Z_digits n Hn) as (D & Hne & _ & -> & _).
  destruct D; [congruence|]. split; reflexivity.
Qed.

(** X6: the framerate check reads only the leading number: a framerate
    text that starts with a number from 1 to 120 passes whatever follows
    the number, and a screen or window recording hands the whole text to
    ffmpeg as the value of [-framerate]. *)
Theorem framerate_prefix_accepted (o : Validator.RecordingOptions) (n : Z)
    (t : string) (region : option Rect) (args : list string) (clean : string) :
  1 <= n <= 120 ->
  startsWith_x_or_digit t = false ->
  Validator.framerate o = Some (pretty n +:+ t) ->
  ~ In "Framerate must be between 1 and 120"
       (errors (Validator.validateRecordingOptions (Some o))) /\
  (optIs (Validator.sourceType o) "camera" = false ->
   inputArgs (toOptions o) region = ArgsOk args clean ->
   exists pre post, args = pre ++ "-framerate" :: (pretty n +:+ t) :: post).
Proof.
  intros Hn Ht Hf.
  destruct (truthy_pretty_append n t) as [Htr Hor]; [lia|].
  split.
  - unfold Validator.validateRecordingOptions. rewrite Hf, Htr, (Hor "").
    rewrite (parseInt_pretty n t) by (assumption || lia).
    destruct (Z.ltb_spec n 1); [lia|]. destruct (Z.ltb_spec 120 n); [lia|].
    cbn [orb Validator.check Validator.result errors app].
    intros Hin.
    repeat (apply in_app_iff in Hin as [Hin|Hin];
            [try (apply check_In in Hin as [Hin _]; discriminate Hin)|]).
    + destruct (truthy (Validator.resolution o) &&
                negb (optIs (Validator.resolution o) "desktop"));
        [|destruct Hin].
      destruct (negb (Validator.resolutionPattern _));
        [destruct Hin as [Hin|[]]; discriminate Hin|].
      destruct (map _ _) as [|w [|h l]]; try destruct Hin.
      apply check_In in Hin as [Hin _]. discriminate Hin.
    + apply check_In in Hin as [Hin _]. discriminate Hin.
  - intros Hc. unfold inputArgs, toOptions.
    cbn [sourceType cameraName framerate windowTitle]. rewrite Hc, Hf, (Hor "30").
    destruct (optIs (Validator.sourceType o) "window");
      match goal with
      | |- context [if ?b then _ else _] => destruct b
      end;
      try (intros [= <- _]; exists ["-f"; "gdigrab"]; eexists; reflexivity);
      destruct region as [r|];
      try (intros [= <- _]; exists ["-f"; "gdigrab"]; eexists; reflexivity);
      unfold regionArgs; cbn [framerate]; rewrite ?Hf, ?(Hor "30");
      destruct (_ || _); try discriminate;
      intros [= <- _];
      exists ["-f"; "gdigrab"; "-video_size";
              pretty (floorEven (width r)) +:+ "x" +:+
              pretty (floorEven (height r))]; eexists; reflexivity.
Qed.

Lemma framerate_prefix_accepted_witness :
  ~ In "Framerate must be between 1 and 120"
       (errors (Validator.validateRecordingOptions (Some lenientOptions))) /\
  exists pre post,
    ["-f"; "gdigrab"; "-framerate"; "30fps"; "-i"; "desktop"] =
    pre ++ "-framerate" :: "30fps" :: post.
Proof.
  destruct (framerate_prefix_accepted lenientOptions 30 "fps" None
              ["-f"; "gdigrab"; "-framerate"; "30fps"; "-i"; "desktop"] "")
    as [H1 H2]; [lia|reflexivity|reflexivity|].
  split; [exact H1|]. apply H2; reflexivity.
Defined.

(** X7: the settings [validateAndSanitizeSettings] returns as sanitized
    are themselves valid, and sanitizing them again changes nothing (the
    framerate, printed in decimal, parses back to the same number). *)
Theorem sanitized_settings_are_stable (settings : option Validator.Settings) :
  let r := Validator.validateAndSanitizeSettings settings in
  Validator.validateAndSanitizeSettings (Some (Validator.sanitized r)) =
  {| Validator.validation := {| valid := true; errors := [] |};
     Validator.sanitized := Validator.sanitized r |}.
Proof.
  destruct settings as [[f r g]|]; [|reflexivity].
  cbv zeta. unfold Validator.validateAndSanitizeSettings.
  cbn [Validator.s_framerate Validator.s_resolution Validator.s_region
       Validator.sanitized].
  assert (Hf :
    forall v : string + option string,
      v = match f with
          | Some f0 =>
              match Validator.parseInt f0 with
              | Some framerate =>
                  if (framerate <? 1) || (120 <? framerate)
                  then inl "Invalid framerate"
                  else inr (Some (pretty framerate))
              | None => inl "Invalid framerate"
              end
          | None => inr None
          end ->
      match match v with inl _ => None | inr o => o end with
      | Some f0 =>
          match Validator.parseInt f0 with
          | Some framerate =>
              if (framerate <? 1) || (120 <? framerate)
              then inl "Invalid framerate"
              else inr (Some (pretty framerate))
          | None => inl "Invalid framerate"
          end
      | None => inr None
      end = inr match v with inl _ => None | inr o => o end).
  { intros v ->. destruct f as [f|]; [|reflexivity].
    destruct (Validator.parseInt f) as [n|]; [|reflexivity].
    destruct (Z.ltb_spec n 1); [reflexivity|].
    destruct (Z.ltb_spec 120 n); [reflexivity|]. cbn [orb].
    pose proof (parseInt_pretty n "" ltac:(lia) eq_refl) as Hp.
    replace (pretty n +:+ "") with (pretty n) in Hp
      by (clear; induction (pretty n); strs; congruence).
    rewrite Hp.
    destruct (Z.ltb_spec n 1); [lia|]. destruct (Z.ltb_spec 120 n); [lia|].
    reflexivity. }
  assert (Hr :
    forall v : string + option string,
      v = match r with
          | Some r0 =>
              if String.eqb r0 "desktop" then inr (Some "desktop")
              else if Validator.resolutionPattern r0 then inr (Some r0)
              else inl "Invalid resolution format"
          | None => inr None
          end ->
      match match v with inl _ => None | inr o => o end with
      | Some r0 =>
          if String.eqb r0 "desktop" then inr (Some "desktop")
          else if Validator.resolutionPattern r0 then inr (Some r0)
          else inl "Invalid resolution format"
      | None => inr None
      end = inr match v with inl _ => None | inr o => o end).
  { intros v ->. destruct r as [r|]; [|reflexivity].
    destruct (String.eqb r "desktop") eqn:E; [reflexivity|].
    destruct (Validator.resolutionPattern r) eqn:F; [|reflexivity].
    rewrite E, F. reflexivity. }
  assert (Hg :
    forall v : string + option string,
      v = match g with
          | Some r0 =>
              if Validator.oneOf Validator.validRegions r0 then inr (Some r0)
              else inl "Invalid region"
          | None => inr None
          end ->
      match match v with inl _ => None | inr o => o end with
      | Some r0 =>
          if Validator.oneOf Validator.validRegions r0 then inr (Some r0)
          else inl "Invalid region"
      | None => inr None
      end = inr match v with inl _ => None | inr o => o end).
  { intros v ->. destruct g as [g|]; [|reflexivity].
    destruct (Validator.oneOf Validator.validRegions g) eqn:E;
      [|reflexivity].
    rewrite E. reflexivity. }
  rewrite (Hf _ eq_refl), (Hr _ eq_refl), (Hg _ eq_refl). reflexivity.
Qed.

(** X8: a rectangle [validateRegion] accepts with the default minimum is
    never refused by [startRecording] as too small, and stays acceptable
    after its width and height are floored to even numbers. *)
Theorem validated_region_is_recorded (options : Options) (r : Rect) :
  valid (validateRegion (Some r) 16) = true ->
  (exists args, regionArgs options r = inr args) /\
  valid (validateRegion
           (Some {| x := x r; y := y r; width := floorEven (width r);
                    height := floorEven (height r) |}) 16) = true.
Proof.
  unfold validateRegion, regionArgs, floorEven. cbn [width height x y valid].
  destruct (Z.ltb_spec (width r) 16); [discriminate|].
  destruct (Z.ltb_spec (height r) 16); [discriminate|].
  destruct (Z.ltb_spec (x r) 0); [discriminate|].
  destruct (Z.ltb_spec (y r) 0); [discriminate|].
  destruct (Z.ltb_spec 7680 (width r)); [discriminate|].
  destruct (Z.ltb_spec 4320 (height r)); [discriminate|].
  intros _. split; [eexists; reflexivity|].
  pose proof (Z.mul_div_le (width r) 2). pose proof (Z.mul_div_le (height r) 2).
  assert (8 <= width r / 2) by (apply Z.div_le_lower_bound; lia).
  assert (8 <= height r / 2) by (apply Z.div_le_lower_bound; lia).
  destruct (Z.ltb_spec (width r / 2 * 2) 16); [lia|].
  destruct (Z.ltb_spec (height r / 2 * 2) 16); [lia|].
  destruct (Z.ltb_spec 7680 (width r / 2 * 2)); [lia|].
  destruct (Z.ltb_spec 4320 (height r / 2 * 2)); [lia|].
  reflexivity.
Qed.

Lemma validated_region_is_recorded_witness :
  (exists args,
     regionArgs regionOptions
       {| x := 10; y := 20; width := 641; height := 17 |} = inr args) /\
  valid (validateRegion
           (Some {| x := 10; y := 20; width := 640; height := 16 |}) 16) = true.
Proof.
  apply (validated_region_is_recorded regionOptions
           {| x := 10; y := 20; width := 641; height := 17 |}).
  reflexivity.
Defined.

(** X9: [validateWindowInfo] and [validateCameraInfo] return a result
    exactly when the title (the name) is present, and then accept exactly
    the non-empty strings of at most 255 characters; for an object without
    title (name) they throw instead of reporting the missing field. *)
Theorem info_validators_outcome (t : option string) (n : option string)
    (windowName : option string) :
  match Validator.validateWindowInfo
          (Some {| Validator.title := t; Validator.name := windowName |}) with
  | Validator.Threw _ => t = None
  | Validator.Returned v =>
      exists s, t = Some s /\
        (valid v = true <-> s <> "" /\ (String.length s <= 255)%nat)
  end /\
  match Validator.validateCameraInfo
          (Some {| Validator.camera_name := n |}) with
  | Validator.Threw _ => n = None
  | Validator.Returned v =>
      exists s, n = Some s /\
        (valid v = true <-> s <> "" /\ (String.length s <= 255)%nat)
  end.
Proof.
  assert (H : forall (s m1 m2 : string),
    valid (Validator.result
             (Validator.check (negb (truthy (Some s))) m1 ++
              Validator.check (255 <? String.length s)%nat m2)) = true <->
    s <> "" /\ (String.length s <= 255)%nat).
  { intros s m1 m2. simpl.
    destruct (String.eqb_spec s ""); destruct (Nat.ltb_spec 255 (String.length s));
      simpl; split; intros; try discriminate; try reflexivity;
      intuition (lia || congruence). }
  split.
  - destruct t as [s|]; [|reflexivity]. exists s. split; [reflexivity|].
    apply H.
  - destruct n as [s|]; [|reflexivity]. exists s. split; [reflexivity|].
    apply H.
Qed.

(** ** Substrings *)

Lemma prefix_spec (p s : string) :
  String.prefix p s = true <-> exists b, s = p +:+ b.
Proof.
  split.
  - revert s. induction p as [|c p IH]; intros s H.
    + exists s. reflexivity.
    + destruct s as [|d s]; [discriminate|]. cbn [String.prefix] in H.
      destruct (Ascii.ascii_dec c d) as [<-|]; [|discriminate].
      destruct (IH s H) as [b ->]. exists b. reflexivity.
  - intros [b ->]. apply prefix_append.
Qed.

Lemma includes_spec (s p : string) :
  includes s p = true <-> exists a b, s = a +:+ p +:+ b.
Proof.
  split.
  - induction s as [|c s IH]; rewrite includes_unfold; intros H;
      apply orb_true_iff in H as [H|H]; try discriminate.
    + apply prefix_spec in H as [b ->]. exists "", b. reflexivity.
    + apply prefix_spec in H as [b ->]. exists "", b. reflexivity.
    + destruct (IH H) as (a & b & ->). exists (String c a), b. reflexivity.
  - intros (a & b & ->). apply includes_skip, includes_here.
Qed.

Lemma includes_trans (s m p : string) :
  includes s m = true -> includes m p = true -> includes s p = true.
Proof.
  intros H1 H2. apply includes_spec in H1 as (a & b & ->).
  apply includes_skip, includes_keep, H2.
Qed.

Lemma includes_refl (s : string) : includes s s = true.
Proof.
  apply includes_spec. exists "", "". clear.
  induction s; norm_str; [reflexivity|]. rewrite <- IHs. reflexivity.
Qed.

Lemma includes_char (c d : ascii) (s : string) :
  includes (String d s) (String c "") = Ascii.eqb d c || includes s (String c "").
Proof.
  rewrite includes_unfold. cbn [String.prefix].
  destruct (Ascii.ascii_dec c d) as [<-|N].
  - rewrite Ascii.eqb_refl. destruct s; reflexivity.
  - destruct (Ascii.eqb_spec d c); [congruence|reflexivity].
Qed.

(** ** Lines *)

Lemma splitOn_spec (sep : ascii) (s : string) :
  exists p ps,
    splitOn sep s = p :: ps /\ (exists b, s = p +:+ b) /\
    includes p (String sep "") = false /\
    forall l, In l ps ->
      includes s l = true /\ includes l (String sep "") = false.
Proof.
  induction s as [|c s (p & ps & E & [b Hb] & Hp & Hps)].
  - exists "", []. split; [reflexivity|]. split; [exists ""; reflexivity|].
    split; [reflexivity|]. intros l [].
  - cbn [splitOn]. destruct (Ascii.eqb_spec c sep) as [->|N].
    + exists "", (splitOn sep s). split; [reflexivity|].
      split; [exists (String sep s); reflexivity|]. split; [reflexivity|].
      intros l H. rewrite E in H. destruct H as [<-|H].
      * split; [|assumption]. rewrite includes_unfold.
        replace (includes s p) with true; [apply orb_true_r|].
        symmetry. rewrite Hb. apply includes_here.
      * split; [|apply (Hps l H)].
        rewrite includes_unfold, (proj1 (Hps l H)). apply orb_true_r.
    + rewrite E. exists (String c p), ps. split; [reflexivity|].
      split; [exists b; rewrite Hb; reflexivity|]. split.
      * rewrite includes_char, Hp.
        destruct (Ascii.eqb_spec c sep); [congruence|reflexivity].
      * intros l H. split; [|apply (Hps l H)].
        rewrite includes_unfold, (proj1 (Hps l H)). apply orb_true_r.
Qed.

Lemma splitOn_lines (sep : ascii) (s line : string) :
  In line (splitOn sep s) ->
  includes s line = true /\ includes line (String sep "") = false.
Proof.
  destruct (splitOn_spec sep s) as (p & ps & -> & [b Hb] & Hp & Hps).
  intros [<-|H]; [|apply (Hps line H)].
  split; [rewrite Hb; apply includes_here|assumption].
Qed.

(** ** Quoted names *)

Lemma includes_dquote_cons (c : ascii) (s : string) :
  includes (String c s) dquote = is_dquote c || includes s dquote.
Proof.
  unfold dquote. rewrite includes_char. f_equal.
  unfold is_dquote.
  destruct (Ascii.eqb_spec c (ascii_of_nat 34)) as [->|N]; [reflexivity|].
  symmetry. apply Nat.eqb_neq. intros H. apply N.
  rewrite <- (ascii_nat_embedding c), H. reflexivity.
Qed.

Lemma is_dquote_eq (c : ascii) :
  is_dquote c = true -> String c "" = dquote.
Proof.
  unfold is_dquote, dquote. intros H. apply Nat.eqb_eq in H.
  rewrite <- (ascii_nat_embedding c), H. reflexivity.
Qed.

Lemma untilQuote_spec (s g rest : string) :
  untilQuote s = Some (g, rest) ->
  s = g +:+ dquote +:+ rest /\ includes g dquote = false.
Proof.
  revert g. induction s as [|c s IH]; intros g; [discriminate|].
  cbn [untilQuote]. destruct (is_dquote c) eqn:E.
  - intros [= <- <-]. split; [|reflexivity].
    norm_str. rewrite <- (is_dquote_eq c E). reflexivity.
  - destruct (untilQuote s) as [[g' rest']|]; [|discriminate].
    intros [= <- <-]. destruct (IH g' eq_refl) as [-> Hg].
    split; [reflexivity|]. rewrite includes_dquote_cons, E, Hg. reflexivity.
Qed.

Lemma quotedAt_spec (s g rest : string) :
  quotedAt s = Some (g, rest) ->
  s = quoted g +:+ rest /\ g <> "" /\ includes g dquote = false.
Proof.
  unfold quotedAt. destruct s as [|c s]; [discriminate|].
  destruct (is_dquote c) eqn:E; [|discriminate].
  destruct (untilQuote s) as [[[|d g'] rest']|] eqn:U; try discriminate.
  intros [= <- <-]. destruct (untilQuote_spec _ _ _ U) as [-> Hg].
  split; [|split; [discriminate|assumption]].
  unfold quoted. rewrite !append_assoc.
  change (String c (String d g' +:+ dquote +:+ rest'))
    with (String c "" +:+ String d g' +:+ dquote +:+ rest').
  rewrite (is_dquote_eq c E). reflexivity.
Qed.

Lemma matchQuoted_spec (s g : string) :
  matchQuoted s = Some g ->
  g <> "" /\ includes g dquote = false /\ includes s (quoted g) = true.
Proof.
  induction s as [|c s IH].
  - cbn. discriminate.
  - cbn [matchQuoted]. destruct (quotedAt (String c s)) as [[g' rest]|] eqn:Q.
    + intros [= <-]. destruct (quotedAt_spec _ _ _ Q) as (-> & Hne & Hq).
      repeat split; try assumption. apply includes_here.
    + intros H. destruct (IH H) as (Hne & Hq & Hin).
      repeat split; try assumption.
      rewrite includes_unfold, Hin. apply orb_true_r.
Qed.

Lemma matchQuotedAudio_spec (s g : string) :
  matchQuotedAudio s = Some g ->
  g <> "" /\ includes g dquote = false /\ includes s (quoted g) = true.
Proof.
  induction s as [|c s IH].
  - cbn. discriminate.
  - cbn [matchQuotedAudio]. unfold quotedAudioAt at 1.
    destruct (quotedAt (String c s)) as [[g' rest]|] eqn:Q.
    + destruct (String.prefix "(audio)" (trimStart rest)).
      * intros [= <-]. destruct (quotedAt_spec _ _ _ Q) as (-> & Hne & Hq).
        repeat split; try assumption. apply includes_here.
      * intros H. destruct (IH H) as (Hne & Hq & Hin).
        repeat split; try assumption.
        rewrite includes_unfold, Hin. apply orb_true_r.
    + intros H. destruct (IH H) as (Hne & Hq & Hin).
      repeat split; try assumption.
      rewrite includes_unfold, Hin. apply orb_true_r.
Qed.

Lemma matchAltName_spec (s g : string) :
  matchAltName s = Some g ->
  g <> "" /\ includes g dquote = false /\
  includes s ("Alternative name " +:+ quoted g) = true.
Proof.
  induction s as [|c s IH].
  - cbn. discriminate.
  - cbn [matchAltName]. unfold altNameAt at 1.
    destruct (String.prefix "Alternative name " (String c s)) eqn:P.
    + destruct (quotedAt (drop_chars 17 (String c s))) as [[g' rest]|] eqn:Q.
      * intros [= <-]. destruct (quotedAt_spec _ _ _ Q) as (Hs & Hne & Hq).
        repeat split; try assumption.
        apply prefix_spec in P as [b Hb]. rewrite Hb in Hs |- *.
        change 17%nat with (String.length "Alternative name ") in Hs.
        rewrite drop_chars_append in Hs. rewrite Hs.
        apply (includes_keep ("Alternative name " +:+ quoted g') rest).
        apply includes_refl.
      * intros H. destruct (IH H) as (Hne & Hq & Hin).
        repeat split; try assumption.
        rewrite includes_unfold, Hin. apply orb_true_r.
    + intros H. destruct (IH H) as (Hne & Hq & Hin).
      repeat split; try assumption.
      rewrite includes_unfold, Hin. apply orb_true_r.
Qed.

(** ** Device enumeration *)

Lemma includes_quoted (n : string) : includes (quoted n) n = true.
Proof. unfold quoted. apply includes_skip, includes_here. Qed.

Lemma listedName_of_line (output line n : string) :
  In line (splitOn newline output) ->
  n <> "" -> includes n dquote = false ->
  includes line (quoted n) = true ->
  listedName output n.
Proof.
  intros Hl Hne Hq Hin. destruct (splitOn_lines _ _ _ Hl) as [H1 H2].
  repeat split; try assumption.
  - destruct (includes n (String newline "")) eqn:E; [|reflexivity].
    rewrite <- H2. symmetry.
    apply (includes_trans line (quoted n)); [assumption|].
    apply (includes_trans _ n); [apply includes_quoted|assumption].
  - apply (includes_trans output line); assumption.
Qed.

Lemma cameraLine_sound (output : string) (lines : list string)
    (st : bool * list Camera.t) :
  (forall l, In l lines -> In l (splitOn newline output)) ->
  Forall (fun cam =>
            listedName output (Camera.name cam) /\
            Camera.isOBS cam =
              includes (toLowerCase (Camera.name cam)) "obs virtual camera")
         (snd st) ->
  Forall (fun cam =>
            listedName output (Camera.name cam) /\
            Camera.isOBS cam =
              includes (toLowerCase (Camera.name cam)) "obs virtual camera")
         (snd (fold_left cameraLine lines st)).
Proof.
  revert st. induction lines as [|line lines IH]; intros st Hl Hst;
    [assumption|].
  cbn [fold_left]. apply IH; [intros l H; apply Hl; right; assumption|].
  assert (Hpush : forall n,
            matchQuoted line = Some n ->
            Forall (fun cam =>
                      listedName output (Camera.name cam) /\
                      Camera.isOBS cam =
                        includes (toLowerCase (Camera.name cam))
                                 "obs virtual camera")
                   (snd st ++ [cameraOf n])).
  { intros n Hn. apply Forall_app. split; [assumption|].
    constructor; [|constructor]. split; [|reflexivity].
    destruct (matchQuoted_spec _ _ Hn) as (Hne & Hq & Hin).
    apply (listedName_of_line output line); try assumption.
    apply Hl. left. reflexivity. }
  unfold cameraLine. destruct st as [inVideoDevices videoDevices].
  cbn [snd] in *.
  repeat match goal with
         | |- context [if ?b then _ else _] => destruct b
         end; cbn [snd]; try assumption;
    destruct (matchQuoted line) as [n|]; cbn [snd]; try assumption;
    apply Hpush; reflexivity.
Qed.

(** X10: every camera [getAvailableCameras] reports has a name that is not
    empty, holds no double quote and no line break, and stands between
    double quotes in the text ffmpeg printed; its [isOBS] flag tells
    whether the lower-cased name contains [obs virtual camera]. *)
Theorem getAvailableCameras_sound (stderr stdout : string) :
  Forall (fun cam =>
            listedName (listingOutput stderr stdout) (Camera.name cam) /\
            Camera.isOBS cam =
              includes (toLowerCase (Camera.name cam)) "obs virtual camera")
         (getAvailableCameras stderr stdout).
Proof.
  unfold getAvailableCameras. apply cameraLine_sound; [auto|constructor].
Qed.

Lemma audioLines_sound (output : string) (lines : list string) (b : bool) :
  (forall l, In l lines -> In l (splitOn newline output)) ->
  Forall (fun d =>
            listedName output (name d) /\
            match altName d with
            | Some a =>
                a <> "" /\ includes a dquote = false /\
                includes output ("Alternative name " +:+ quoted a) = true
            | None => True
            end /\
            isDefault d = isMicLike d)
         (audioLines b lines).
Proof.
  revert b. induction lines as [|line rest IH]; intros b Hl; [constructor|].
  assert (Hrest : forall l, In l rest -> In l (splitOn newline output))
    by (intros l H; apply Hl; right; assumption).
  assert (Hdev : forall n,
            n <> "" /\ includes n dquote = false /\
            includes line (quoted n) = true ->
            listedName output (name (deviceOf n (altNameOf (head rest)))) /\
            match altName (deviceOf n (altNameOf (head rest))) with
            | Some a =>
                a <> "" /\ includes a dquote = false /\
                includes output ("Alternative name " +:+ quoted a) = true
            | None => True
            end /\
            isDefault (deviceOf n (altNameOf (head rest))) =
              isMicLike (deviceOf n (altNameOf (head rest)))).
  { intros n (Hne & Hq & Hin). split; [|split; [|reflexivity]].
    - apply (listedName_of_line output line); try assumption.
      apply Hl. left. reflexivity.
    - cbn [altName deviceOf]. unfold altNameOf.
      destruct rest as [|next rest']; [exact I|]. cbn [head].
      destruct (includes next "Alternative name"); [|exact I].
      destruct (matchAltName next) as [a|] eqn:A; [|exact I].
      destruct (matchAltName_spec _ _ A) as (Ha & Hqa & Hina).
      repeat split; try assumption.
      apply (includes_trans output next); [|assumption].
      apply (splitOn_lines newline). apply Hrest. left. reflexivity. }
  cbn [audioLines].
  repeat match goal with
         | |- context [if ?c then _ else _] => destruct c
         end; try (apply IH; assumption).
  - destruct (matchQuotedAudio line) as [n|] eqn:E; [|apply IH; assumption].
    constructor; [|apply IH; assumption].
    apply Hdev, (matchQuotedAudio_spec _ _ E).
  - destruct (matchQuoted line) as [n|] eqn:E; [|apply IH; assumption].
    constructor; [|apply IH; assumption].
    apply Hdev, (matchQuoted_spec _ _ E).
Qed.

Lemma find_ext {A} (f g : A -> bool) (l : list A) :
  Forall (fun a => f a = g a) l -> find f l = find g l.
Proof.
  induction 1 as [|a l H _ IH]; [reflexivity|]. simpl. rewrite H, IH.
  reflexivity.
Qed.

(** X11: every audio device [getAvailableAudioDevices] reports has a name
    that is not empty, holds no double quote and no line break, and stands
    between double quotes in the text ffmpeg printed; its alternative name,
    when it has one, is not empty, holds no double quote and follows
    [Alternative name] in the listing; and on such a catalog
    [getBestAudioDevice] returns the first device flagged [isDefault],
    or the first device when none is flagged. *)
Theorem getAvailableAudioDevices_sound (stderr stdout : string)
    (scanned : list Device) :
  let output := listingOutput stderr stdout in
  let devices := getAvailableAudioDevices stderr stdout in
  Forall (fun d =>
            listedName output (name d) /\
            match altName d with
            | Some a =>
                a <> "" /\ includes a dquote = false /\
                includes output ("Alternative name " +:+ quoted a) = true
            | None => True
            end) devices /\
  (devices <> [] ->
   getBestAudioDevice devices scanned =
   match find isDefault devices with
   | Some d => Some (name d)
   | None => option_map name (head devices)
   end).
Proof.
  cbv zeta.
  pose proof (audioLines_sound (listingOutput stderr stdout)
                (splitOn newline (listingOutput stderr stdout)) false
                (fun l H => H)) as H.
  fold (getAvailableAudioDevices stderr stdout) in H.
  split.
  - eapply List.Forall_impl; [|exact H]. cbv beta. tauto.
  - intros Hne. unfold getBestAudioDevice, audioDevices.
    destruct (getAvailableAudioDevices stderr stdout) as [|d l] eqn:E;
      [congruence|].
    rewrite (find_ext isDefault isMicLike (d :: l)).
    + destruct (find isMicLike (d :: l)); reflexivity.
    + eapply List.Forall_impl; [|exact H]. cbv beta. tauto.
Qed.

Lemma is_bracket_lower (c : ascii) : is_bracket (lower_char c) = is_bracket c.
Proof. destruct c as [[] [] [] [] [] [] [] []]; reflexivity. Qed.

Lemma is_space_lower (c : ascii) : is_space (lower_char c) = is_space c.
Proof. destruct c as [[] [] [] [] [] [] [] []]; reflexivity. Qed.

Lemma toLowerCase_stripBrackets (s : string) :
  toLowerCase (stripBrackets s) = stripBrackets (toLowerCase s).
Proof.
  induction s as [|c s IH]; [reflexivity|].
  cbn [stripBrackets toLowerCase]. rewrite is_bracket_lower.
  destruct (is_bracket c); cbn [toLowerCase]; rewrite IH; reflexivity.
Qed.

Lemma toLowerCase_trimStart (s : string) :
  toLowerCase (trimStart s) = trimStart (toLowerCase s).
Proof.
  induction s as [|c s IH]; [reflexivity|].
  cbn [trimStart toLowerCase]. rewrite is_space_lower.
  destruct (is_space c); [assumption|reflexivity].
Qed.

Lemma toLowerCase_trimEnd (s : string) :
  toLowerCase (trimEnd s) = trimEnd (toLowerCase s).
Proof.
  induction s as [|c s IH]; [reflexivity|].
  cbn [trimEnd toLowerCase]. rewrite is_space_lower, <- IH.
  destruct (trimEnd s); destruct (is_space c); reflexivity.
Qed.

Lemma stripBrackets_append (a b : string) :
  stripBrackets (a +:+ b) = stripBrackets a +:+ stripBrackets b.
Proof.
  induction a as [|c a IH]; norm_str; [reflexivity|].
  cbn [stripBrackets]. rewrite IH. destruct (is_bracket c); reflexivity.
Qed.

Lemma trimStart_append (a b : string) :
  startsWithSpace b = false -> trimStart (a +:+ b) = trimStart a +:+ b.
Proof.
  intros Hb. induction a as [|c a IH]; norm_str.
  - apply trimStart_id, Hb.
  - cbn [trimStart]. destruct (is_space c); [assumption|reflexivity].
Qed.

Lemma trimEnd_append (a b : string) (z : ascii) :
  is_space z = false ->
  trimEnd (a +:+ String z b) = a +:+ String z (trimEnd b).
Proof.
  intros Hz. induction a as [|c a IH]; norm_str.
  - cbn [trimEnd]. rewrite Hz. reflexivity.
  - cbn [trimEnd]. rewrite IH.
    destruct a; norm_str; rewrite andb_false_r; reflexivity.
Qed.

(** A name whose lower-case form contains [obs virtual camera] still
    contains it after [cleanName]. *)
Lemma cleanName_keeps_obs (n : string) :
  includes (toLowerCase n) "obs virtual camera" = true ->
  isOBS (cleanName n) = true.
Proof.
  intros H. unfold isOBS, cleanName, trim.
  rewrite toLowerCase_trimEnd, toLowerCase_trimStart,
    toLowerCase_stripBrackets.
  apply includes_spec in H as (a & b & ->).
  rewrite !stripBrackets_append.
  change (stripBrackets "obs virtual camera") with "obs virtual camera".
  rewrite trimStart_append by (destruct (stripBrackets b); reflexivity).
  change ("obs virtual camera" +:+ stripBrackets b)
    with ("obs virtual camer" +:+ String "a" (stripBrackets b)).
  rewrite <- append_assoc, trimEnd_append by reflexivity.
  rewrite append_assoc. apply includes_skip.
  apply (includes_here "obs virtual").
Qed.

(** X12: a camera that the catalog flags as OBS Virtual Camera is recorded
    through the virtual-camera branch of [startRecording]: the input
    arguments are the fixed 60 fps ones, with the cleaned name. *)
Theorem flagged_camera_takes_obs_branch (stderr stdout : string)
    (cam : Camera.t) (options : Options) (region : option Rect) :
  In cam (getAvailableCameras stderr stdout) ->
  Camera.isOBS cam = true ->
  sourceType options = SrcCamera ->
  cameraName options = Some (Camera.name cam) ->
  inputArgs options region =
    ArgsOk ["-f"; "dshow"; "-framerate"; "60";
            "-i"; videoInput (cleanName (Camera.name cam))]
           (cleanName (Camera.name cam)).
Proof.
  intros Hin Hflag Hsrc Hname.
  assert (Hobs : includes (toLowerCase (Camera.name cam)) "obs virtual camera"
                 = true).
  { pose proof (cameraLine_sound (listingOutput stderr stdout)
                  (splitOn newline (listingOutput stderr stdout))
                  (false, []) (fun l H => H) (List.Forall_nil _)) as HF.
    fold (getAvailableCameras stderr stdout) in HF.
    rewrite List.Forall_forall in HF. destruct (HF cam Hin) as [_ <-].
    assumption. }
  unfold inputArgs. rewrite Hsrc, Hname, (cleanName_keeps_obs _ Hobs).
  reflexivity.
Qed.

Lemma flagged_camera_takes_obs_branch_witness :
  inputArgs (cameraOptions "OBS Virtual Camera") None =
    ArgsOk ["-f"; "dshow"; "-framerate"; "60";
            "-i"; videoInput (cleanName "OBS Virtual Camera")]
           (cleanName "OBS Virtual Camera").
Proof.
  apply (flagged_camera_takes_obs_branch sampleListing ""
           {| Camera.name := "OBS Virtual Camera"; Camera.isOBS := true |}
           (cameraOptions "OBS Virtual Camera") None).
  - vm_compute. right. left. reflexivity.
  - reflexivity.
  - reflexivity.
  - reflexivity.
Defined.

(** ** Catalog names inside commands *)

Lemma stripBrackets_no_quote (s : string) :
  includes s dquote = false -> includes (stripBrackets s) dquote = false.
Proof.
  induction s as [|c s IH]; [reflexivity|].
  rewrite includes_dquote_cons. intros H.
  apply orb_false_iff in H as [Hc Hs]. cbn [stripBrackets].
  destruct (is_bracket c); [apply IH, Hs|].
  rewrite includes_dquote_cons, Hc. apply IH, Hs.
Qed.

Lemma trimStart_no_quote (s : string) :
  includes s dquote = false -> includes (trimStart s) dquote = false.
Proof.
  induction s as [|c s IH]; [reflexivity|]. intros H. cbn [trimStart].
  destruct (is_space c); [|exact H].
  rewrite includes_dquote_cons in H. apply orb_false_iff in H as [_ Hs].
  apply IH, Hs.
Qed.

Lemma trimEnd_no_quote (s : string) :
  includes s dquote = false -> includes (trimEnd s) dquote = false.
Proof.
  induction s as [|c s IH]; [reflexivity|].
  rewrite includes_dquote_cons. intros H.
  apply orb_false_iff in H as [Hc Hs]. cbn [trimEnd].
  destruct (is_space c && String.eqb (trimEnd s) ""); [reflexivity|].
  rewrite includes_dquote_cons, Hc. apply IH, Hs.
Qed.

Lemma escapeBackslashes_no_quote (s : string) :
  includes s dquote = false -> includes (escapeBackslashes s) dquote = false.
Proof.
  induction s as [|c s IH]; [reflexivity|].
  rewrite includes_dquote_cons. intros H.
  apply orb_false_iff in H as [Hc Hs]. cbn [escapeBackslashes].
  destruct (nat_of_ascii c =? 92)%nat;
    rewrite ?includes_dquote_cons, Hc; apply IH, Hs.
Qed.

(** X13: names taken from the device catalog cannot break the quoting of a
    camera command: the cleaned name of every enumerated camera holds no
    double quote, and neither does the audio device name chosen by
    [getBestAudioDevice] from an enumerated catalog, nor the name
    [getCorrectAudioDeviceName] replaces it with, after their backslashes
    are doubled. *)
Theorem catalog_names_keep_quoting (stderr stdout : string)
    (scanned : list Device) :
  let devices := getAvailableAudioDevices stderr stdout in
  Forall (fun cam => includes (cleanName (Camera.name cam)) dquote = false)
         (getAvailableCameras stderr stdout) /\
  forall n,
    devices <> [] ->
    getBestAudioDevice devices scanned = Some n ->
    includes (escapeBackslashes n) dquote = false /\
    includes (escapeBackslashes
                (getCorrectAudioDeviceName devices scanned n)) dquote = false.
Proof.
  cbv zeta. split.
  - pose proof (cameraLine_sound (listingOutput stderr stdout)
                  (splitOn newline (listingOutput stderr stdout))
                  (false, []) (fun l H => H) (List.Forall_nil _)) as HF.
    fold (getAvailableCameras stderr stdout) in HF.
    eapply List.Forall_impl; [|exact HF]. cbv beta.
    intros cam [(_ & Hq & _) _]. unfold cleanName, trim.
    apply trimEnd_no_quote, trimStart_no_quote, stripBrackets_no_quote, Hq.
  - intros n Hne Hbest.
    pose proof (audioLines_sound (listingOutput stderr stdout)
                  (splitOn newline (listingOutput stderr stdout)) false
                  (fun l H => H)) as HF.
    fold (getAvailableAudioDevices stderr stdout) in HF.
    rewrite List.Forall_forall in HF.
    assert (Hdev : audioDevices (getAvailableAudioDevices stderr stdout)
                     scanned = getAvailableAudioDevices stderr stdout).
    { unfold audioDevices.
      destruct (getAvailableAudioDevices stderr stdout); congruence. }
    destruct (getBestAudioDevice_display _ _ _ Hbest) as (dev & Hin & <-).
    rewrite Hdev in Hin.
    destruct (HF dev Hin) as ((_ & Hq & _) & _).
    split; [apply escapeBackslashes_no_quote, Hq|].
    apply escapeBackslashes_no_quote.
    unfold getCorrectAudioDeviceName. rewrite Hdev.
    destruct (find _ _) as [info|] eqn:F; [|exact Hq].
    apply find_some in F as [Hinfo _].
    destruct (HF info Hinfo) as (_ & Halt & _).
    destruct (altName info) as [a|]; [|exact Hq]. simpl.
    destruct (String.eqb a ""); [exact Hq|apply Halt].
Qed.

(** ** The recordings list *)

Lemma insertSorted_perm {A} (compare : A -> A -> Z) (a : A) (l : list A) :
  Permutation (insertSorted compare a l) (a :: l).
Proof.
  induction l as [|b l IH]; simpl; [reflexivity|].
  destruct (0 <? compare a b); [|reflexivity].
  rewrite IH. apply perm_swap.
Qed.

Lemma sortBy_perm {A} (compare : A -> A -> Z) (l : list A) :
  Permutation (sortBy compare l) l.
Proof.
  induction l as [|a l IH]; simpl; [reflexivity|].
  rewrite insertSorted_perm, IH. reflexivity.
Qed.

Lemma insertSorted_newestFirst (a : Recording.t) (l : list Recording.t) :
  StronglySorted newestFirst l ->
  StronglySorted newestFirst
    (insertSorted (fun a b => Recording.modified b - Recording.modified a)
                  a l).
Proof.
  induction 1 as [|b l Hl IH Hb]; simpl.
  - constructor; constructor.
  - destruct (Z.ltb_spec 0 (Recording.modified b - Recording.modified a)).
    + constructor; [assumption|].
      apply (Permutation_Forall
               (Permutation_sym (insertSorted_perm _ a l))).
      constructor; [unfold newestFirst; lia|assumption].
    + constructor; [constructor; assumption|].
      constructor; [unfold newestFirst; lia|].
      eapply List.Forall_impl; [|exact Hb].
      unfold newestFirst. intros c Hc. lia.
Qed.

(** X14: [listRecordings] returns the [.mp4] files of the directory, each
    once and with its path inside the recordings directory, ordered by
    modification time with the newest first; when the directory cannot be
    read it returns the empty list. *)
Theorem listRecordings_sorted (recordingsDir : string)
    (files : list DirEntry) :
  let mp4 := List.filter (fun file => endsWith (entryName file) ".mp4") files in
  let found := listRecordings recordingsDir (Some files) in
  Permutation found (map (recordingOf recordingsDir) mp4) /\
  StronglySorted newestFirst found /\
  Forall (fun r => endsWith (Recording.name r) ".mp4" = true /\
                   Recording.path r =
                     path_join recordingsDir (Recording.name r)) found /\
  listRecordings recordingsDir None = [].
Proof.
  cbv zeta. unfold listRecordings.
  split; [apply sortBy_perm|]. split; [|split; [|reflexivity]].
  - induction (map (recordingOf recordingsDir) _) as [|a l IH]; simpl;
      [constructor|]. apply insertSorted_newestFirst, IH.
  - apply (Permutation_Forall (Permutation_sym (sortBy_perm _ _))).
    apply List.Forall_forall. intros r Hr.
    apply in_map_iff in Hr as (f & <- & Hf).
    apply filter_In in Hf as [_ Hf]. split; [exact Hf|reflexivity].
Qed.

(** ** What a start leaves behind *)

(** Reduction of the setters and projections of [State] only. *)
Ltac state_cbn :=
  cbn [fst snd mainWindow recordingProcess isRecording currentRecordingPath
       originalRecordingPath timelineAdded availableAudioDevices
       RECORDINGS_DIR forceKillTimeout procs ladders jobs nextJob sent now
       uncaught set_recordingProcess set_isRecording set_currentRecordingPath
       set_originalRecordingPath set_timelineAdded set_forceKillTimeout
       set_procs set_ladders set_jobs set_nextJob set_sent set_now
       set_uncaught].





Lemma startRecording_direct (options : Options) (env : StartEnv) (s : State)
    (path : string) :
  isRecording s = false ->
  isCamera (sourceType options) = false ->
  snd (startRecording options env s) = StartOk path ->
  exists args,
    fst (startRecording options env s) =
    updProc (length (procs s))
      (proc_listen [OnCloseScreen path] [OnErrorScreen] [OnStderrLog])
      (set_originalRecordingPath (Some path)
         (set_currentRecordingPath (Some path)
            (set_isRecording true
               (set_recordingProcess (Some (length (procs s)))
                  (fst (spawn getFFmpegPath args false (spawnEnv env)
                          (set_timelineAdded false s))))))).
Proof.
  intros Hrec Hcam.
  destruct (startRecording options env s) as [s' res] eqn:E. cbn [fst snd].
  unfold startRecording in E. rewrite Hrec, Hcam in E.
  destruct (optIs (region options) "selection");
    [destruct (selection env)|]; try (injection E as <- <-; discriminate).
  all: destruct (inputArgs options _);
    try (injection E as <- <-; discriminate).
  all: repeat match type of E with
         | context [if ?b then _ else _] => destruct b eqn:?
         end.
  all: unfold spawn in E; injection E as <- <-; try discriminate.
  all: intros [= <-]; eexists; reflexivity.
Qed.



Lemma step_close (s : State) (p : nat) (pr : Proc) (code : option Z)
    (signal : option string) (fs : Fs) :
  procs s !! p = Some pr -> exited pr = false ->
  step s (EvClose p code signal fs) =
  fold_left (runClose code signal fs) (onClose pr) (updProc p proc_exit s).
Proof. intros H1 H2. unfold step. rewrite H1, H2. reflexivity. Qed.




(** X17: when the process of a screen or window recording without audio
    is ended by a signal (exit code [null]), its close handler clears the
    recording flag and the handle but sends no completion and issues no
    timeline call. *)
Theorem signalled_screen_recording_sends_nothing (options : Options)
    (env : StartEnv) (s : State) (path : string) (signal : option string)
    (fs : Fs) :
  isRecording s = false ->
  isCamera (sourceType options) = false ->
  snd (startRecording options env s) = StartOk path ->
  let s1 := fst (startRecording options env s) in
  let s2 := step s1 (EvClose (length (procs s)) None signal fs) in
  sent s2 = sent s /\ jobs s2 = jobs s /\
  isRecording s2 = false /\ recordingProcess s2 = None.
Proof.
  intros Hrec Hcam Hres.
  destruct (startRecording_direct options env s path Hrec Hcam Hres)
    as [args ->].
  cbv zeta. erewrite step_close;
    [|unfold spawn, updProc; state_cbn;
      rewrite alter_snoc; apply list_lookup_middle; reflexivity|reflexivity].
  cbn [proc_listen onClose app fold_left runClose].
  unfold onCloseScreen, resetRecording, spawn, updProc.
  cbn [codeIs isNull andb negb]. state_cbn. repeat split; reflexivity.
Qed.

Lemma signalled_screen_recording_sends_nothing_witness :
  let s2 := step recordingDesktop (EvClose 0 None (Some "SIGKILL") []) in
  sent s2 = [] /\ jobs s2 = [] /\ isRecording s2 = false /\
  recordingProcess s2 = None.
Proof.
  exact (signalled_screen_recording_sends_nothing desktopOptions
           (sampleEnv "2024-05-01T10-00-00" directProcess) sampleInitial
           samplePath (Some "SIGKILL") [] eq_refl eq_refl eq_refl).
Defined.

(** ** Exit codes and retries *)

(** X18: a camera attempt that exits with any non-zero code is classified
    as manually stopped: the recording state is reset, the ladder is not
    advanced and no retry is scheduled; with the window present the caller
    gets a failure completion at once, unless the code is 1 and the file
    is large enough, in which case the timeline call is issued. *)
Theorem nonzero_exit_ends_ladder (l : nat) (path : string) (n : Z) (fs : Fs)
    (s : State) (ld : Ladder) :
  n <> 0 ->
  ladders s !! l = Some ld ->
  let s' := onCloseAttempt l path (Some n) None fs s in
  wasManuallyStopped (Some n) None = true /\
  ladders s' = ladders s /\
  isRecording s' = false /\ recordingProcess s' = None /\
  (jobs s' = jobs s \/
   n = 1 /\ exists file,
     jobs s' =
     jobs s ++
     [(nextJob s, JTimeline (KWarn file "Camera recording stopped by user"))])
  /\
  (mainWindow s = true ->
   (sent s' = sent s /\ jobs s' <> jobs s) \/
   exists msg, sent s' = sent s ++ [failure None msg] /\ jobs s' = jobs s).
Proof.
  intros Hn Hld. cbv zeta.
  assert (Hm : wasManuallyStopped (Some n) None = true).
  { unfold wasManuallyStopped. cbn [signalIs isNull codeIs].
    destruct (Z.eqb_spec n 0); [contradiction|reflexivity]. }
  split; [assumption|].
  unfold onCloseAttempt. rewrite Hld, Hm.
  unfold resetRecording, fireTimeline, awaitTimeline, addJob, sendCompleted.
  state_cbn.
  destruct (mainWindow s); [|repeat split; try reflexivity; auto; discriminate].
  assert (Hw : wasStopped (Some n) None = true -> n = 1).
  { unfold wasStopped. cbn [signalIs isNull codeIs orb andb].
    intros H. apply Z.eqb_eq in H. assumption. }
  match goal with
  | |- context [if ?b then _ else _] => destruct b eqn:E
  end; state_cbn.
  - repeat split; try reflexivity.
    + right. split; [|eexists; reflexivity].
      apply Hw. destruct (wasStopped (Some n) None); [reflexivity|].
      discriminate E.
    + intros _. left. split; [reflexivity|].
      intros H. apply (f_equal (@length _)) in H.
      rewrite List.length_app in H. simpl in H. lia.
  - repeat split; try reflexivity; [left; reflexivity|].
    intros _. right. eexists. split; reflexivity.
Qed.

Lemma nonzero_exit_ends_ladder_witness :
  let s' := onCloseAttempt 0 samplePath (Some 2) None [] ladderStarted in
  ladders s' = ladders ladderStarted /\ isRecording s' = false.
Proof.
  destruct (nonzero_exit_ends_ladder 0 samplePath 2 [] ladderStarted
              {| fallbackCommands :=
                   fallbackCommandsFor (cameraOptions "USB Camera")
                     "USB Camera" None samplePath;
                 ladderOutputPath := samplePath;
                 currentAttempt := 0;
                 ioErrorDetected := false |})
    as (_ & H1 & H2 & _); [lia|vm_compute; reflexivity|].
  split; assumption.
Defined.

Lemma step_timer (s : State) (id : nat) (deadline : Z) (t : Timer) (fs : Fs)
    (sp : SpawnEnv) :
  lookupJob id (jobs s) = Some (JTimer deadline t) ->
  deadline <= now s ->
  step s (EvTimer id fs sp) = runTimer t fs sp (removeJob id s).
Proof.
  intros H1 H2. unfold step. rewrite H1.
  destruct (Z.leb_spec deadline (now s)); [reflexivity|lia].
Qed.

(** X19: [attemptRecording] does not look at the recording flag: a retry
    timer that fires after the session has been reset still spawns the next
    candidate and stores its handle, the flag stays clear and nothing is
    sent, so [stopRecording] rejects every request to stop that process. *)
Theorem retry_after_reset_escapes_stop (s : State) (id : nat) (deadline : Z)
    (l : nat) (ld : Ladder) (fs : Fs) (sp : SpawnEnv) :
  lookupJob id (jobs s) = Some (JTimer deadline (TAttempt l)) ->
  deadline <= now s ->
  ladders s !! l = Some ld ->
  (currentAttempt ld < length (fallbackCommands ld))%nat ->
  isRecording s = false ->
  let s' := step s (EvTimer id fs sp) in
  length (procs s') = S (length (procs s)) /\
  recordingProcess s' = Some (length (procs s)) /\
  isRecording s' = false /\
  sent s' = sent s /\
  stopRecording s' = (s', StopFail "No recording in progress").
Proof.
  intros Hjob Hdue Hld Hcur Hrec. cbv zeta.
  rewrite (step_timer s id deadline (TAttempt l) fs sp Hjob Hdue).
  cbn [runTimer]. unfold attemptRecording, removeJob. state_cbn.
  rewrite Hld. destruct (Nat.leb_spec (length (fallbackCommands ld))
                                      (currentAttempt ld)); [lia|].
  unfold spawn, updProc, updLadder. state_cbn.
  rewrite alter_snoc.
  assert (Hstop : forall s0 pr,
            procs s0 = procs s ++ [pr] ->
            recordingProcess s0 = Some (length (procs s)) ->
            isRecording s0 = false ->
            stopRecording s0 = (s0, StopFail "No recording in progress")).
  { intros s0 pr Hp Hr Hi. unfold stopRecording. rewrite Hr, Hp.
    rewrite list_lookup_middle by reflexivity. rewrite Hi. reflexivity. }
  repeat split; try reflexivity; try assumption.
  - rewrite List.length_app. simpl. lia.
  - eapply Hstop; [reflexivity|reflexivity|assumption].
Qed.

Lemma retry_after_reset_escapes_stop_witness :
  let s := step stoppedBeforeRetry (EvSleep 1000) in
  let s' := step s (EvTimer 3 [] shellProcess) in
  isRecording s = false /\ length (procs s) = 1%nat /\
  length (procs s') = 2%nat /\
  stopRecording s' = (s', StopFail "No recording in progress").
Proof.
  cbv zeta.
  destruct (retry_after_reset_escapes_stop
              (step stoppedBeforeRetry (EvSleep 1000)) 3 1100 0
              {| fallbackCommands :=
                   fallbackCommandsFor (cameraOptions "USB Camera")
                     "USB Camera" None samplePath;
                 ladderOutputPath := samplePath;
                 currentAttempt := 1;
                 ioErrorDetected := false |} [] shellProcess)
    as (H1 & _ & H3 & _ & H5);
    [vm_compute; reflexivity|vm_compute; discriminate|vm_compute; reflexivity
    |simpl; lia|vm_compute; reflexivity|].
  split; [vm_compute; reflexivity|]. split; [vm_compute; reflexivity|].
  split; [rewrite H1; vm_compute; reflexivity|exact H5].
Defined.

(** ** The ladder never spawns more than three processes *)

Lemma countAttempts_app (l : nat) (ps : list Proc) (pr : Proc) :
  countAttempts l (ps ++ [pr]) =
  (countAttempts l ps + (if spawnedBy l pr then 1 else 0))%nat.
Proof. induction ps; simpl; lia. Qed.

Lemma countAttempts_alter (l : nat) (f : Proc -> Proc) (p : nat)
    (ps : list Proc) :
  (forall pr, spawnedBy l (f pr) = spawnedBy l pr) ->
  countAttempts l (alter f p ps) = countAttempts l ps.
Proof.
  intros Hf. revert p. induction ps as [|pr ps IH]; intros [|p]; simpl;
    rewrite ?Hf; try reflexivity. f_equal. apply IH.
Qed.

Lemma spawnedBy_kill (l : nat) (sig : string) (pr : Proc) :
  spawnedBy l (proc_kill sig pr) = spawnedBy l pr.
Proof. unfold proc_kill. destruct (exited pr); reflexivity. Qed.

Lemma spawnedBy_listen (l : nat) (c : list CloseListener)
    (e : list ErrorListener) (d : list StderrListener) (pr : Proc) :
  existsb (isAttemptOf l) c = false ->
  spawnedBy l (proc_listen c e d pr) = spawnedBy l pr.
Proof.
  intros H. unfold spawnedBy, proc_listen. cbn [onClose].
  rewrite existsb_app, H. apply orb_false_r.
Qed.

Lemma countRetries_app (l : nat) (js : list (nat * Job)) (i : nat) (j : Job) :
  countRetries l (js ++ [(i, j)]) =
  (countRetries l js + (if isRetryOf l j then 1 else 0))%nat.
Proof. induction js; simpl; lia. Qed.

Lemma countRetries_filter (l : nat) (f : nat * Job -> bool)
    (js : list (nat * Job)) :
  (countRetries l (List.filter f js) <= countRetries l js)%nat.
Proof.
  induction js as [|ij r IH]; simpl; [lia|].
  destruct (f ij); simpl; lia.
Qed.

Lemma countRetries_remove (l id : nat) (js : list (nat * Job)) (d : Z) :
  lookupJob id js = Some (JTimer d (TAttempt l)) ->
  (S (countRetries l (List.filter (fun ij => negb (fst ij =? id)%nat) js))
   <= countRetries l js)%nat.
Proof.
  induction js as [|[i j] r IH]; simpl; [discriminate|].
  destruct (i =? id)%nat eqn:E; simpl.
  - intros [= ->]. simpl. rewrite Nat.eqb_refl.
    pose proof (countRetries_filter l (fun ij => negb (fst ij =? id)%nat) r).
    lia.
  - intros H. specialize (IH H). lia.
Qed.

Lemma frame_refl (l : nat) (s : State) : frame l s s.
Proof. repeat split; reflexivity || lia. Qed.

Lemma frame_trans (l : nat) (a b c : State) :
  frame l a b -> frame l b c -> frame l a c.
Proof.
  intros (H1 & H2 & H3) (H4 & H5 & H6). repeat split; try congruence. lia.
Qed.

Lemma frame_inv (l : nat) (s s' : State) :
  frame l s s' -> ladderInv l s -> ladderInv l s'.
Proof.
  unfold frame, ladderInv, ladderView. intros (Hv & Ha & Hr).
  destruct (ladders s' !! l) as [ld'|]; destruct (ladders s !! l) as [ld|];
    try discriminate.
  - injection Hv as Hl Hc. intros (H1 & H2 & H3). repeat split; lia.
  - intros [H1 H2]. split; lia.
Qed.

Lemma ladderView_alter_io (l l' : nat) (b : bool) (ls : list Ladder) :
  match alter (setIoError b) l' ls !! l with
  | Some ld => Some (length (fallbackCommands ld), currentAttempt ld)
  | None => None
  end =
  match ls !! l with
  | Some ld => Some (length (fallbackCommands ld), currentAttempt ld)
  | None => None
  end.
Proof.
  destruct (Nat.eq_dec l' l) as [->|N].
  - rewrite list_lookup_alter_eq. destruct (ls !! l); reflexivity.
  - rewrite list_lookup_alter_ne by assumption. reflexivity.
Qed.

(** Case analysis on every test of a handler that leaves the ladders
    alone. *)
Ltac frame_cases :=
  repeat (state_cbn;
          match goal with
          | |- context [if ?b then _ else _] => destruct b eqn:?
          | |- context [match ?b with _ => _ end] => destruct b eqn:?
          end);
  unfold frame, ladderView; state_cbn;
  rewrite ?ladderView_alter_io;
  rewrite ?countAttempts_alter
    by (intros; first [apply spawnedBy_kill | reflexivity
                      | apply spawnedBy_listen; reflexivity]);
  rewrite ?countRetries_app, ?countAttempts_app;
  cbn [isRetryOf spawnedBy onClose existsb];
  repeat split; try reflexivity; try lia.

Lemma frame_removeJob (l id : nat) (s : State) : frame l s (removeJob id s).
Proof.
  unfold frame, ladderView, removeJob. state_cbn.
  repeat split; try reflexivity. apply countRetries_filter.
Qed.

Lemma frame_clearTimeout (l id : nat) (s : State) :
  frame l s (clearTimeout id s).
Proof.
  unfold frame, ladderView, clearTimeout. state_cbn.
  repeat split; try reflexivity. apply countRetries_filter.
Qed.

Lemma frame_startRecording l options env s :
  frame l s (fst (startRecording options env s)).
Proof.
  destruct (startRecording options env s) as [s' res] eqn:E. cbn [fst].
  unfold startRecording, spawn in E.
  repeat match type of E with
         | context [if ?b then _ else _] => destruct b eqn:?
         | context [match ?b with _ => _ end] => destruct b eqn:?
         end.
  all: unfold spawn, updProc, addJob in E; injection E as <- _.
  all: frame_cases.
Qed.

Lemma frame_stopRecording l s : frame l s (fst (stopRecording s)).
Proof.
  unfold stopRecording, sendStop, setTimeout, addJob, killProcess, updProc.
  frame_cases.
Qed.

Lemma frame_onStdinGraceTimeout l s : frame l s (onStdinGraceTimeout s).
Proof. unfold onStdinGraceTimeout, addJob. frame_cases. Qed.

Lemma frame_onProcessOBSTimeout l path fs s :
  frame l s (onProcessOBSTimeout path fs s).
Proof.
  unfold onProcessOBSTimeout, fireTimeline, awaitTimeline, addJob,
    sendCompleted, failure.
  frame_cases.
Qed.

Lemma frame_onForceKillTimeout l s : frame l s (onForceKillTimeout s).
Proof.
  unfold onForceKillTimeout, resetAll, killProcess, updProc. frame_cases.
Qed.

Lemma frame_processOBSRecording l s : frame l s (processOBSRecording s).
Proof.
  unfold processOBSRecording, setTimeout, addJob, resetAll. frame_cases.
Qed.

Lemma frame_onTaskkillDone l err s : frame l s (onTaskkillDone err s).
Proof.
  unfold onTaskkillDone, handleSuccessfulOBSKill. destruct err.
  - unfold killCurrent, killProcess, updProc. frame_cases.
  - eapply frame_trans; [|apply frame_processOBSRecording].
    destruct (forceKillTimeout s); [|apply frame_refl].
    eapply frame_trans; [apply (frame_clearTimeout l n s)|].
    unfold frame, ladderView. state_cbn. repeat split; reflexivity || lia.
Qed.

Lemma frame_settle l k r s : frame l s (settle k r s).
Proof. unfold settle, sendCompleted. frame_cases. Qed.

Lemma frame_onCloseAudio l path s : frame l s (onCloseAudio path s).
Proof.
  unfold onCloseAudio, fireTimeline, awaitTimeline, addJob, resetRecording.
  frame_cases.
Qed.

Lemma frame_onCloseScreen l path code signal fs s :
  frame l s (onCloseScreen path code signal fs s).
Proof.
  unfold onCloseScreen, fireTimeline, awaitTimeline, addJob, sendCompleted,
    resetRecording.
  frame_cases.
Qed.

Lemma frame_onCloseObs l code signal s : frame l s (onCloseObs code signal s).
Proof.
  unfold onCloseObs.
  destruct (_ || _); [apply frame_processOBSRecording|apply frame_refl].
Qed.

Lemma frame_onErrorScreen l msg s : frame l s (onErrorScreen msg s).
Proof. unfold onErrorScreen, sendCompleted, resetRecording. frame_cases. Qed.

Lemma frame_onStderrAttempt l l' data s :
  frame l s (onStderrAttempt l' data s).
Proof. unfold onStderrAttempt, updLadder. frame_cases. Qed.

Lemma frame_proc_exit l p s : frame l s (updProc p proc_exit s).
Proof. unfold updProc. frame_cases. Qed.

Lemma inv_bump (l l' : nat) (s : State) :
  ladderInv l s -> ladderInv l (updLadder l' bumpAttempt s).
Proof.
  unfold ladderInv, updLadder. state_cbn.
  destruct (Nat.eq_dec l' l) as [->|N].
  - rewrite list_lookup_alter_eq. destruct (ladders s !! l) as [ld|];
      cbn [fmap option_fmap option_map bumpAttempt fallbackCommands
           currentAttempt]; [|auto].
    intros (H1 & H2 & H3). repeat split; lia.
  - rewrite list_lookup_alter_ne by assumption. auto.
Qed.

Lemma inv_retry (l l' : nat) (d : Z) (s : State) :
  ladderInv l s ->
  ladders s !! l' <> None ->
  ladderInv l (fst (setTimeout (TAttempt l') d (updLadder l' bumpAttempt s))).
Proof.
  unfold ladderInv, setTimeout, addJob, updLadder. state_cbn.
  rewrite countRetries_app. cbn [isRetryOf].
  destruct (Nat.eq_dec l' l) as [->|N].
  - rewrite list_lookup_alter_eq, Nat.eqb_refl.
    destruct (ladders s !! l) as [ld|];
      cbn [fmap option_fmap option_map bumpAttempt fallbackCommands
           currentAttempt]; [|congruence].
    intros (H1 & H2 & H3) _. repeat split; lia.
  - rewrite list_lookup_alter_ne by assumption.
    destruct (Nat.eqb_spec l' l); [congruence|].
    destruct (ladders s !! l); intros H _; [|split]; lia || (repeat split; lia).
Qed.

Lemma inv_onCloseAttempt l l' path code signal fs s :
  ladderInv l s -> ladderInv l (onCloseAttempt l' path code signal fs s).
Proof.
  intros H. unfold onCloseAttempt.
  destruct (ladders s !! l') as [ld|] eqn:E; [|exact H].
  destruct (wasManuallyStopped code signal).
  - eapply frame_inv; [|exact H].
    unfold resetRecording, fireTimeline, awaitTimeline, addJob,
      sendCompleted, failure.
    frame_cases.
  - destruct (attemptSucceeded ld path code fs).
    + eapply frame_inv; [|exact H].
      unfold resetRecording, fireTimeline, awaitTimeline, addJob.
      frame_cases.
    + apply inv_retry; [assumption|congruence].
Qed.

Lemma inv_onErrorAttempt l l' msg s :
  ladderInv l s -> ladderInv l (onErrorAttempt l' msg s).
Proof.
  intros H. unfold onErrorAttempt.
  destruct (ladders s !! l') as [ld|] eqn:E; [|exact H].
  destruct (_ <=? _)%nat.
  - eapply frame_inv; [|apply (inv_bump l l' s H)].
    unfold resetRecording, sendCompleted, failure. frame_cases.
  - apply inv_retry; [assumption|congruence].
Qed.

Lemma inv_attemptRecording l l' sp s :
  ladderInv l s ->
  (l' = l ->
   match ladders s !! l with
   | Some ld =>
       (countAttempts l (procs s) + countRetries l (jobs s)
        <= currentAttempt ld)%nat
   | None => True
   end) ->
  ladderInv l (attemptRecording l' sp s).
Proof.
  intros H Hpre. unfold attemptRecording.
  destruct (ladders s !! l') as [ld|] eqn:E; [|exact H].
  destruct (Nat.leb_spec (length (fallbackCommands ld)) (currentAttempt ld)).
  - eapply frame_inv; [|exact H].
    unfold resetRecording, sendCompleted, failure. frame_cases.
  - unfold ladderInv, spawn, updProc, updLadder in *. state_cbn.
    rewrite alter_snoc, countAttempts_app.
    cbn [spawnedBy proc_listen onClose app existsb isAttemptOf].
    destruct (Nat.eq_dec l' l) as [->|N].
    + rewrite list_lookup_alter_eq, Nat.eqb_refl. specialize (Hpre eq_refl).
      rewrite E in *.
      cbn [fmap option_fmap option_map setIoError fallbackCommands
           currentAttempt orb].
      destruct H as (H1 & H2 & H3). repeat split; lia.
    + rewrite list_lookup_alter_ne by assumption.
      destruct (Nat.eqb_spec l' l); [congruence|]. cbn [orb].
      destruct (ladders s !! l); [|split]; lia || (repeat split; lia).
Qed.

Lemma inv_fold {A} (l : nat) (f : State -> A -> State) (hs : list A) :
  (forall s a, ladderInv l s -> ladderInv l (f s a)) ->
  forall s, ladderInv l s -> ladderInv l (fold_left f hs s).
Proof.
  intros Hf. induction hs as [|a hs IH]; intros s H; simpl; [assumption|].
  apply IH, Hf, H.
Qed.

Lemma inv_onAudioLookupDone l options clean path scanned sp s :
  ladderInv l s ->
  ladderInv l (onAudioLookupDone options clean path scanned sp s).
Proof.
  intros H. unfold onAudioLookupDone.
  set (ld := {| fallbackCommands := _ |}).
  assert (Hnew : ladderInv l (set_ladders (ladders s ++ [ld]) s) /\
                 (length (ladders s) = l ->
                  (countAttempts l (procs s) + countRetries l (jobs s)
                   <= 0)%nat)).
  { unfold ladderInv in *. state_cbn.
    destruct (Nat.lt_total l (length (ladders s))) as [Hl|[Hl|Hl]].
    - rewrite lookup_app_l by assumption. split; [assumption|lia].
    - subst l. rewrite list_lookup_middle by reflexivity.
      rewrite (proj2 (lookup_ge_None (ladders s) _)) in H by lia.
      destruct H as [-> ->]. repeat split; simpl; lia.
    - rewrite (proj2 (lookup_ge_None (ladders s) _)) in H by lia.
      rewrite (proj2 (lookup_ge_None (ladders s ++ [ld]) _))
        by (rewrite List.length_app; simpl; lia).
      split; [assumption|lia]. }
  destruct Hnew as [Hinv Hzero].
  apply inv_attemptRecording; [assumption|].
  intros Hl. state_cbn. rewrite <- Hl.
  rewrite list_lookup_middle by reflexivity. cbn [currentAttempt ld].
  rewrite Hl. apply Hzero, Hl.
Qed.

(** Every handler keeps the bound of every ladder. *)
Lemma inv_step (l : nat) (s : State) (e : Event) :
  ladderInv l s -> ladderInv l (step s e).
Proof.
  intros H. destruct e; cbn [step].
  - destruct (0 <=? dt); exact H.
  - apply (frame_inv l s); [apply frame_startRecording|exact H].
  - apply (frame_inv l s); [apply frame_stopRecording|exact H].
  - destruct (lookupJob id (jobs s)) as [[deadline t| | |]|] eqn:E;
      try exact H.
    destruct (deadline <=? now s); [|exact H].
    pose proof (frame_inv l s _ (frame_removeJob l id s) H) as H1.
    destruct t; cbn [runTimer].
    + apply inv_attemptRecording; [exact H1|]. intros ->.
      pose proof (countRetries_remove l id (jobs s) deadline E) as Hr.
      unfold ladderInv, removeJob in *. state_cbn.
      destruct (ladders s !! l); [|exact I].
      destruct H as (_ & H2 & _). lia.
    + eapply frame_inv; [apply frame_onStdinGraceTimeout|exact H1].
    + eapply frame_inv; [apply frame_onProcessOBSTimeout|exact H1].
    + eapply frame_inv; [apply frame_onForceKillTimeout|exact H1].
  - destruct (lookupJob id (jobs s)) as [[| k | |]|]; try exact H.
    eapply frame_inv; [apply frame_settle|].
    eapply frame_inv; [apply frame_removeJob|exact H].
  - destruct (lookupJob id (jobs s)) as [[| | c |]|]; try exact H.
    eapply frame_inv; [apply frame_onTaskkillDone|].
    eapply frame_inv; [apply frame_removeJob|exact H].
  - destruct (lookupJob id (jobs s)) as [[| | |o c p]|]; try exact H.
    apply inv_onAudioLookupDone.
    eapply frame_inv; [apply frame_removeJob|exact H].
  - destruct (procs s !! p) as [pr|]; [|exact H].
    destruct (exited pr); [exact H|].
    apply inv_fold.
    + intros s0 h H0. destruct h; cbn [runClose].
      * eapply frame_inv; [apply frame_onCloseAudio|exact H0].
      * apply inv_onCloseAttempt, H0.
      * eapply frame_inv; [apply frame_onCloseScreen|exact H0].
      * eapply frame_inv; [apply frame_onCloseObs|exact H0].
    + eapply frame_inv; [apply frame_proc_exit|exact H].
  - destruct (procs s !! p) as [pr|]; [|exact H].
    apply inv_fold; [|exact H].
    intros s0 h H0. destruct h; cbn [runError].
    + apply inv_onErrorAttempt, H0.
    + eapply frame_inv; [apply frame_onErrorScreen|exact H0].
  - destruct (procs s !! p) as [pr|]; [|exact H].
    apply inv_fold; [|exact H].
    intros s0 h H0. destruct h; cbn [runStderr]; [|exact H0].
    eapply frame_inv; [apply frame_onStderrAttempt|exact H0].
Qed.

Lemma inv_run (l : nat) (evs : list Event) (s : State) :
  ladderInv l s -> ladderInv l (run evs s).
Proof. apply inv_fold. intros s0 e. apply inv_step. Qed.

(** X20: in every run of the main process, whatever the environment
    delivers and in whatever order (closes, errors, stops, timers), at most
    three processes are ever spawned for one camera ladder. *)
Theorem ladder_spawns_at_most_three (recordingsDir : string)
    (devices : list Device) (evs : list Event) (l : nat) :
  (countAttempts l (procs (run evs (initial recordingsDir devices))) <= 3)%nat.
Proof.
  pose proof (inv_run l evs (initial recordingsDir devices)) as H.
  unfold ladderInv in H at 2.
  destruct (ladders (run evs (initial recordingsDir devices)) !! l).
  - apply H. split; reflexivity.
  - destruct H as [-> _]; [|lia]. split; reflexivity.
Qed.

(** ** Completion payloads *)

(** Case analysis on every test of a handler, then the check of the
    message it sends, if any. *)
Ltac sent_cases H :=
  repeat (state_cbn;
          match goal with
          | |- context [if ?b then _ else _] => destruct b eqn:?
          | |- context [match ?b with _ => _ end] => destruct b eqn:?
          end);
  state_cbn; rewrite ?forallb_app, ?H; try reflexivity; try exact H.

Lemma sent_startRecording options env s :
  forallb wellFormed (sent s) = true ->
  forallb wellFormed (sent (fst (startRecording options env s))) = true.
Proof.
  intros H.
  destruct (startRecording options env s) as [s' res] eqn:E. cbn [fst].
  unfold startRecording, spawn in E.
  repeat match type of E with
         | context [if ?b then _ else _] => destruct b eqn:?
         | context [match ?b with _ => _ end] => destruct b eqn:?
         end.
  all: unfold updProc, addJob in E; injection E as <- _; exact H.
Qed.

Lemma sent_stopRecording s :
  forallb wellFormed (sent s) = true ->
  forallb wellFormed (sent (fst (stopRecording s))) = true.
Proof.
  intros H.
  unfold stopRecording, sendStop, setTimeout, addJob, killProcess, updProc.
  sent_cases H.
Qed.

Lemma sent_attemptRecording l sp s :
  forallb wellFormed (sent s) = true ->
  forallb wellFormed (sent (attemptRecording l sp s)) = true.
Proof.
  intros H.
  unfold attemptRecording, spawn, updProc, updLadder, sendCompleted,
    resetRecording, failure.
  sent_cases H.
Qed.

Lemma sent_runTimer t fs sp s :
  forallb wellFormed (sent s) = true ->
  forallb wellFormed (sent (runTimer t fs sp s)) = true.
Proof.
  intros H. destruct t; cbn [runTimer].
  - apply sent_attemptRecording, H.
  - unfold onStdinGraceTimeout, addJob. sent_cases H.
  - unfold onProcessOBSTimeout, fireTimeline, awaitTimeline, addJob,
      sendCompleted, failure.
    sent_cases H.
  - unfold onForceKillTimeout, resetAll, killProcess, updProc. sent_cases H.
Qed.

Lemma sent_settle k r s :
  forallb wellFormed (sent s) = true ->
  forallb wellFormed (sent (settle k r s)) = true.
Proof. intros H. unfold settle, sendCompleted. sent_cases H. Qed.

Lemma sent_onTaskkillDone err s :
  forallb wellFormed (sent s) = true ->
  forallb wellFormed (sent (onTaskkillDone err s)) = true.
Proof.
  intros H.
  unfold onTaskkillDone, handleSuccessfulOBSKill, processOBSRecording,
    killCurrent, killProcess, updProc, setTimeout, addJob, resetAll,
    clearTimeout.
  sent_cases H.
Qed.

Lemma sent_runClose code signal fs s h :
  forallb wellFormed (sent s) = true ->
  forallb wellFormed (sent (runClose code signal fs s h)) = true.
Proof.
  intros H. destruct h; cbn [runClose].
  - unfold onCloseAudio, fireTimeline, awaitTimeline, addJob, resetRecording.
    sent_cases H.
  - unfold onCloseAttempt, fireTimeline, awaitTimeline, setTimeout, addJob,
      sendCompleted, resetRecording, updLadder, failure.
    sent_cases H.
  - unfold onCloseScreen, fireTimeline, awaitTimeline, addJob, sendCompleted,
      resetRecording.
    sent_cases H.
  - unfold onCloseObs, processOBSRecording, setTimeout, addJob, resetAll.
    sent_cases H.
Qed.

Lemma sent_runError msg s h :
  forallb wellFormed (sent s) = true ->
  forallb wellFormed (sent (runError msg s h)) = true.
Proof.
  intros H. destruct h; cbn [runError].
  - unfold onErrorAttempt, setTimeout, addJob, updLadder, sendCompleted,
      resetRecording, failure.
    sent_cases H.
  - unfold onErrorScreen, sendCompleted, resetRecording. sent_cases H.
Qed.

Lemma sent_runStderr data s h :
  forallb wellFormed (sent s) = true ->
  forallb wellFormed (sent (runStderr data s h)) = true.
Proof.
  intros H. destruct h; cbn [runStderr]; [|exact H].
  unfold onStderrAttempt, updLadder. sent_cases H.
Qed.

Lemma sent_fold {A} (f : State -> A -> State) (hs : list A) :
  (forall s a, forallb wellFormed (sent s) = true ->
               forallb wellFormed (sent (f s a)) = true) ->
  forall s, forallb wellFormed (sent s) = true ->
            forallb wellFormed (sent (fold_left f hs s)) = true.
Proof.
  intros Hf. induction hs as [|a hs IH]; intros s H; simpl; [assumption|].
  apply IH, Hf, H.
Qed.

Lemma sent_step (s : State) (e : Event) :
  forallb wellFormed (sent s) = true ->
  forallb wellFormed (sent (step s e)) = true.
Proof.
  intros H. destruct e; cbn [step].
  - destruct (0 <=? dt); exact H.
  - apply sent_startRecording, H.
  - apply sent_stopRecording, H.
  - destruct (lookupJob id (jobs s)) as [[deadline t| | |]|]; try exact H.
    destruct (deadline <=? now s); [|exact H]. apply sent_runTimer, H.
  - destruct (lookupJob id (jobs s)) as [[| k | |]|]; try exact H.
    apply sent_settle, H.
  - destruct (lookupJob id (jobs s)) as [[| | c |]|]; try exact H.
    apply sent_onTaskkillDone, H.
  - destruct (lookupJob id (jobs s)) as [[| | |o c p]|]; try exact H.
    unfold onAudioLookupDone. apply sent_attemptRecording, H.
  - destruct (procs s !! p) as [pr|]; [|exact H].
    destruct (exited pr); [exact H|].
    apply sent_fold; [|exact H]. intros s0 h. apply sent_runClose.
  - destruct (procs s !! p) as [pr|]; [|exact H].
    apply sent_fold; [|exact H]. intros s0 h. apply sent_runError.
  - destruct (procs s !! p) as [pr|]; [|exact H].
    apply sent_fold; [|exact H]. intros s0 h. apply sent_runStderr.
Qed.

(** X21: in every run of the main process, every ['recording:completed']
    message sent is well formed: a success names the recorded file and
    carries the timeline result or an error text, a failure carries an
    error text and no timeline result. *)
Theorem completions_are_well_formed (recordingsDir : string)
    (devices : list Device) (evs : list Event) :
  forallb wellFormed (sent (run evs (initial recordingsDir devices))) = true.
Proof.
  apply sent_fold; [|reflexivity]. intros s e. apply sent_step.
Qed.

(** ** The timeline result *)

(** X22: a successful result of [addRecordingToTimeline] names the
    timeline the clip was placed on, the current timeline when there is
    one (then one of the four placement calls has worked) and otherwise a
    new timeline named after the date, which was created and made current,
    and [createdNewTimeline] tells which; a failed result has no timeline
    name and no message, and always an error text. *)
Theorem timeline_result_shape (api : ResolveApi) (path : string) :
  let r := addRecordingToTimeline api path in
  if tl_success r then
    tl_error r = None /\ thrown api = None /\
    match currentTimeline api with
    | Some current =>
        r = timelineDone current false /\
        (insertClips api || dropClips api || appendToTimeline api ||
         dropClipsAtEnd api) = true
    | None =>
        r = timelineDone ("Screen Recording - " +:+ dateString api) true /\
        createdTimeline api = true /\ setCurrentTimeline api = true
    end
  else
    tl_timelineName r = None /\ tl_createdNewTimeline r = None /\
    tl_message r = None /\ exists msg, tl_error r = Some msg.
Proof.
  cbv zeta. unfold addRecordingToTimeline.
  destruct (thrown api); [simpl; repeat split; eexists; reflexivity|].
  destruct (hasResolve api); cbn [negb];
    [|simpl; repeat split; eexists; reflexivity].
  destruct (hasMediaStorage api); cbn [negb];
    [|simpl; repeat split; eexists; reflexivity].
  destruct (hasMediaPool api); cbn [negb];
    [|simpl; repeat split; eexists; reflexivity].
  destruct (clips api =? 0)%nat;
    [simpl; repeat split; eexists; reflexivity|].
  destruct (hasProject api); cbn [negb];
    [|simpl; repeat split; eexists; reflexivity].
  destruct (currentTimeline api) as [current|].
  - destruct (timecodeThrows api);
      [simpl; repeat split; eexists; reflexivity|].
    destruct (_ || _) eqn:E; simpl; repeat split; try reflexivity.
    eexists; reflexivity.
  - destruct (createdTimeline api); cbn [negb];
      [|simpl; repeat split; eexists; reflexivity].
    destruct (setCurrentTimeline api); cbn [negb];
      [|simpl; repeat split; eexists; reflexivity].
    simpl. repeat split; reflexivity.
Qed.

(** ** The renderer *)

Lemma renderer_start_busy (form : Renderer.Form) (rs : Renderer.State) :
  Renderer.isRecording rs = true ->
  Renderer.requestStart form rs = (rs, []).
Proof.
  intros H. unfold Renderer.requestStart, Renderer.startRecording.
  rewrite H. reflexivity.
Qed.

Lemma renderer_step_busy (rs : Renderer.State) (e : Renderer.Event) :
  Renderer.isRecording rs = true ->
  Renderer.reportsSuccess e = false ->
  Renderer.isRecording (fst (Renderer.step rs e)) = true /\
  (Renderer.startDisabled rs = true ->
   Renderer.startDisabled (fst (Renderer.step rs e)) = true) /\
  forall o, ~ In (Renderer.ReqStart o) (snd (Renderer.step rs e)).
Proof.
  intros H He.
  destruct e as [form| |form| |form|reply|reply|data]; cbn [Renderer.step].
  - rewrite renderer_start_busy by exact H. simpl. tauto.
  - unfold Renderer.requestStop, Renderer.stopRecording. rewrite H. simpl.
    repeat split; try tauto; intros o Ho; simpl in Ho;
      destruct Ho as [Ho|[]]; discriminate Ho.
  - rewrite H. simpl. tauto.
  - rewrite H. unfold Renderer.requestStop, Renderer.stopRecording.
    rewrite H. simpl.
    repeat split; try tauto; intros o Ho; simpl in Ho;
      destruct Ho as [Ho|[]]; discriminate Ho.
  - rewrite H. unfold Renderer.requestStop, Renderer.stopRecording.
    rewrite H. simpl.
    repeat split; try tauto; intros o Ho; simpl in Ho;
      destruct Ho as [Ho|[]]; discriminate Ho.
  - destruct reply as [[|] e|message]; simpl; tauto.
  - destruct reply as [[|] e|message]; simpl; tauto.
  - simpl in He. unfold Renderer.handleRecordingCompleted. rewrite He.
    simpl. tauto.
Qed.

(** X23: the renderer's own flag is cleared only by a
    ['recording:completed'] message that reports a success.  Whatever
    else happens (clicks, shortcuts, answers of the main process, failure
    messages), a renderer that believes a recording is running keeps
    believing so, keeps its start button disabled if it was, and sends no
    start request. *)
Theorem renderer_flag_cleared_only_by_success (evs : list Renderer.Event)
    (rs : Renderer.State) :
  Renderer.isRecording rs = true ->
  existsb Renderer.reportsSuccess evs = false ->
  Renderer.isRecording (fst (Renderer.run evs rs)) = true /\
  (Renderer.startDisabled rs = true ->
   Renderer.startDisabled (fst (Renderer.run evs rs)) = true) /\
  forall o, ~ In (Renderer.ReqStart o) (snd (Renderer.run evs rs)).
Proof.
  revert rs. induction evs as [|e evs IH]; intros rs H Hs.
  - simpl. tauto.
  - simpl in Hs. apply orb_false_iff in Hs as [He Hs].
    destruct (renderer_step_busy rs e H He) as (H1 & Hd1 & Ho1).
    cbn [Renderer.run].
    destruct (Renderer.step rs e) as [rs1 out1].
    cbn [fst snd] in H1, Hd1, Ho1.
    destruct (IH rs1 H1 Hs) as (H2 & Hd2 & Ho2).
    destruct (Renderer.run evs rs1) as [rs2 out2].
    cbn [fst snd] in *.
    repeat split; [exact H2|tauto|].
    intros o Hin. apply in_app_or in Hin as [Hin|Hin];
      [exact (Ho1 o Hin)|exact (Ho2 o Hin)].
Qed.

Lemma renderer_flag_cleared_only_by_success_witness :
  let rs := Renderer.startReplied (Renderer.Result true None)
              Renderer.idlePage in
  let evs := [Renderer.Completed (failure None "Recording failed");
              Renderer.ClickStart sampleForm;
              Renderer.ShortcutToggle sampleForm;
              Renderer.StopReplied (stopReply (snd (stopRecording sampleInitial)));
              Renderer.ShortcutStart cameraForm] in
  Renderer.isRecording (fst (Renderer.run evs rs)) = true /\
  (Renderer.startDisabled rs = true ->
   Renderer.startDisabled (fst (Renderer.run evs rs)) = true) /\
  forall o, ~ In (Renderer.ReqStart o) (snd (Renderer.run evs rs)).
Proof.
  cbv zeta.
  apply (renderer_flag_cleared_only_by_success
           [Renderer.Completed (failure None "Recording failed");
            Renderer.ClickStart sampleForm;
            Renderer.ShortcutToggle sampleForm;
            Renderer.StopReplied (stopReply (snd (stopRecording sampleInitial)));
            Renderer.ShortcutStart cameraForm]
           (Renderer.startReplied (Renderer.Result true None)
              Renderer.idlePage));
    vm_compute; reflexivity.
Defined.







(** X25: what the renderer shows when a recording has completed and
    [addRecordingToTimeline] has run on it.  The page is back to idle
    (flag cleared, start enabled, stop disabled).  If the clip was placed
    the status line, in green, names the timeline used: the current one
    as an existing timeline, else the new one named after the date, and
    nothing is alerted.  If not, the status line is orange and one alert
    gives the error text of the timeline result, the path of the file and
    its last path segment as the name to select. *)
Theorem renderer_shows_timeline_outcome (api : ResolveApi)
    (path : string) (warn : option string) (rs : Renderer.State) :
  let result := addRecordingToTimeline api path in
  let rs' :=
    Renderer.handleRecordingCompleted
      {| success := true; filePath := Some path;
         timelineResult := Some result; error := None; warning := warn |}
      rs in
  Renderer.isRecording rs' = false /\
  Renderer.startDisabled rs' = false /\
  Renderer.stopDisabled rs' = true /\
  if tl_success result then
    Renderer.statusColor rs' = "green" /\
    Renderer.alerts rs' = Renderer.alerts rs /\
    Renderer.statusText rs' =
      Renderer.checkMark +:+
      match currentTimeline api with
      | Some current => " Recording added to existing timeline: " +:+ current
      | None =>
          " Recording added to new timeline: " +:+
          ("Screen Recording - " +:+ dateString api)
      end
  else
    Renderer.statusColor rs' = "orange" /\
    Renderer.statusText rs' =
      Renderer.warningSign +:+
      " Timeline integration failed - see manual instructions" /\
    exists msg,
      tl_error result = Some msg /\
      Renderer.alerts rs' =
        Renderer.alerts rs ++
        [Renderer.manualImport msg
           (if String.eqb path "" then "Unknown location" else path)
           (if String.eqb path "" then "Unknown file"
            else snd (splitDir path))].
Proof.
  cbv zeta. unfold Renderer.handleRecordingCompleted.
  cbn [success timelineResult filePath].
  assert (Hf : forall msg,
    let rs' :=
      Renderer.alert
        (Renderer.manualImport
           (Renderer.interpolate (tl_error (timelineFailed msg)))
           (orDefault (Some path) "Unknown location")
           (if truthy (Some path) then snd (splitDir (orDefault (Some path) ""))
            else "Unknown file"))
        (Renderer.set_status
           (Renderer.warningSign +:+
            " Timeline integration failed - see manual instructions")
           "orange"
           (Renderer.updateRecordingUI (Renderer.set_isRecording false rs))) in
    Renderer.isRecording rs' = false /\
    Renderer.startDisabled rs' = false /\
    Renderer.stopDisabled rs' = true /\
    Renderer.statusColor rs' = "orange" /\
    Renderer.statusText rs' =
      Renderer.warningSign +:+
      " Timeline integration failed - see manual instructions" /\
    exists m,
      tl_error (timelineFailed msg) = Some m /\
      Renderer.alerts rs' =
        Renderer.alerts rs ++
        [Renderer.manualImport m
           (if String.eqb path "" then "Unknown location" else path)
           (if String.eqb path "" then "Unknown file"
            else snd (splitDir path))]).
  { intros msg. cbv zeta. repeat split. exists msg. split; [reflexivity|].
    unfold truthy, orDefault. cbn.
    destruct (String.eqb path ""); reflexivity. }
  assert (Hd : forall name created,
    let rs' :=
      Renderer.set_status
        (Renderer.checkMark +:+
         (match tl_createdNewTimeline (timelineDone name created) with
          | Some true => " Recording added to new timeline: "
          | _ => " Recording added to existing timeline: "
          end) +:+
         Renderer.interpolate (tl_timelineName (timelineDone name created)))
        "green"
        (Renderer.updateRecordingUI (Renderer.set_isRecording false rs)) in
    Renderer.isRecording rs' = false /\
    Renderer.startDisabled rs' = false /\
    Renderer.stopDisabled rs' = true /\
    Renderer.statusColor rs' = "green" /\
    Renderer.alerts rs' = Renderer.alerts rs /\
    Renderer.statusText rs' =
      Renderer.checkMark +:+
      (if created then " Recording added to new timeline: " +:+ name
       else " Recording added to existing timeline: " +:+ name)).
  { intros name created. cbv zeta. repeat split.
    destruct created; reflexivity. }
  unfold addRecordingToTimeline.
  destruct (thrown api); [exact (Hf _)|].
  destruct (hasResolve api); cbn [negb]; [|exact (Hf _)].
  destruct (hasMediaStorage api); cbn [negb]; [|exact (Hf _)].
  destruct (hasMediaPool api); cbn [negb]; [|exact (Hf _)].
  destruct (clips api =? 0)%nat; [exact (Hf _)|].
  destruct (hasProject api); cbn [negb]; [|exact (Hf _)].
  destruct (currentTimeline api) as [current|].
  - destruct (timecodeThrows api); [exact (Hf _)|].
    destruct (_ || _); [exact (Hd current false)|exact (Hf _)].
  - cbv zeta.
    destruct (createdTimeline api); cbn [negb]; [|exact (Hf _)].
    destruct (setCurrentTimeline api); cbn [negb]; [|exact (Hf _)].
    exact (Hd _ true).
Qed.
